(** * KubeBlocks HA coordination core: WeSQL engine manager and the
      Kubernetes-backed configuration store

    A shallow embedding of
      - package wesql: [Manager] and its role, membership, health and
        promotion operations, and
      - package configuration_store: [ConfigurationStore], its refresh
        from the Kubernetes API, and [LeaderRecord],
      - the helpers of the backup controller (package dataprotection), the
        migration steps (package migrationapi) and the configuration-line
        scanner (package unstructured),
    followed by the properties the specification states about them and
    further properties read off the code.

    Go strings are byte sequences and are modelled by [string] (a list of
    [ascii] bytes).  [int] and [int64] are 64-bit and are modelled by [Z]
    with the range written out where the code depends on it.  Go maps
    are [gmap]s, slices are lists with the bounds check of an index
    expression written out, nil-able pointers are [option]s. *)

From Stdlib Require Import ZArith Ascii String List Lia.
From Stdlib Require Import Decimal DecimalString DecimalPos DecimalZ.
From stdpp Require Import base option list strings gmap.

Open Scope string_scope.

(** ** Go runtime: panics, slices, loop variables *)

Module GoRuntime.

(** A call either returns or panics (run-time error). *)
Inductive Outcome (A : Type) : Type :=
| Returned (a : A)
| Panicked (msg : string).
Arguments Returned {A} a.
Arguments Panicked {A} msg.

Definition obind {A B} (m : Outcome A) (k : A -> Outcome B) : Outcome B :=
  match m with
  | Returned a => k a
  | Panicked msg => Panicked msg
  end.

(** [make([]T, len, cap)]: a slice of [len] zero values.  The capacity
    only reserves storage; an index expression is checked against the
    length. *)
Definition make {T} (zero : T) (len cap : nat) : list T := replicate len zero.

(** [s[i] = v]: panics unless [0 <= i < len(s)]. *)
Definition slice_store {T} (s : list T) (i : nat) (v : T) : Outcome (list T) :=
  if (i <? length s)%nat then Returned (<[i:=v]> s)
  else Panicked "index out of range".

(** Go's [error] value when it is not nil: its message. *)
Definition error := string.

(** [errors.Wrap(err, msg)] and [errors.Wrapf(err, format, args...)]. *)
Definition Wrap (err : error) (msg : string) : error := msg ++ ": " ++ err.

(** Addressable variables.  [&x] of a variable is a pointer into a store of
    cells; every cell of a given loop holds a value of the same type. *)
Definition Ptr := nat.
Definition Heap (T : Type) := list T.

Definition alloc {T} (h : Heap T) (v : T) : Ptr * Heap T := (length h, (h ++ [v])%list).
Definition load {T} (h : Heap T) (p : Ptr) : option T := h !! p.

(** The variable of a [for ... range] clause.  Up to Go 1.21 the clause
    declares ONE variable that every iteration assigns; from Go 1.22 on
    (selected by the [go] directive of go.mod) every iteration declares a
    fresh one.  The difference is observable exactly when the body takes
    the variable's address. *)
Inductive LoopVar := PerLoop | PerIteration.

(** Entering an iteration with element [x]: returns the address of the
    iteration variable and the store.  [var] is the variable of the
    previous iteration, if any. *)
Definition enter_iteration {T} (sem : LoopVar) (var : option Ptr)
    (h : Heap T) (x : T) : Ptr * Heap T :=
  match sem, var with
  | PerLoop, Some p => (p, <[p:=x]> h)
  | _, _ => alloc h x
  end.

End GoRuntime.

(** ** Go standard library: [strings] and [strconv] *)

Module strings.

(** [strings.HasPrefix(s, prefix)]. *)
Definition HasPrefix (s p : string) : bool := String.prefix p s.

(** [strings.Contains(s, substr)]: [substr] occurs at some offset. *)
Fixpoint Contains (s substr : string) : bool :=
  if String.prefix substr s then true
  else match s with
       | EmptyString => false
       | String _ t => Contains t substr
       end.

(** [strings.Split(s, sep)] for a non-empty [sep] (every call site passes a
    one-byte literal): the pieces of [s] between the successive leftmost,
    non-overlapping occurrences of [sep].  [skip] counts the bytes of an
    occurrence that are still to be passed over.  The result is never
    empty: its first element is the piece being read. *)
Fixpoint genSplit (sep : string) (skip : nat) (s : string) : list string :=
  match s with
  | EmptyString => [EmptyString]
  | String c t =>
      match skip with
      | S k => genSplit sep k t
      | O =>
          if String.prefix sep s
          then EmptyString :: genSplit sep (String.length sep - 1) t
          else match genSplit sep 0 t with
               | piece :: rest => String c piece :: rest
               | [] => [String c EmptyString]
               end
      end
  end.

Definition Split (s sep : string) : list string := genSplit sep 0 s.

(** The index expression [xs[0]] on the result of [Split]; [Split] never
    returns an empty slice (lemma [Split_nonempty]), so the default is
    never taken. *)
Definition elem0 (xs : list string) : string :=
  match xs with
  | x :: _ => x
  | [] => EmptyString
  end.

Definition lower (c : ascii) : ascii :=
  let n := nat_of_ascii c in
  if ((65 <=? n) && (n <=? 90))%nat then ascii_of_nat (n + 32) else c.

(** [strings.EqualFold(s, t)] restricted to ASCII case folding.  Go folds
    under Unicode simple case folding; among the ASCII letters only [k]
    and [s] have a non-ASCII partner (U+212A, U+017F), and the program
    only compares against the literal [Leader], so the two agree on
    every call the program makes. *)
Fixpoint EqualFold (s t : string) : bool :=
  match s, t with
  | EmptyString, EmptyString => true
  | String a s', String b t' => Ascii.eqb (lower a) (lower b) && EqualFold s' t'
  | _, _ => false
  end.

End strings.

Module strconv.

Definition digit (c : ascii) : option Z :=
  let n := Z.of_nat (nat_of_ascii c) in
  if (48 <=? n)%Z && (n <=? 57)%Z then Some (n - 48)%Z else None.

Fixpoint digits (acc : Z) (s : string) : option Z :=
  match s with
  | EmptyString => Some acc
  | String c t =>
      match digit c with
      | Some d => digits (10 * acc + d)%Z t
      | None => None
      end
  end.

Definition in_int (v : Z) : bool :=
  ((- 2 ^ 63 <=? v) && (v <=? 2 ^ 63 - 1))%Z.

(** [strconv.Atoi(s)]: an optional sign followed by one or more decimal
    digits, in the range of a 64-bit [int].  [None] stands for a non-nil
    error (syntax or range); the number returned next to an error is
    never read by this program. *)
Definition Atoi (s : string) : option Z :=
  match s with
  | EmptyString => None
  | String c t =>
      let '(neg, body) :=
        if Ascii.eqb c "-" then (true, t)
        else if Ascii.eqb c "+" then (false, t)
        else (false, s) in
      match body with
      | EmptyString => None
      | _ =>
          match digits 0 body with
          | Some n =>
              let v := if neg then (- n)%Z else n in
              if in_int v then Some v else None
          | None => None
          end
      end
  end.

(** [strconv.FormatInt(i, 10)]: the shortest decimal numeral of [i], with
    a leading [-] for a negative number. *)
Definition FormatInt (i : Z) : string := NilEmpty.string_of_int (Z.to_int i).

End strconv.

(** ** The cluster snapshot handed to the engine manager (package dcs) *)

Module dcs.

(** Modelled from the spec: [dcs.Member], [dcs.Leader] and [dcs.Cluster]
    are declared in pkg/lorry/dcs, which is not part of the sources at
    hand.  The manager reads [member.Name], [cluster.Leader.Name] and
    [cluster.Members]; the remaining fields follow the data model of the
    specification (a member has a name, an observed role and opaque
    metadata; a leader has the store's version token and embeds a
    member; the roster is a slice of member VALUES). *)
Record Member := {
  Name : string;
  Role : string;
  Data : gmap string string;
}.

Record Leader := {
  Version : string;
  LeaderMember : Member;   (* embedded: [leader.Name] is [leader.Member.Name] *)
}.

Record Cluster := {
  Leader_ : option Leader;        (* Leader *Leader *)
  Members : list Member;          (* Members []Member *)
}.

(** A [*dcs.Cluster] argument: nil or a snapshot. *)
Definition ClusterRef := option Cluster.

End dcs.

(** ** The SQL engine seen from the manager (package mysql, database/sql) *)

Module mysql.

(** [mysql.CellData] is [sql.NullString]; [mysql.RowMap] is
    [map[string]CellData].  A missing key reads as the zero value. *)
Record CellData := { String_ : string; Valid : bool }.

Definition GetString (rMap : gmap string CellData) (key : string) : string :=
  match rMap !! key with
  | Some cell => String_ cell
  | None => EmptyString
  end.

(** [mysql.QueryRowsMap(db, query, on_row)] is outside the sources at
    hand.  It runs the query and hands the rows, in order, to the
    callback, stopping at the first error; [res] is the outcome of
    running the query and [acc] the variables the callback closes
    over. *)
Fixpoint scan_rows {A} (rows : list (gmap string CellData))
    (on_row : gmap string CellData -> A -> option GoRuntime.error * A) (acc : A)
    : option GoRuntime.error * A :=
  match rows with
  | [] => (None, acc)
  | rMap :: rest =>
      match on_row rMap acc with
      | (Some err, acc') => (Some err, acc')
      | (None, acc') => scan_rows rest on_row acc'
      end
  end.

Definition QueryRowsMap {A} (res : GoRuntime.error + list (gmap string CellData))
    (on_row : gmap string CellData -> A -> option GoRuntime.error * A) (acc : A)
    : option GoRuntime.error * A :=
  match res with
  | inl err => (Some err, acc)
  | inr rows => scan_rows rows on_row acc
  end.

End mysql.

Module wesql.
Import GoRuntime.

Definition Role := "ROLE".
Definition CurrentLeader := "CURRENT_LEADER".
Definition Leader := "Leader".

(** A [*sql.DB] connection handle. *)
Definition DB := nat.

(** What the manager does to the engine, in order.  Logger calls have no
    influence on results or on the engine and are not recorded. *)
Inductive Event :=
| EvGetLeaderConn                      (* mgr.GetLeaderConn(cluster) *)
| EvGetReplicaRole                     (* mgr.GetReplicaRole(ctx, cluster) *)
| EvQuery (db : DB) (sql : string)     (* a SELECT on connection db *)
| EvExec (db : DB) (sql : string)      (* an administrative statement *)
| EvIsMemberHealthy (name : string).   (* mgr.IsMemberHealthy(ctx, cluster, m) *)

Definition is_admin_command (e : Event) : bool :=
  match e with EvExec _ _ => true | _ => false end.

(** The embedded [mysql.Manager] and the engine behind it.  Its methods and
    the database driver are outside the sources at hand and are taken as
    parameters: each answers from the engine's current state [St]; only
    an executed statement may change that state.

    [query_consensus_info] is
    [QueryRowContext(...).Scan(&clusterID, &clusterInfo)]: the error of
    [Scan] (nil on success) and the two destinations as the call leaves
    them.  A destination [Scan] did not store into keeps its zero value,
    the empty string; [Scan] can also store the row and then return the
    error of closing the rows, so an error does not imply empty
    destinations. *)
Record Manager (St : Type) := {
  CurrentMemberName : string;
  mgrDB : DB;                                                   (* mgr.DB *)
  GetLeaderConn : dcs.ClusterRef -> St -> error + DB;
  GetReplicaRole : dcs.ClusterRef -> St -> error + string;
  IsMemberHealthy : dcs.ClusterRef -> dcs.Member -> St -> bool;
  query_consensus_info : DB -> St -> option error * (string * string);
  query_cluster_global : DB -> St -> error + list (gmap string mysql.CellData);
  exec : DB -> string -> St -> (error + nat) * St;
}.
Arguments CurrentMemberName {St}.
Arguments mgrDB {St}.
Arguments GetLeaderConn {St}.
Arguments GetReplicaRole {St}.
Arguments IsMemberHealthy {St}.
Arguments query_consensus_info {St}.
Arguments query_cluster_global {St}.
Arguments exec {St}.

(** Computations of the manager: engine state in, result, engine state and
    the events issued out. *)
Definition M (St A : Type) := St -> A * St * list Event.

Definition ret {St A} (a : A) : M St A := fun s => (a, s, []).

Definition bind {St A B} (m : M St A) (k : A -> M St B) : M St B :=
  fun s =>
    let '(a, s1, t1) := m s in
    let '(b, s2, t2) := k a s1 in
    (b, s2, (t1 ++ t2)%list).

(** Ask the engine a question that does not change it. *)
Definition ask {St A} (e : Event) (q : St -> A) : M St A :=
  fun s => (q s, s, [e]).

(** Execute a statement. *)
Definition run_exec {St} (mgr : Manager St) (db : DB) (sql : string) : M St (error + nat) :=
  fun s => let '(r, s') := exec mgr db sql s in (r, s', [EvExec db sql]).

Definition result {St A} (r : A * St * list Event) : A := r.1.1.
Definition final {St A} (r : A * St * list Event) : St := r.1.2.
Definition trace {St A} (r : A * St * list Event) : list Event := r.2.

Notation "'do' x <- c ; k" := (bind c (fun x => k))
  (at level 10, x name, c at level 100, k at level 200).

Section Operations.
Context {St : Type} (mgr : Manager St).

Definition IsLeader (cluster : dcs.ClusterRef) : M St (bool * option error) :=
  do r <- ask EvGetReplicaRole (GetReplicaRole mgr cluster);
  match r with
  | inl err => ret (false, Some err)
  | inr role =>
      if strings.EqualFold role Leader then ret (true, None)
      else ret (false, None)
  end.

(** Modelled from the spec: [GetLeaderMember] belongs to the embedded
    manager, outside the sources at hand.  The leader member of a
    snapshot is the member its [Leader] entry embeds; it is nil when
    the snapshot has no leader. *)
Definition GetLeaderMember (cluster : dcs.Cluster) : option dcs.Member :=
  match dcs.Leader_ cluster with
  | Some l => Some (dcs.LeaderMember l)
  | None => None
  end.

Definition IsLeaderMember (cluster : dcs.Cluster) (member : option dcs.Member)
    : bool * option error :=
  match member with
  | None => (false, None)
  | Some member =>
      match GetLeaderMember cluster with
      | None => (false, None)
      | Some leaderMember =>
          if negb (String.eqb (dcs.Name leaderMember) (dcs.Name member))
          then (false, None)
          else (true, None)
      end
  end.

Definition consensus_info_sql :=
  "select cluster_id, cluster_info from mysql.consensus_info".

Definition GetClusterInfo (cluster : dcs.ClusterRef) : M St string :=
  let scan (db : DB) : M St string :=
    do r <- ask (EvQuery db consensus_info_sql) (query_consensus_info mgr db);
    let '(err, (clusterID, clusterInfo)) := r in
    match err with
    | Some _ => ret clusterInfo          (* the error is logged *)
    | None => ret clusterInfo
    end in
  match cluster with
  | Some _ =>
      do r <- ask EvGetLeaderConn (GetLeaderConn mgr cluster);
      match r with
      | inl _ => ret EmptyString
      | inr db => scan db
      end
  | None => scan (mgrDB mgr)
  end.

(** The body of [for _, addr := range strings.Split(clusterInfo, ";")]. *)
Fixpoint GetMemberAddrs_range (tokens addrs : list string) : list string :=
  match tokens with
  | [] => addrs
  | addr :: rest =>
      if negb (strings.Contains addr ":") then GetMemberAddrs_range rest addrs
      else GetMemberAddrs_range rest
             (addrs ++ [strings.elem0 (strings.Split addr "#")])%list
  end.

Definition GetMemberAddrs (cluster : dcs.ClusterRef) : M St (list string) :=
  let addrs := make EmptyString 0 3 in
  do clusterInfo <- GetClusterInfo cluster;
  let clusterInfo := strings.elem0 (strings.Split clusterInfo "@") in
  ret (GetMemberAddrs_range (strings.Split clusterInfo ";") addrs).

Fixpoint GetAddrWithMemberName_range (addrs : list string) (memberName : string)
    : string :=
  match addrs with
  | [] => EmptyString
  | addr :: rest =>
      if strings.HasPrefix addr memberName then addr
      else GetAddrWithMemberName_range rest memberName
  end.

Definition GetAddrWithMemberName (cluster : dcs.ClusterRef) (memberName : string)
    : M St string :=
  do addrs <- GetMemberAddrs cluster;
  ret (GetAddrWithMemberName_range addrs memberName).

Definition LeaveMemberFromCluster (cluster : dcs.ClusterRef) (memberName : string)
    : M St (option error) :=
  do r <- ask EvGetLeaderConn (GetLeaderConn mgr cluster);
  match r with
  | inl err => ret (Some err)
  | inr db =>
      do addr <- GetAddrWithMemberName cluster memberName;
      if String.eqb addr EmptyString then ret None
      else
        let sql := "call dbms_consensus.downgrade_follower('" ++ addr ++ "');"
                   ++ "call dbms_consensus.drop_learner('" ++ addr ++ "');" in
        do r <- run_exec mgr db sql;
        match r with
        | inl err => ret (Some (Wrap err ("error executing " ++ sql)))
        | inr _ => ret None
        end
  end.

Definition cluster_global_sql :=
  "select * from information_schema.wesql_cluster_global;".

Definition IsClusterHealthy (cluster : dcs.ClusterRef) : M St bool :=
  do r <- ask EvGetLeaderConn (GetLeaderConn mgr cluster);
  match r with
  | inl _ => ret false
  | inr db =>
      let leaderRecord : gmap string mysql.CellData := ∅ in
      do res <- ask (EvQuery db cluster_global_sql) (query_cluster_global mgr db);
      let '(err, leaderRecord) :=
        mysql.QueryRowsMap res
          (fun rMap leaderRecord =>
             if String.eqb (mysql.GetString rMap Role) Leader
             then (None, rMap)
             else (None, leaderRecord))
          leaderRecord in
      match err with
      | Some _ => ret false
      | None => if (0 <? size leaderRecord)%nat then ret true else ret false
      end
  end.

Definition IsClusterInitialized (_ : dcs.ClusterRef) : M St (bool * option error) :=
  do clusterInfo <- GetClusterInfo None;
  if negb (String.eqb clusterInfo EmptyString) then ret (true, None)
  else ret (false, None).

Definition Promote (cluster : dcs.ClusterRef) : M St (option error) :=
  do il <- IsLeader None;
  let isLeader := il.1 in
  if isLeader then ret None
  else
    do r <- ask EvGetLeaderConn (GetLeaderConn mgr cluster);
    match r with
    | inl err => ret (Some (Wrap err "Get leader conn failed"))
    | inr db =>
        do addr <- GetAddrWithMemberName cluster (CurrentMemberName mgr);
        if String.eqb addr EmptyString
        then ret (Some "get current member's addr failed")
        else
          do r <- run_exec mgr db
                    ("call dbms_consensus.change_leader('" ++ addr ++ "');");
          match r with
          | inl err => ret (Some err)
          | inr _ => ret None
          end
    end.

(** The body of [for _, member := range cluster.Members].  [member] is
    the loop variable, [&member] its address [p]; [members] collects
    such addresses. *)
Fixpoint HasOtherHealthyMembers_range (sem : LoopVar) (cluster : dcs.Cluster)
    (leader : string) (rest : list dcs.Member) (var : option Ptr)
    (h : Heap dcs.Member) (members : list Ptr)
    : M St (list Ptr * Heap dcs.Member) :=
  match rest with
  | [] => ret (members, h)
  | member :: rest' =>
      let '(p, h') := enter_iteration sem var h member in
      if String.eqb (dcs.Name member) leader
      then HasOtherHealthyMembers_range sem cluster leader rest' (Some p) h' members
      else
        do healthy <- ask (EvIsMemberHealthy (dcs.Name member))
                        (IsMemberHealthy mgr (Some cluster) member);
        if negb healthy
        then HasOtherHealthyMembers_range sem cluster leader rest' (Some p) h' members
        else HasOtherHealthyMembers_range sem cluster leader rest' (Some p) h'
               (members ++ [p])%list
  end.

(** Returns the slice of pointers together with the store they point
    into. *)
Definition HasOtherHealthyMembers (sem : LoopVar) (cluster : dcs.Cluster)
    (leader : string) : M St (list Ptr * Heap dcs.Member) :=
  let members := make 0%nat 0 0 in
  HasOtherHealthyMembers_range sem cluster leader (dcs.Members cluster) None [] members.

(** The members a caller finds behind the returned pointers. *)
Definition pointees (r : list Ptr * Heap dcs.Member) : list dcs.Member :=
  omap (load r.2) r.1.

Definition IsCurrentMemberInCluster (cluster : dcs.ClusterRef) : M St bool :=
  do clusterInfo <- GetClusterInfo cluster;
  ret (strings.Contains clusterInfo (CurrentMemberName mgr)).

Definition IsPromoted : M St bool :=
  do il <- IsLeader None;
  let isLeader := il.1 in
  ret isLeader.

End Operations.

(** [HasOtherHealthyLeader].  [mgr.GetClusterLocalInfo()] and
    [cluster.GetMemberWithName(name)] are outside the sources at hand: the
    answer of the first ([clusterLocalInfo], [err]) and the second as a
    function are arguments.  Apart from that call the method touches
    nothing. *)
Definition HasOtherHealthyLeader
    (GetMemberWithName : dcs.Cluster -> string -> option dcs.Member)
    (clusterLocalInfo : option (gmap string mysql.CellData)) (err : option error)
    (cluster : dcs.Cluster) : option dcs.Member :=
  match err, clusterLocalInfo with
  | Some _, _ | _, None => None
  | None, Some clusterLocalInfo =>
      if String.eqb (mysql.GetString clusterLocalInfo Role) Leader then None
      else
        let leaderAddr := mysql.GetString clusterLocalInfo CurrentLeader in
        if String.eqb leaderAddr EmptyString then None
        else
          let leaderParts := strings.Split leaderAddr "." in
          if (0 <? length leaderParts)%nat
          then GetMemberWithName cluster (strings.elem0 leaderParts)
          else None
  end.

End wesql.

(** ** The Kubernetes-backed configuration store *)

Module configuration_store.
Import GoRuntime.

(** Indexing a [map[string]string]: a missing key reads as the empty
    string. *)
Definition index_map (m : gmap string string) (key : string) : string :=
  default EmptyString (m !! key).

Record LeaderRecord := {
  acquireTime : Z;
  leader : string;
  renewTime : Z;
  ttl : Z;
}.

(** Modelled from the spec: the lease-expiry predicate.  The sources at
    hand declare [LeaderRecord] and decode it ([newLeaderRecord]) but do
    not contain the expiry check; the specification gives it as
    [now > renewTime + ttl] on Unix seconds. *)
Definition isExpired (r : LeaderRecord) (now : Z) : bool :=
  (now >? renewTime r + ttl r)%Z.

(** Modelled from the spec: what a reader may conclude from a lease.  The
    readers of the lease are outside the sources at hand; the
    specification requires that a lease confers leadership on its owner
    only while it is not expired. *)
Definition confersLeadership (r : LeaderRecord) (now : Z) (who : string) : bool :=
  negb (isExpired r now) && String.eqb (leader r) who.

(** The objects of the Kubernetes API the store reads. *)
Record ConfigMap := {
  cm_Name : string;
  cm_ResourceVersion : string;
  cm_Annotations : gmap string string;
}.

(** [appsv1alpha1.Cluster], as far as the store reads it. *)
Record ClusterObj := {
  obj_ResourceVersion : string;
  obj_Annotations : gmap string string;
}.

(** Modelled from the spec: [Member], [Leader], [Failover], [Cluster] and
    their constructors are declared outside the sources at hand.  Each
    constructor stores its arguments; the field lists follow the
    constructor calls and the data model of the specification. *)
Record Member := {
  m_index : string;
  m_name : string;
  m_data : gmap string string;
}.

Definition newMember (index name : string) (data : gmap string string) : Member :=
  {| m_index := index; m_name := name; m_data := data |}.

Record Leader := {
  l_version : string;
  l_member : Member;
}.

Definition newLeader (version : string) (member : Member) : Leader :=
  {| l_version := version; l_member := member |}.

Record Failover := {
  f_version : string;
  f_leader : string;
  f_candidate : string;
  f_scheduledAt : Z;
}.

Definition newFailover (version leader candidate : string) (scheduledAt : Z) : Failover :=
  {| f_version := version; f_leader := leader; f_candidate := candidate;
     f_scheduledAt := scheduledAt |}.

Record Cluster (ClusterConfig : Type) := {
  c_SysID : string;
  c_Config : option ClusterConfig;
  c_Leader : option Leader;
  c_Members : list (option Member);      (* []*Member *)
  c_FailOver : option Failover;
  c_Extra : gmap string string;
}.
Arguments c_SysID {ClusterConfig}.
Arguments c_Config {ClusterConfig}.
Arguments c_Leader {ClusterConfig}.
Arguments c_Members {ClusterConfig}.
Arguments c_FailOver {ClusterConfig}.
Arguments c_Extra {ClusterConfig}.

(** The store, without its API clients (their answers are [ApiServer]). *)
Record ConfigurationStore (ClusterConfig : Type) := {
  clusterName : string;
  clusterCompName : string;
  namespace : string;
  cluster : option (Cluster ClusterConfig);
  leaderObservedRecord : option LeaderRecord;
  LeaderObservedTime : Z;
}.
Arguments clusterName {ClusterConfig}.
Arguments clusterCompName {ClusterConfig}.
Arguments namespace {ClusterConfig}.
Arguments cluster {ClusterConfig}.
Arguments leaderObservedRecord {ClusterConfig}.
Arguments LeaderObservedTime {ClusterConfig}.

(** What the API server answers to the three reads of a refresh: each
    list call yields a (possibly nil) list object and a (possibly nil)
    error. *)
Record ApiServer (Pod : Type) := {
  Pods_List : option (list Pod) * option error;
  ConfigMaps_List : option (list ConfigMap) * option error;
  GetK8SClientObject : error + ClusterObj;
}.
Arguments Pods_List {Pod}.
Arguments ConfigMaps_List {Pod}.
Arguments GetK8SClientObject {Pod}.

Section Store.
(** Annotation keys and object-name suffixes: package constants whose
    values are outside the sources at hand. *)
Context (SysID TTL LeaderName AcquireTime RenewTime ScheduledAt Candidate : string).
Context (ConfigSuffix FailoverSuffix : string).
(** Decoders declared outside the sources at hand. *)
Context {Pod ClusterConfig : Type}.
Context (getMemberFromPod : option Pod -> option Member).
Context (getClusterConfigFromConfigMap : ConfigMap -> ClusterConfig).

Definition newLeaderRecord (data : gmap string string) : LeaderRecord :=
  let ttl := match strconv.Atoi (index_map data TTL) with
             | Some v => v
             | None => 0%Z
             end in
  let acquireTime := match strconv.Atoi (index_map data AcquireTime) with
                     | Some v => v
                     | None => 0%Z
                     end in
  let renewTime := match strconv.Atoi (index_map data RenewTime) with
                   | Some v => v
                   | None => 0%Z
                   end in
  {| acquireTime := acquireTime;
     leader := index_map data LeaderName;
     renewTime := renewTime;
     ttl := ttl |}.

(** [for i, pod := range pods { members[i] = getMemberFromPod(pod) }]. *)
Fixpoint members_range (pods : list (option Pod)) (i : nat)
    (members : list (option Member)) : Outcome (list (option Member)) :=
  match pods with
  | [] => Returned members
  | pod :: rest =>
      obind (slice_store members i (getMemberFromPod pod))
            (fun members => members_range rest (S i) members)
  end.

(** [config], [failoverConfig] and the elements of [pods] are pointers;
    the function only reads through them, so each is given as the
    object it points to when the function is called ([None] for nil).
    [now] is [time.Now().Unix()]. *)
Definition loadClusterFromKubernetes (cs : ConfigurationStore ClusterConfig)
    (config failoverConfig : option ConfigMap) (pods : list (option Pod))
    (clusterObj : option ClusterObj) (extra : gmap string string) (now : Z)
    : Outcome (Cluster ClusterConfig * ConfigurationStore ClusterConfig) :=
  let failover : option Failover := None in
  let '(sysID, clusterConfig) :=
    match config with
    | Some config =>
        (index_map (cm_Annotations config) SysID,
         Some (getClusterConfigFromConfigMap config))
    | None => (EmptyString, None)
    end in
  let '(cs, leader) :=
    match clusterObj with
    | Some clusterObj =>
        ({| clusterName := clusterName cs;
            clusterCompName := clusterCompName cs;
            namespace := namespace cs;
            cluster := cluster cs;
            leaderObservedRecord := Some (newLeaderRecord (obj_Annotations clusterObj));
            LeaderObservedTime := now |},
         Some (newLeader (obj_ResourceVersion clusterObj)
                 (newMember "-1" (index_map (obj_Annotations clusterObj) LeaderName) ∅)))
    | None => (cs, None)
    end in
  let members := make None 0 (length pods) in
  obind (members_range pods 0 members) (fun members =>
  obind (match failover with
         | Some _ =>
             match failoverConfig with
             | None => Panicked "nil pointer dereference"
             | Some failoverConfig =>
                 let annotations := cm_Annotations failoverConfig in
                 match strconv.Atoi (index_map annotations ScheduledAt) with
                 | Some scheduledAt =>
                     Returned (Some (newFailover (cm_ResourceVersion failoverConfig)
                                       (index_map annotations LeaderName)
                                       (index_map annotations Candidate)
                                       scheduledAt))
                 | None => Returned failover
                 end
             end
         | None => Returned failover
         end) (fun failover =>
  Returned ({| c_SysID := sysID;
               c_Config := clusterConfig;
               c_Leader := leader;
               c_Members := members;
               c_FailOver := failover;
               c_Extra := extra |}, cs))).

(** [for i, pod := range podList.Items { pods[i] = &pod }]. *)
Fixpoint pods_range (sem : LoopVar) (items : list Pod) (i : nat)
    (var : option Ptr) (h : Heap Pod) (pods : list (option Ptr))
    : Outcome (list (option Ptr) * Heap Pod) :=
  match items with
  | [] => Returned (pods, h)
  | pod :: rest =>
      let '(p, h') := enter_iteration sem var h pod in
      obind (slice_store pods i (Some p))
            (fun pods => pods_range sem rest (S i) (Some p) h' pods)
  end.

(** [for _, cf := range configMapList.Items { switch cf.Name {...} }]. *)
Fixpoint configs_range (sem : LoopVar) (cs : ConfigurationStore ClusterConfig)
    (items : list ConfigMap) (var : option Ptr) (h : Heap ConfigMap)
    (config failoverConfig : option Ptr)
    : option Ptr * option Ptr * Heap ConfigMap :=
  match items with
  | [] => (config, failoverConfig, h)
  | cf :: rest =>
      let '(p, h') := enter_iteration sem var h cf in
      if String.eqb (cm_Name cf) (clusterCompName cs ++ ConfigSuffix)
      then configs_range sem cs rest (Some p) h' (Some p) failoverConfig
      else if String.eqb (cm_Name cf) (clusterCompName cs ++ FailoverSuffix)
      then configs_range sem cs rest (Some p) h' config (Some p)
      else configs_range sem cs rest (Some p) h' config failoverConfig
  end.

(** Reading through a nil-able pointer at the time of a call. *)
Definition deref {T} (h : Heap T) (p : option Ptr) : option T :=
  match p with
  | Some p => load h p
  | None => None
  end.

Definition GetClusterFromKubernetes (sem : LoopVar) (api : ApiServer Pod)
    (cs : ConfigurationStore ClusterConfig) (now : Z)
    : Outcome (option error * ConfigurationStore ClusterConfig) :=
  match Pods_List api with
  | (_, Some err) => Returned (Some err, cs)
  | (None, None) => Returned (None, cs)
  | (Some podItems, None) =>
      match ConfigMaps_List api with
      | (_, Some err) => Returned (Some err, cs)
      | (None, None) => Returned (None, cs)
      | (Some configMapItems, None) =>
          match GetK8SClientObject api with
          | inl err => Returned (Some err, cs)
          | inr clusterObj =>
              let pods := make None 0 (length podItems) in
              obind (pods_range sem podItems 0 None [] pods) (fun '(pods, hp) =>
              let '(config, failoverConfig, hc) :=
                configs_range sem cs configMapItems None [] None None in
              obind (loadClusterFromKubernetes cs (deref hc config)
                       (deref hc failoverConfig) (map (deref hp) pods)
                       (Some clusterObj) ∅ now) (fun '(c, cs) =>
              Returned (None,
                        {| clusterName := clusterName cs;
                           clusterCompName := clusterCompName cs;
                           namespace := namespace cs;
                           cluster := Some c;
                           leaderObservedRecord := leaderObservedRecord cs;
                           LeaderObservedTime := LeaderObservedTime cs |})))
          end
      end
  end.

End Store.

(** [GetCluster] and [GetClusterName]: the last refreshed snapshot and the
    configured name, without any read of the API. *)
Definition GetCluster {ClusterConfig} (cs : ConfigurationStore ClusterConfig)
    : option (Cluster ClusterConfig) := cluster cs.

Definition GetClusterName {ClusterConfig} (cs : ConfigurationStore ClusterConfig)
    : string := clusterName cs.

(** A write request [Init] sends to the API server. *)
Inductive Write :=
| WrUpdateCluster (namespace : string) (obj : ClusterObj)
| WrCreateConfigMap (namespace : string) (cm : ConfigMap).

(** The API server seen from [Init]: reading the cluster object, updating
    it, creating a ConfigMap.  Each answers from, and a write may change,
    the server's state [K]. *)
Record ApiWriter (K : Type) := {
  Cluster_Get : string -> string -> K -> error + ClusterObj;
  Cluster_Update : string -> ClusterObj -> K -> option error * K;
  ConfigMaps_Create : string -> ConfigMap -> K -> option error * K;
}.
Arguments Cluster_Get {K}.
Arguments Cluster_Update {K}.
Arguments ConfigMaps_Create {K}.

Section Bootstrap.
(** Annotation keys, object-name suffixes and the names of the environment
    variables: constants whose values are outside the sources at hand. *)
Context (SysID TTL LeaderName AcquireTime RenewTime MaxLagOnFailover : string).
Context (ConfigSuffix ExtraSuffix : string).
Context (KbPrimaryPodName KbTtl : string).
Context {K ClusterConfig : Type} (api : ApiWriter K).

(** [env] is the process environment ([os.Getenv] reads an unset variable
    as the empty string), [now] is [time.Now().Unix()], [extra] is nil or
    a map.  The result is the error, the server's state and the write
    requests sent, in order. *)
Definition Init (cs : ConfigurationStore ClusterConfig) (env : gmap string string)
    (now : Z) (sysID : string) (extra : option (gmap string string)) (k : K)
    : option error * K * list Write :=
  match Cluster_Get api (namespace cs) (clusterName cs) k with
  | inl err => (Some err, k, [])
  | inr clusterObj =>
      let leaderName :=
        strings.elem0 (strings.Split (index_map env KbPrimaryPodName) ".") in
      let acquireTime := now in
      let renewTime := acquireTime in
      let ttl := index_map env KbTtl in
      let annotations : gmap string string :=
        <[TTL := ttl]>
          (<[RenewTime := strconv.FormatInt renewTime]>
             (<[AcquireTime := strconv.FormatInt acquireTime]>
                (<[LeaderName := leaderName]> ∅))) in
      let clusterObj :=
        {| obj_ResourceVersion := obj_ResourceVersion clusterObj;
           obj_Annotations := annotations |} in
      let update := WrUpdateCluster (namespace cs) clusterObj in
      match Cluster_Update api (namespace cs) clusterObj k with
      | (Some err, k1) => (Some err, k1, [update])
      | (None, k1) =>
          let maxLagOnFailover := index_map env MaxLagOnFailover in
          let config :=
            {| cm_Name := clusterCompName cs ++ ConfigSuffix;
               cm_ResourceVersion := EmptyString;
               cm_Annotations :=
                 <[MaxLagOnFailover := maxLagOnFailover]>
                   (<[TTL := ttl]> (<[SysID := sysID]> ∅)) |} in
          let create_config := WrCreateConfigMap (namespace cs) config in
          match ConfigMaps_Create api (namespace cs) config k1 with
          | (Some err, k2) => (Some err, k2, [update; create_config])
          | (None, k2) =>
              match extra with
              | Some extra =>
                  let extraConfig :=
                    {| cm_Name := clusterCompName cs ++ ExtraSuffix;
                       cm_ResourceVersion := EmptyString;
                       cm_Annotations := extra |} in
                  let create_extra := WrCreateConfigMap (namespace cs) extraConfig in
                  match ConfigMaps_Create api (namespace cs) extraConfig k2 with
                  | (Some err, k3) => (Some err, k3, [update; create_config; create_extra])
                  | (None, k3) => (None, k3, [update; create_config; create_extra])
                  end
              | None => (None, k2, [update; create_config])
              end
          end
      end
  end.

End Bootstrap.

End configuration_store.

(** ** The specification's reading of the membership string *)

Module membership.

(** The part of [s] before the first byte [c] (all of [s] when [c] does not
    occur). *)
Fixpoint before (c : ascii) (s : string) : string :=
  match s with
  | EmptyString => EmptyString
  | String a t => if Ascii.eqb a c then EmptyString else String a (before c t)
  end.

(** The pieces of [s] between the occurrences of the byte [c]. *)
Fixpoint pieces (c : ascii) (s : string) : list string :=
  match s with
  | EmptyString => [EmptyString]
  | String a t =>
      if Ascii.eqb a c then EmptyString :: pieces c t
      else match pieces c t with
           | piece :: rest => String a piece :: rest
           | [] => [String a EmptyString]
           end
  end.

Fixpoint has_byte (c : ascii) (s : string) : bool :=
  match s with
  | EmptyString => false
  | String a t => Ascii.eqb a c || has_byte c t
  end.

(** Truncate at the first [@], split on [;], keep the tokens that have a
    [:], cut each at its first [#]. *)
Definition member_addrs (clusterInfo : string) : list string :=
  map (before "#") (filter (fun tok => has_byte ":" tok = true)
                           (pieces ";" (before "@" clusterInfo))).

End membership.

(** ** Letter case *)

Module folding.

(** [s] with every ASCII capital replaced by its small letter. *)
Fixpoint lower_all (s : string) : string :=
  match s with
  | EmptyString => EmptyString
  | String a t => String (strings.lower a) (lower_all t)
  end.

End folding.

(** ** The specification's reading of the global-status rows *)

Module status.

Definition reports_leader (rMap : gmap string mysql.CellData) : bool :=
  String.eqb (mysql.GetString rMap wesql.Role) wesql.Leader.

(** The rows that report the leader role, in scan order. *)
Definition leader_rows (rows : list (gmap string mysql.CellData))
    : list (gmap string mysql.CellData) :=
  filter (fun rMap => reports_leader rMap = true) rows.

End status.

(** ** The specification's reading of the candidate pool *)

Module roster.

(** A member of the roster qualifies when it is not the named leader and
    passes the health probe. *)
Definition qualifies {St} (mgr : wesql.Manager St) (cluster : dcs.Cluster)
    (leader : string) (s : St) (member : dcs.Member) : bool :=
  negb (String.eqb (dcs.Name member) leader)
  && wesql.IsMemberHealthy mgr (Some cluster) member s.

Definition candidates {St} (mgr : wesql.Manager St) (cluster : dcs.Cluster)
    (leader : string) (s : St) : list dcs.Member :=
  filter (fun member => qualifies mgr cluster leader s member = true) (dcs.Members cluster).

End roster.

(** ** The records a refresh looks for *)

Module selection.

(** The primary config record: the ConfigMap named after the component
    with the config suffix. *)
Definition names_config {ClusterConfig}
    (cs : configuration_store.ConfigurationStore ClusterConfig) (ConfigSuffix : string)
    (cf : configuration_store.ConfigMap) : bool :=
  String.eqb (configuration_store.cm_Name cf)
    (configuration_store.clusterCompName cs ++ ConfigSuffix).

(** The failover record: named with the failover suffix (and not already
    taken as the config record). *)
Definition names_failover {ClusterConfig}
    (cs : configuration_store.ConfigurationStore ClusterConfig)
    (ConfigSuffix FailoverSuffix : string) (cf : configuration_store.ConfigMap) : bool :=
  negb (names_config cs ConfigSuffix cf)
  && String.eqb (configuration_store.cm_Name cf)
       (configuration_store.clusterCompName cs ++ FailoverSuffix).

(** The SysID a snapshot shows for a chosen config record. *)
Definition sysid_of (SysID : string) (cf : option configuration_store.ConfigMap) : string :=
  match cf with
  | Some cf => configuration_store.index_map (configuration_store.cm_Annotations cf) SysID
  | None => EmptyString
  end.

End selection.

(** ** Scenarios: a simulated engine and sample store objects *)

Module scenario.
Import GoRuntime.

(** A simulated engine: the membership string and status rows it reports,
    its own role, the members that fail the health probe, and the
    statements executed so far. *)
Record Sim := {
  sim_info : string;
  sim_rows : list (gmap string mysql.CellData);
  sim_role : string;
  sim_unhealthy : list string;
  sim_executed : list string;
}.

Definition no_leader_error : error := "the cluster has no leader".

(** The leader connection resolves exactly when the snapshot names a
    leader; queries answer from the simulated state; a statement is
    recorded and succeeds. *)
Definition sim_manager (name : string) : wesql.Manager Sim :=
  {| wesql.CurrentMemberName := name;
     wesql.mgrDB := 0%nat;
     wesql.GetLeaderConn := fun cluster _ =>
       match cluster with
       | Some c => match dcs.Leader_ c with
                   | Some _ => inr 1%nat
                   | None => inl no_leader_error
                   end
       | None => inl no_leader_error
       end;
     wesql.GetReplicaRole := fun _ s => inr (sim_role s);
     wesql.IsMemberHealthy := fun _ m s =>
       negb (existsb (String.eqb (dcs.Name m)) (sim_unhealthy s));
     wesql.query_consensus_info := fun _ s => (None, ("1", sim_info s));
     wesql.query_cluster_global := fun _ s => inr (sim_rows s);
     wesql.exec := fun _ sql s =>
       (inr 0%nat,
        {| sim_info := sim_info s; sim_rows := sim_rows s; sim_role := sim_role s;
           sim_unhealthy := sim_unhealthy s;
           sim_executed := (sim_executed s ++ [sql])%list |}) |}.

(** The same engine behind a connection on which [Scan] stores the row
    and then returns the error of closing the rows. *)
Definition close_error : error := "closing the rows failed".

Definition closing_manager (name : string) : wesql.Manager Sim :=
  {| wesql.CurrentMemberName := name;
     wesql.mgrDB := wesql.mgrDB (sim_manager name);
     wesql.GetLeaderConn := wesql.GetLeaderConn (sim_manager name);
     wesql.GetReplicaRole := wesql.GetReplicaRole (sim_manager name);
     wesql.IsMemberHealthy := wesql.IsMemberHealthy (sim_manager name);
     wesql.query_consensus_info := fun _ s => (Some close_error, ("1", sim_info s));
     wesql.query_cluster_global := wesql.query_cluster_global (sim_manager name);
     wesql.exec := wesql.exec (sim_manager name) |}.

Definition member (name : string) : dcs.Member :=
  {| dcs.Name := name; dcs.Role := EmptyString; dcs.Data := ∅ |}.

Definition pod0 := member "pod-0".
Definition pod1 := member "pod-1".

Definition led_by (m : dcs.Member) (roster : list dcs.Member) : dcs.Cluster :=
  {| dcs.Leader_ := Some {| dcs.Version := "7"; dcs.LeaderMember := m |};
     dcs.Members := roster |}.

Definition leaderless (roster : list dcs.Member) : dcs.Cluster :=
  {| dcs.Leader_ := None; dcs.Members := roster |}.

Definition row (role : string) : gmap string mysql.CellData :=
  {[ wesql.Role := {| mysql.String_ := role; mysql.Valid := true |} ]}.

Definition engine (info role : string) (rows : list (gmap string mysql.CellData)) : Sim :=
  {| sim_info := info; sim_rows := rows; sim_role := role;
     sim_unhealthy := []; sim_executed := [] |}.

(** The same engine with the named members failing the health probe. *)
Definition ailing (names : list string) (e : Sim) : Sim :=
  {| sim_info := sim_info e; sim_rows := sim_rows e; sim_role := sim_role e;
     sim_unhealthy := names; sim_executed := sim_executed e |}.

Definition two_members : string := "10.0.0.1:13306#1;10.0.0.2:13306#1@1000".

(** Store objects.  The annotation keys and suffixes are sample values for
    the package constants. *)
Definition failover_cm : configuration_store.ConfigMap :=
  {| configuration_store.cm_Name := "mycluster-mysql-failover";
     configuration_store.cm_ResourceVersion := "42";
     configuration_store.cm_Annotations :=
       {[ "scheduledAt" := "1700000000"; "leaderName" := "pod-0";
          "candidate" := "pod-1" ]} |}.

Definition cluster_obj : configuration_store.ClusterObj :=
  {| configuration_store.obj_ResourceVersion := "9";
     configuration_store.obj_Annotations :=
       {[ "leaderName" := "pod-0"; "acquireTime" := "100"; "renewTime" := "100";
          "ttl" := "30" ]} |}.

Definition store0 : configuration_store.ConfigurationStore unit :=
  {| configuration_store.clusterName := "mycluster";
     configuration_store.clusterCompName := "mycluster-mysql";
     configuration_store.namespace := "default";
     configuration_store.cluster := None;
     configuration_store.leaderObservedRecord := None;
     configuration_store.LeaderObservedTime := 0 |}.

(** A pod is represented by its name. *)
Definition member_of_pod (pod : option string) : option configuration_store.Member :=
  match pod with
  | Some name => Some (configuration_store.newMember "0" name ∅)
  | None => None
  end.

Definition load_sample :=
  configuration_store.loadClusterFromKubernetes
    "sysID" "ttl" "leaderName" "acquireTime" "renewTime" "scheduledAt" "candidate"
    member_of_pod (fun _ => tt).

Definition refresh_sample :=
  configuration_store.GetClusterFromKubernetes
    "sysID" "ttl" "leaderName" "acquireTime" "renewTime" "scheduledAt" "candidate"
    "-config" "-failover" member_of_pod (fun _ => tt).

Definition api_with (pods : list string) : configuration_store.ApiServer string :=
  {| configuration_store.Pods_List := (Some pods, None);
     configuration_store.ConfigMaps_List := (Some [failover_cm], None);
     configuration_store.GetK8SClientObject := inr cluster_obj |}.

(** An API server that holds the cluster object and the ConfigMaps created
    so far: an update needs the object to exist, a create refuses a name
    that is taken. *)
Record Server := {
  srv_cluster : option configuration_store.ClusterObj;
  srv_configmaps : list configuration_store.ConfigMap;
}.

Definition server_api : configuration_store.ApiWriter Server :=
  {| configuration_store.Cluster_Get := fun _ _ k =>
       match srv_cluster k with
       | Some obj => inr obj
       | None => inl "not found"
       end;
     configuration_store.Cluster_Update := fun _ obj k =>
       match srv_cluster k with
       | Some _ => (None, {| srv_cluster := Some obj; srv_configmaps := srv_configmaps k |})
       | None => (Some "not found", k)
       end;
     configuration_store.ConfigMaps_Create := fun _ cm k =>
       if existsb (fun c => String.eqb (configuration_store.cm_Name c)
                              (configuration_store.cm_Name cm)) (srv_configmaps k)
       then (Some "already exists", k)
       else (None, {| srv_cluster := srv_cluster k;
                      srv_configmaps := (srv_configmaps k ++ [cm])%list |}) |}.

Definition server0 : Server :=
  {| srv_cluster := Some cluster_obj; srv_configmaps := [] |}.

Definition sample_env : gmap string string :=
  {[ "KB_PRIMARY_POD_NAME" := "pod-0.mycluster-mysql-headless"; "KB_TTL" := "30";
     "maxLagOnFailover" := "10" ]}.

Definition init_sample :=
  configuration_store.Init
    "sysID" "ttl" "leaderName" "acquireTime" "renewTime" "maxLagOnFailover"
    "-config" "-extra" "KB_PRIMARY_POD_NAME" "KB_TTL" server_api (ClusterConfig := unit).

(** The cluster object of the first write of a bootstrap at time
    1700000000. *)
Definition written_lease : configuration_store.ClusterObj :=
  match (init_sample store0 sample_env 1700000000%Z "sys-1" None server0).2 with
  | configuration_store.WrUpdateCluster _ obj :: _ => obj
  | _ => cluster_obj
  end.

(** The first member of the roster with the given name. *)
Definition member_with_name (cluster : dcs.Cluster) (name : string) : option dcs.Member :=
  List.find (fun m => String.eqb (dcs.Name m) name) (dcs.Members cluster).

(** The local status row of a follower that sees [pod-1] as leader. *)
Definition follower_row : gmap string mysql.CellData :=
  {[ wesql.Role := {| mysql.String_ := "Follower"; mysql.Valid := true |};
     wesql.CurrentLeader :=
       {| mysql.String_ := "pod-1.mycluster-mysql-headless:13306"; mysql.Valid := true |} ]}.

End scenario.

(** * Backup controller helpers *)

Module metav1.

(** [*metav1.Time]: nil or an instant.  [Equal] and [Before] are those of
    k8s.io/apimachinery: two nil times are equal, a nil and a non-nil
    time are not, and nothing is before or after a nil time; instants are
    compared as [time.Time] does (here an integer count of nanoseconds). *)
Definition Time := option Z.

Definition Equal (t u : Time) : bool :=
  match t, u with
  | None, None => true
  | Some t, Some u => (t =? u)%Z
  | _, _ => false
  end.

Definition Before (t u : Time) : bool :=
  match t, u with
  | Some t, Some u => (t <? u)%Z
  | _, _ => false
  end.

End metav1.

Module dataprotection.
Import GoRuntime.

(** [dataprotectionv1alpha1.Backup], as far as the helpers read it. *)
Record Backup := {
  Name : string;
  StartTimestamp : metav1.Time;        (* Status.StartTimestamp *)
}.

(** [byBackupStartTime]: a slice of backups; an index out of range
    panics. *)
Definition Len (o : list Backup) : nat := length o.

(** [o[i], o[j] = o[j], o[i]]: both operands are read, then [o[i]] and
    [o[j]] are written in this order. *)
Definition Swap (o : list Backup) (i j : nat) : Outcome (list Backup) :=
  match o !! j, o !! i with
  | Some oj, Some oi => Returned (<[j := oi]> (<[i := oj]> o))
  | _, _ => Panicked "index out of range"
  end.

Definition Less (o : list Backup) (i j : nat) : Outcome bool :=
  match o !! i, o !! j with
  | Some oi, Some oj =>
      if match StartTimestamp oi with None => true | Some _ => false end
         && match StartTimestamp oj with None => false | Some _ => true end
      then Returned false
      else if match StartTimestamp oi with None => false | Some _ => true end
              && match StartTimestamp oj with None => true | Some _ => false end
      then Returned true
      else if metav1.Equal (StartTimestamp oi) (StartTimestamp oj)
      then Returned (String.ltb (Name oi) (Name oj))
      else Returned (metav1.Before (StartTimestamp oi) (StartTimestamp oj))
  | _, _ => Panicked "index out of range"
  end.

(** [fmt.Sprintf("%s-%s", a, b)]. *)
Definition Sprintf_s_s (a b : string) : string := a ++ "-" ++ b.

(** [backupType] is a [BackupType], a string type. *)
Definition getCreatedCRNameByBackupPolicy
    (backupPolicyName backupPolicyNamespace backupType : string) : string :=
  let name := Sprintf_s_s backupPolicyName backupPolicyNamespace in
  let name := if (30 <? String.length name)%nat then String.substring 0 30 name else name in
  Sprintf_s_s name backupType.

End dataprotection.

(** * Migration steps *)

Module migrationapi.

(** [StepEnum] and [CliStepEnum] are string types; a value of either is
    any string. *)
Definition StepPreCheck : string := "preCheck".
Definition StepStructPreFullLoad : string := "initStruct".
Definition StepFullLoad : string := "initData".
Definition StepStructAfterFullLoad : string := "initStructLater".
Definition StepInitialization : string := "initialization".
Definition StepPreDelete : string := "preDelete".
Definition StepCdc : string := "cdc".

Definition CliStepGlobal : string := "global".
Definition CliStepPreCheck : string := "precheck".
Definition CliStepInitStruct : string := "init-struct".
Definition CliStepInitData : string := "init-data".
Definition CliStepCdc : string := "cdc".

Definition CliString (s : string) : string :=
  if String.eqb s StepPreCheck then CliStepPreCheck
  else if String.eqb s StepStructPreFullLoad then CliStepInitStruct
  else if String.eqb s StepFullLoad then CliStepInitData
  else if String.eqb s StepCdc then CliStepCdc
  else "unknown".

End migrationapi.

(** * The configuration-line scanner *)

Module unstructured.

(** A [rune] is an [int32]; the scanner only compares runes. *)
Definition rune := Z.

(** [s[n:]] for [n] no larger than [len(s)]. *)
Fixpoint slice_from (s : string) (n : nat) {struct n} : string :=
  match n, s with
  | O, _ => s
  | S n, String _ s => slice_from s n
  | S _, EmptyString => EmptyString
  end.

(** The scanner's state.  [param] is the list of the tokens handed to
    [item.addToken] so far, in order, each as the runes [string(f.token)]
    encodes ([item] is declared outside the sources at hand); the field
    [splitCharacters] is not read by the scanner and is left out.
    Positions are never negative: [peek] takes back exactly the width
    [next] has just added. *)
Record fsm := {
  param : list (list rune);
  input : string;
  currentPos : nat;
  lastScanWith : nat;
  err : option string;
  token : list rune;
}.

Definition set_param (v : list (list rune)) (f : fsm) : fsm :=
  {| param := v; input := input f; currentPos := currentPos f;
     lastScanWith := lastScanWith f; err := err f; token := token f |}.
Definition set_input (v : string) (f : fsm) : fsm :=
  {| param := param f; input := v; currentPos := currentPos f;
     lastScanWith := lastScanWith f; err := err f; token := token f |}.
Definition set_currentPos (v : nat) (f : fsm) : fsm :=
  {| param := param f; input := input f; currentPos := v;
     lastScanWith := lastScanWith f; err := err f; token := token f |}.
Definition set_lastScanWith (v : nat) (f : fsm) : fsm :=
  {| param := param f; input := input f; currentPos := currentPos f;
     lastScanWith := v; err := err f; token := token f |}.
Definition set_err (v : option string) (f : fsm) : fsm :=
  {| param := param f; input := input f; currentPos := currentPos f;
     lastScanWith := lastScanWith f; err := v; token := token f |}.
Definition set_token (v : list rune) (f : fsm) : fsm :=
  {| param := param f; input := input f; currentPos := currentPos f;
     lastScanWith := lastScanWith f; err := err f; token := v |}.

(** [stateHandleFn]: the state functions of the file, by name; nil is
    [None]. *)
Inductive stateHandleFn :=
| PrepareScan
| StateEOF
| StateTokenEnd
| StateTrimSplitCharacters
| StateQuotesString
| StateSQuotesString.

Section Scanner.
(** The constants and the classes of runes are declared outside the
    sources at hand, as is [utf8.DecodeRuneInString] (a rune and its
    width in bytes). *)
Context (eof singleQuotes : rune).
Context (isEOF isSplitCharacter isQuotes isSingleQuotes isEscape : rune -> bool).
Context (DecodeRuneInString : string -> rune * nat).

Definition empty (f : fsm) : bool := (String.length (input f) <=? currentPos f)%nat.

Definition next (f : fsm) : rune * fsm :=
  if empty f then (eof, set_lastScanWith 0 f)
  else
    let '(r, w) := DecodeRuneInString (slice_from (input f) (currentPos f)) in
    let f := set_lastScanWith w f in
    (r, set_currentPos (currentPos f + lastScanWith f) f).

Definition appendRune (r : rune) (f : fsm) : fsm := set_token (token f ++ [r])%list f.

Definition peek (f : fsm) : rune * fsm :=
  let '(r, f) := next f in
  (r, set_currentPos (currentPos f - lastScanWith f) f).

Definition prepareScan (f : fsm) : option stateHandleFn * fsm :=
  let '(r, f) := next f in
  if isEOF r then (Some StateEOF, f)
  else if isSplitCharacter r then (Some StateTokenEnd, f)
  else if isQuotes r then (Some StateQuotesString, f)
  else if isSingleQuotes r then (Some StateSQuotesString, f)
  else (Some PrepareScan, appendRune r f).

(** The formats used have no verb, so the error text is the format. *)
Definition stateFailed (f : fsm) (format : string) : option stateHandleFn * fsm :=
  (None, set_err (Some format) f).

Definition stateTokenEnd (f : fsm) : option stateHandleFn * fsm :=
  let f := set_param (param f ++ [token f])%list f in
  (Some StateTrimSplitCharacters, set_token [] f).

Definition stateEOF (f : fsm) : option stateHandleFn * fsm :=
  if (0 <? length (token f))%nat then (None, (stateTokenEnd f).2) else (None, f).

(** The loop of [stateTrimSplitCharacters], [r] being the rune last
    peeked; [None] when [fuel] iterations were not enough. *)
Fixpoint trim_loop (fuel : nat) (r : rune) (f : fsm) : option fsm :=
  if negb (isEOF r) && isSplitCharacter r then
    match fuel with
    | O => None
    | S fuel =>
        let '(_, f) := next f in
        let '(r, f) := peek f in
        trim_loop fuel r f
    end
  else Some f.

Definition stateTrimSplitCharacters (fuel : nat) (f : fsm)
    : option (option stateHandleFn * fsm) :=
  let '(r, f) := peek f in
  match trim_loop fuel r f with
  | Some f => Some (Some PrepareScan, f)
  | None => None
  end.

Definition stateEscape (f : fsm) : fsm :=
  let '(r, f) := next f in
  if isEOF r then f
  else if (r =? 110)%Z then appendRune 10%Z f        (* 'n' *)
  else if (r =? 114)%Z then appendRune 13%Z f        (* 'r' *)
  else if (r =? 116)%Z then appendRune 9%Z f         (* 't' *)
  else if (r =? 98)%Z then appendRune 8%Z f          (* 'b' *)
  else if (r =? 97)%Z then appendRune 7%Z f          (* 'a' *)
  else appendRune r f.

Definition stateQuotesString (f : fsm) : option stateHandleFn * fsm :=
  let '(r, f) := next f in
  if isEOF r then stateFailed f "unterminated quotes."
  else if isQuotes r then
    let '(n, f) := peek f in
    if negb (isEOF n) && negb (isSplitCharacter n)
    then stateFailed f "closing quote must be followed by a space or end."
    else (Some StateTokenEnd, f)
  else if isEscape r then
    let '(n, f) := peek f in
    if isEOF n then stateFailed f "unterminated quotes."
    else (Some StateQuotesString, stateEscape f)
  else (Some StateQuotesString, appendRune r f).

Definition stateSQuotesString (f : fsm) : option stateHandleFn * fsm :=
  let '(r, f) := next f in
  if isEOF r then stateFailed f "unterminated single quotes."
  else if isSingleQuotes r then
    let '(n, f) := peek f in
    if negb (isEOF n) && negb (isSplitCharacter n)
    then stateFailed f "closing quote must be followed by a space or end."
    else (Some StateTokenEnd, f)
  else if isEscape r then
    let '(n, f) := peek f in
    if isSingleQuotes n
    then (Some StateSQuotesString, (next (appendRune singleQuotes f)).2)
    else (Some StateSQuotesString, f)
  else (Some StateSQuotesString, appendRune r f).

(** [handle(f)]. *)
Definition call (fuel : nat) (handle : stateHandleFn) (f : fsm)
    : option (option stateHandleFn * fsm) :=
  match handle with
  | PrepareScan => Some (prepareScan f)
  | StateEOF => Some (stateEOF f)
  | StateTokenEnd => Some (stateTokenEnd f)
  | StateTrimSplitCharacters => stateTrimSplitCharacters fuel f
  | StateQuotesString => Some (stateQuotesString f)
  | StateSQuotesString => Some (stateSQuotesString f)
  end.

(** [for ...; handle != nil; { handle = handle(f) }]: [None] when [fuel]
    rounds were not enough. *)
Fixpoint scan (fuel : nat) (handle : option stateHandleFn) (f : fsm) : option fsm :=
  match handle with
  | None => Some f
  | Some handle =>
      match fuel with
      | O => None
      | S fuel =>
          match call fuel handle f with
          | Some (handle, f) => scan fuel handle f
          | None => None
          end
      end
  end.

(** [Parse] returns [f.err]; the scanner it leaves behind is returned
    with it. *)
Definition Parse (fuel : nat) (f : fsm) (line : string) : option (option string * fsm) :=
  let f := set_input line f in
  let '(handle, f) := prepareScan f in
  match scan fuel handle f with
  | Some f => Some (err f, f)
  | None => None
  end.

(** The runes of a string, as [next] reads them one after the other. *)
Fixpoint runes (n : nat) (s : string) : list rune :=
  match n, s with
  | O, _ | _, EmptyString => []
  | S n, _ =>
      let '(r, w) := DecodeRuneInString s in
      r :: runes n (slice_from s w)
  end.

End Scanner.

(** A scanner that has read nothing yet: every field at its zero value,
    no token handed over. *)
Definition fresh : fsm :=
  {| param := []; input := EmptyString; currentPos := 0; lastScanWith := 0;
     err := None; token := [] |}.

End unstructured.

(** Notions used to state what the scanner does. *)
Module scanning.
Import unstructured.

(** Bytes of the line not yet read. *)
Definition remaining (f : fsm) : nat := String.length (input f) - currentPos f.

(** The scanner after reading a rune of width [w]. *)
Definition advanced (w : nat) (f : fsm) : fsm :=
  set_currentPos (currentPos f + w) (set_lastScanWith w f).

(** The three errors the scanner can raise. *)
Definition raised : list string :=
  [ "unterminated quotes.";
    "unterminated single quotes.";
    "closing quote must be followed by a space or end." ].

(** [f'] continues [f]: same line, position not before, the tokens of
    [f] followed by further ones, and the error of [f] or a raised
    one. *)
Definition continues (f f' : fsm) : Prop :=
  input f' = input f
  /\ (currentPos f <= currentPos f')%nat
  /\ (exists added : list (list rune), param f' = (param f ++ added)%list)
  /\ (err f' = err f \/ exists msg : string, err f' = Some msg /\ msg ∈ raised).

(** How many calls without reading can follow a state. *)
Definition rank (handle : stateHandleFn) : nat :=
  match handle with
  | StateEOF => 0
  | PrepareScan | StateQuotesString | StateSQuotesString => 1
  | StateTrimSplitCharacters => 2
  | StateTokenEnd => 3
  end.

(** Rounds of the loop of [Parse] that are enough from a state. *)
Definition rounds (handle : option stateHandleFn) (f : fsm) : nat :=
  match handle with
  | Some handle => 3 * remaining f + rank handle + 1
  | None => 0
  end.

(** A rune that starts or continues a bare word. *)
Definition plain (isEOF isSplitCharacter isQuotes isSingleQuotes : rune -> bool)
    (r : rune) : bool :=
  negb (isEOF r) && negb (isSplitCharacter r) && negb (isQuotes r)
  && negb (isSingleQuotes r).

(** Bytes as runes: [utf8.DecodeRuneInString] on a string that starts
    with an ASCII byte. *)
Definition decode_ascii (s : string) : rune * nat :=
  match s with
  | EmptyString => (65533%Z, 0%nat)
  | String c _ => (Z.of_N (N_of_ascii c), 1%nat)
  end.

(** A sample choice of the parts declared elsewhere, in the style of a
    Redis configuration line: blank and tab split, a backslash escapes,
    the end marker is no rune. *)
Definition sample_eof : rune := (-1)%Z.
Definition sample_singleQuotes : rune := 39%Z.
Definition sample_isEOF (r : rune) : bool := (r =? sample_eof)%Z.
Definition sample_isSplitCharacter (r : rune) : bool := (r =? 32)%Z || (r =? 9)%Z.
Definition sample_isQuotes (r : rune) : bool := (r =? 34)%Z.
Definition sample_isSingleQuotes (r : rune) : bool := (r =? sample_singleQuotes)%Z.
Definition sample_isEscape (r : rune) : bool := (r =? 92)%Z.

Definition sample_Parse : nat -> fsm -> string -> option (option string * fsm) :=
  Parse sample_eof sample_singleQuotes sample_isEOF sample_isSplitCharacter
    sample_isQuotes sample_isSingleQuotes sample_isEscape decode_ascii.

(** The line [QUOTE a b]: an opening quote that is never closed. *)
Definition open_quote_line : string := String (ascii_of_nat 34) "a b".

End scanning.

(** * Properties *)

(** The last element of a non-empty list exists. *)
Ltac last_of_cons x rest :=
  let z := fresh "z" in
  let Hz := fresh "Hz" in
  destruct (last (x :: rest)) as [z|] eqn:Hz;
  [| rewrite last_cons in Hz; destruct (last rest); discriminate].

(** ** Go strings *)

Lemma prefix_empty (s : string) : String.prefix EmptyString s = true.
Proof. destruct s; reflexivity. Qed.

Lemma prefix_one_byte (c a : ascii) (t : string) :
  String.prefix (String c EmptyString) (String a t) = Ascii.eqb a c.
Proof.
  simpl. destruct (ascii_dec c a) as [->|Hne].
  - rewrite prefix_empty, Ascii.eqb_refl. reflexivity.
  - symmetry. apply Ascii.eqb_neq. congruence.
Qed.

Lemma Split_nonempty (sep : string) (skip : nat) (s : string) :
  strings.genSplit sep skip s <> [].
Proof.
  revert skip. induction s as [|a t IH]; intros skip; cbn [strings.genSplit]; [done|].
  destruct skip as [|k]; [|apply IH].
  destruct (String.prefix sep (String a t)); [done|].
  destruct (strings.genSplit sep 0 t); done.
Qed.

Lemma Split_one_byte (c : ascii) (s : string) :
  strings.Split s (String c EmptyString) = membership.pieces c s.
Proof.
  unfold strings.Split. induction s as [|a t IH]; [reflexivity|].
  cbn [strings.genSplit membership.pieces].
  rewrite prefix_one_byte. cbn [String.length Nat.sub].
  rewrite IH. reflexivity.
Qed.

Lemma elem0_pieces (c : ascii) (s : string) :
  strings.elem0 (membership.pieces c s) = membership.before c s.
Proof.
  induction s as [|a t IH]; [reflexivity|]. simpl.
  destruct (Ascii.eqb a c); [reflexivity|].
  destruct (membership.pieces c t) as [|piece rest] eqn:E; simpl in *.
  - destruct t; simpl in E; [discriminate|].
    destruct (Ascii.eqb _ c); [discriminate|].
    destruct (membership.pieces c t); discriminate.
  - congruence.
Qed.

Lemma Contains_one_byte (c : ascii) (s : string) :
  strings.Contains s (String c EmptyString) = membership.has_byte c s.
Proof.
  induction s as [|a t IH]; [reflexivity|].
  cbn [strings.Contains membership.has_byte].
  rewrite prefix_one_byte, IH. destruct (Ascii.eqb a c); reflexivity.
Qed.

Lemma GetMemberAddrs_range_spec (tokens addrs : list string) :
  wesql.GetMemberAddrs_range tokens addrs
  = (addrs ++ map (membership.before "#")
                (filter (fun tok => membership.has_byte ":" tok = true) tokens))%list.
Proof.
  revert addrs. induction tokens as [|tok rest IH]; intros addrs; simpl.
  - rewrite app_nil_r. reflexivity.
  - rewrite Contains_one_byte.
    destruct (membership.has_byte ":" tok) eqn:E; simpl.
    + rewrite IH, filter_cons_True by exact E.
      rewrite Split_one_byte, elem0_pieces, <- app_assoc. reflexivity.
    + rewrite IH, filter_cons_False by congruence. reflexivity.
Qed.

(** ** The manager's computations *)

Lemma GetMemberAddrs_of_info {St} (mgr : wesql.Manager St) (cluster : dcs.ClusterRef) (s : St) :
  wesql.GetMemberAddrs mgr cluster s
  = (membership.member_addrs (wesql.result (wesql.GetClusterInfo mgr cluster s)),
     wesql.final (wesql.GetClusterInfo mgr cluster s),
     wesql.trace (wesql.GetClusterInfo mgr cluster s)).
Proof.
  unfold wesql.GetMemberAddrs, wesql.bind, wesql.ret, membership.member_addrs.
  destruct (wesql.GetClusterInfo mgr cluster s) as [[info s'] t]. simpl.
  rewrite GetMemberAddrs_range_spec, !Split_one_byte, elem0_pieces, app_nil_r.
  reflexivity.
Qed.

Lemma GetClusterInfo_frame {St} (mgr : wesql.Manager St) (cluster : dcs.ClusterRef) (s : St) :
  wesql.final (wesql.GetClusterInfo mgr cluster s) = s
  /\ filter (fun e => wesql.is_admin_command e = true)
       (wesql.trace (wesql.GetClusterInfo mgr cluster s)) = [].
Proof.
  unfold wesql.GetClusterInfo, wesql.bind, wesql.ask, wesql.ret, wesql.final, wesql.trace.
  destruct cluster; simpl.
  - destruct (wesql.GetLeaderConn mgr _ s); simpl; [done|].
    destruct (wesql.query_consensus_info mgr _ s) as [[err|] [clusterID clusterInfo]]; done.
  - destruct (wesql.query_consensus_info mgr _ s) as [[err|] [clusterID clusterInfo]]; done.
Qed.

Lemma GetAddrWithMemberName_frame {St} (mgr : wesql.Manager St) (cluster : dcs.ClusterRef)
    (memberName : string) (s : St) :
  wesql.final (wesql.GetAddrWithMemberName mgr cluster memberName s) = s
  /\ filter (fun e => wesql.is_admin_command e = true)
       (wesql.trace (wesql.GetAddrWithMemberName mgr cluster memberName s)) = [].
Proof.
  unfold wesql.GetAddrWithMemberName, wesql.bind, wesql.ret.
  rewrite GetMemberAddrs_of_info.
  destruct (GetClusterInfo_frame mgr cluster s) as [Hs Ht].
  unfold wesql.final, wesql.trace in *. simpl. rewrite app_nil_r. done.
Qed.

(** ** Claims about the engine manager *)

(** C7: [GetMemberAddrs] returns the consensus-membership string read by
    [GetClusterInfo] truncated at its first [@], split on [;], without the
    tokens that lack a [:], each kept token cut at its first [#]; it has no
    error result.  The membership string
    [10.0.0.1:13306#1;10.0.0.2:13306#1@1000] yields the two addresses
    [10.0.0.1:13306] and [10.0.0.2:13306], in that order. *)
Theorem GetMemberAddrs_parses_membership :
  forall (St : Type) (mgr : wesql.Manager St) (cluster : dcs.ClusterRef) (s : St),
    wesql.result (wesql.GetMemberAddrs mgr cluster s)
    = membership.member_addrs (wesql.result (wesql.GetClusterInfo mgr cluster s))
    /\ membership.member_addrs "10.0.0.1:13306#1;10.0.0.2:13306#1@1000"
       = ["10.0.0.1:13306"; "10.0.0.2:13306"]
    /\ (wesql.result (wesql.GetClusterInfo mgr cluster s)
        = "10.0.0.1:13306#1;10.0.0.2:13306#1@1000" ->
        wesql.result (wesql.GetMemberAddrs mgr cluster s)
        = ["10.0.0.1:13306"; "10.0.0.2:13306"]).
Proof.
  intros St mgr cluster s.
  assert (Hrun : wesql.result (wesql.GetMemberAddrs mgr cluster s)
                 = membership.member_addrs
                     (wesql.result (wesql.GetClusterInfo mgr cluster s))).
  { rewrite GetMemberAddrs_of_info. reflexivity. }
  split; [exact Hrun|]. split; [reflexivity|].
  intros Hinfo. rewrite Hrun, Hinfo. reflexivity.
Qed.

(** C9: [IsLeaderMember] never returns an error; it returns false when the
    snapshot has no leader or the member argument is nil; otherwise it
    returns true exactly when the member's name is the snapshot leader's
    name. *)
Theorem IsLeaderMember_snapshot_comparison :
  forall (cluster : dcs.Cluster) (member : option dcs.Member),
    (wesql.IsLeaderMember cluster member).2 = None
    /\ (dcs.Leader_ cluster = None \/ member = None ->
        (wesql.IsLeaderMember cluster member).1 = false)
    /\ (forall (m : dcs.Member) (l : dcs.Leader),
          member = Some m -> dcs.Leader_ cluster = Some l ->
          ((wesql.IsLeaderMember cluster member).1 = true
           <-> dcs.Name m = dcs.Name (dcs.LeaderMember l))).
Proof.
  intros cluster member. unfold wesql.IsLeaderMember, wesql.GetLeaderMember.
  split; [|split].
  - destruct member as [m|]; [|reflexivity].
    destruct (dcs.Leader_ cluster) as [l|]; [|reflexivity].
    destruct (negb _); reflexivity.
  - intros [Hl | Hm].
    + rewrite Hl. destruct member; reflexivity.
    + rewrite Hm. reflexivity.
  - intros m l -> ->.
    destruct (String.eqb_spec (dcs.Name (dcs.LeaderMember l)) (dcs.Name m)) as [Heq|Hne];
      simpl; split; congruence.
Qed.

(** What [GetClusterInfo] returns on the local connection: the second
    destination of [Scan], whether [Scan] failed or not. *)
Lemma GetClusterInfo_local {St} (mgr : wesql.Manager St) (s : St) :
  wesql.result (wesql.GetClusterInfo mgr None s)
  = (wesql.query_consensus_info mgr (wesql.mgrDB mgr) s).2.2.
Proof.
  unfold wesql.GetClusterInfo, wesql.bind, wesql.ask, wesql.ret, wesql.result.
  destruct (wesql.query_consensus_info mgr _ s) as [[err|] [clusterID clusterInfo]];
    reflexivity.
Qed.

(** C10: the error returned by [IsClusterInitialized] is nil on every
    path, also when the cluster-info query on the local connection fails.
    The boolean is true exactly when the [clusterInfo] destination is not
    empty after [Scan], failed or not: a failing query that left the
    destination empty gives [(false, nil)]. *)
Theorem IsClusterInitialized_error_is_nil :
  forall (St : Type) (mgr : wesql.Manager St) (cluster : dcs.ClusterRef) (s : St),
    (wesql.result (wesql.IsClusterInitialized mgr cluster s)).2 = None
    /\ ((wesql.result (wesql.IsClusterInitialized mgr cluster s)).1 = true
        <-> (wesql.query_consensus_info mgr (wesql.mgrDB mgr) s).2.2 <> EmptyString)
    /\ (forall (err : GoRuntime.error) (clusterID : string),
          wesql.query_consensus_info mgr (wesql.mgrDB mgr) s
          = (Some err, (clusterID, EmptyString)) ->
          wesql.result (wesql.IsClusterInitialized mgr cluster s) = (false, None))
    /\ ((wesql.result (wesql.IsClusterInitialized mgr cluster s)).1 = true
        <-> wesql.result (wesql.GetClusterInfo mgr None s) <> EmptyString).
Proof.
  intros St mgr cluster s.
  assert (Hrun : wesql.result (wesql.IsClusterInitialized mgr cluster s)
                 = (negb (String.eqb (wesql.result (wesql.GetClusterInfo mgr None s))
                            EmptyString), None)).
  { unfold wesql.IsClusterInitialized, wesql.bind, wesql.ret, wesql.result.
    destruct (wesql.GetClusterInfo mgr None s) as [[info s'] t]. simpl.
    destruct (negb _); reflexivity. }
  rewrite Hrun, GetClusterInfo_local. cbn [fst snd].
  assert (Hbool : forall info : string,
             negb (String.eqb info EmptyString) = true <-> info <> EmptyString).
  { intros info. destruct (String.eqb_spec info EmptyString); simpl; split; congruence. }
  repeat apply conj; try apply Hbool; try reflexivity.
  intros err clusterID ->. reflexivity.
Qed.

(** C10, the failing query that does not give [(false, nil)]: [Scan]
    has stored the membership string and returns the error of closing
    the rows; [IsClusterInitialized] answers [(true, nil)]. *)
Lemma IsClusterInitialized_true_after_failed_query :
  wesql.query_consensus_info (scenario.closing_manager "pod-0")
    (wesql.mgrDB (scenario.closing_manager "pod-0"))
    (scenario.engine scenario.two_members "Follower" [])
  = (Some scenario.close_error, ("1", scenario.two_members))
  /\ wesql.result
       (wesql.IsClusterInitialized (scenario.closing_manager "pod-0") None
          (scenario.engine scenario.two_members "Follower" []))
     = (true, None).
Proof. split; reflexivity. Qed.

(** C6: when the node's own role query reports the leader role, [Promote]
    returns nil, leaves the engine as it was, and the role query is the
    only thing it issued: no leader connection was resolved, no
    membership was read, no statement was executed. *)
Theorem Promote_noop_when_leader :
  forall (St : Type) (mgr : wesql.Manager St) (cluster : dcs.ClusterRef) (s : St),
    (wesql.result (wesql.IsLeader mgr None s)).1 = true ->
    wesql.Promote mgr cluster s = (None, s, [wesql.EvGetReplicaRole]).
Proof.
  intros St mgr cluster s.
  unfold wesql.Promote, wesql.IsLeader, wesql.bind, wesql.ask, wesql.ret, wesql.result.
  destruct (wesql.GetReplicaRole mgr None s) as [err|role]; simpl; [discriminate|].
  destruct (strings.EqualFold role wesql.Leader); simpl; [reflexivity | discriminate].
Qed.

(** The role query answers [LEADER] (any letter case counts): [Promote]
    does nothing. *)
Lemma Promote_noop_when_leader_witness :
  (wesql.result (wesql.IsLeader (scenario.sim_manager "pod-0") None
                   (scenario.engine scenario.two_members "LEADER" []))).1 = true
  /\ wesql.Promote (scenario.sim_manager "pod-0")
       (Some (scenario.led_by scenario.pod1 [scenario.pod0; scenario.pod1]))
       (scenario.engine scenario.two_members "LEADER" [])
     = (None, scenario.engine scenario.two_members "LEADER" [], [wesql.EvGetReplicaRole]).
Proof.
  split; [reflexivity|].
  apply (Promote_noop_when_leader scenario.Sim (scenario.sim_manager "pod-0")).
  reflexivity.
Defined.

Lemma GetAddrWithMemberName_range_none (addrs : list string) (memberName : string) :
  Forall (fun addr => strings.HasPrefix addr memberName = false) addrs ->
  wesql.GetAddrWithMemberName_range addrs memberName = EmptyString.
Proof.
  induction 1 as [|addr rest Haddr _ IH]; [reflexivity|].
  simpl. rewrite Haddr. exact IH.
Qed.

(** X3: [GetAddrWithMemberName] returns the empty string when no address of
    [GetMemberAddrs] starts with the member name. *)
Theorem GetAddrWithMemberName_without_match :
  forall (St : Type) (mgr : wesql.Manager St) (cluster : dcs.ClusterRef)
         (memberName : string) (s : St),
    Forall (fun addr => strings.HasPrefix addr memberName = false)
           (wesql.result (wesql.GetMemberAddrs mgr cluster s)) ->
    wesql.result (wesql.GetAddrWithMemberName mgr cluster memberName s) = EmptyString.
Proof.
  intros St mgr cluster memberName s Hnone.
  unfold wesql.GetAddrWithMemberName, wesql.bind, wesql.ret.
  destruct (wesql.GetMemberAddrs mgr cluster s) as [[addrs s'] t].
  unfold wesql.result in *. simpl in *.
  apply GetAddrWithMemberName_range_none. exact Hnone.
Qed.

(** Neither address of the sample membership string starts with [pod-2]. *)
Lemma GetAddrWithMemberName_without_match_witness :
  wesql.result
    (wesql.GetAddrWithMemberName (scenario.sim_manager "pod-0")
       (Some (scenario.led_by scenario.pod0 [scenario.pod0; scenario.pod1])) "pod-2"
       (scenario.engine scenario.two_members "Leader" [])) = EmptyString.
Proof.
  apply (GetAddrWithMemberName_without_match scenario.Sim (scenario.sim_manager "pod-0")).
  vm_compute. repeat constructor.
Defined.

(** The correlation is by string prefix: asked for [pod-1], the first
    address that starts with these bytes wins, here the one of
    [pod-10]. *)
Example GetAddrWithMemberName_prefix_match :
  wesql.GetAddrWithMemberName_range ["pod-10.hl:13306"; "pod-1.hl:13306"] "pod-1"
  = "pod-10.hl:13306".
Proof. reflexivity. Qed.

(** C5, as the code has it: once the leader connection has resolved, a
    member whose address does not resolve ([GetAddrWithMemberName] returns
    the empty string) is taken as already removed: [LeaveMemberFromCluster]
    returns nil, executes no statement and leaves the engine as it was, so
    a second call right after the first returns nil as well. *)
Theorem LeaveMemberFromCluster_absent_member :
  forall (St : Type) (mgr : wesql.Manager St) (cluster : dcs.ClusterRef)
         (memberName : string) (s : St) (db : wesql.DB),
    wesql.GetLeaderConn mgr cluster s = inr db ->
    wesql.result (wesql.GetAddrWithMemberName mgr cluster memberName s) = EmptyString ->
    let first := wesql.LeaveMemberFromCluster mgr cluster memberName s in
    wesql.result first = None
    /\ filter (fun e => wesql.is_admin_command e = true) (wesql.trace first) = []
    /\ wesql.final first = s
    /\ wesql.result (wesql.LeaveMemberFromCluster mgr cluster memberName (wesql.final first))
       = None.
Proof.
  intros St mgr cluster memberName s db Hconn Haddr.
  destruct (GetAddrWithMemberName_frame mgr cluster memberName s) as [Hs Ht].
  assert (Hrun : wesql.LeaveMemberFromCluster mgr cluster memberName s
                 = (None, s,
                    wesql.EvGetLeaderConn
                    :: wesql.trace (wesql.GetAddrWithMemberName mgr cluster memberName s))).
  { unfold wesql.LeaveMemberFromCluster, wesql.bind, wesql.ask, wesql.ret.
    rewrite Hconn.
    destruct (wesql.GetAddrWithMemberName mgr cluster memberName s) as [[addr s'] t].
    unfold wesql.result, wesql.final, wesql.trace in *. simpl in *. subst addr s'.
    simpl. rewrite app_nil_r. reflexivity. }
  cbv zeta. rewrite Hrun. unfold wesql.result, wesql.final, wesql.trace. simpl.
  repeat split.
  - rewrite filter_cons_False by (simpl; congruence). exact Ht.
  - rewrite Hrun. reflexivity.
Qed.

(** A snapshot led by [pod-0]; no address of the membership string starts
    with [pod-2]. *)
Lemma LeaveMemberFromCluster_absent_member_witness :
  let mgr := scenario.sim_manager "pod-0" in
  let cluster := Some (scenario.led_by scenario.pod0 [scenario.pod0; scenario.pod1]) in
  let s := scenario.engine scenario.two_members "Leader" [] in
  wesql.GetLeaderConn mgr cluster s = inr 1%nat
  /\ wesql.result (wesql.GetAddrWithMemberName mgr cluster "pod-2" s) = EmptyString
  /\ wesql.result (wesql.LeaveMemberFromCluster mgr cluster "pod-2" s) = None
  /\ filter (fun e => wesql.is_admin_command e = true)
       (wesql.trace (wesql.LeaveMemberFromCluster mgr cluster "pod-2" s)) = []
  /\ wesql.final (wesql.LeaveMemberFromCluster mgr cluster "pod-2" s) = s
  /\ wesql.result
       (wesql.LeaveMemberFromCluster mgr cluster "pod-2"
          (wesql.final (wesql.LeaveMemberFromCluster mgr cluster "pod-2" s))) = None.
Proof.
  cbv zeta. split; [reflexivity|]. split; [reflexivity|].
  apply (LeaveMemberFromCluster_absent_member scenario.Sim (scenario.sim_manager "pod-0")
           (Some (scenario.led_by scenario.pod0 [scenario.pod0; scenario.pod1])) "pod-2"
           (scenario.engine scenario.two_members "Leader" []) 1%nat);
    reflexivity.
Defined.

(** C5 as stated fails: for a snapshot without a leader the member's
    address does not resolve ([GetAddrWithMemberName] returns the empty
    string), yet [LeaveMemberFromCluster] returns the error of the leader
    connection. *)
Lemma LeaveMemberFromCluster_fails_without_leader :
  wesql.result
    (wesql.GetAddrWithMemberName (scenario.sim_manager "pod-0")
       (Some (scenario.leaderless [scenario.pod0; scenario.pod1])) "pod-2"
       (scenario.engine scenario.two_members "Follower" [])) = EmptyString
  /\ wesql.result
       (wesql.LeaveMemberFromCluster (scenario.sim_manager "pod-0")
          (Some (scenario.leaderless [scenario.pod0; scenario.pod1])) "pod-2"
          (scenario.engine scenario.two_members "Follower" []))
     = Some scenario.no_leader_error.
Proof. split; reflexivity. Qed.

Lemma reports_leader_size (rMap : gmap string mysql.CellData) :
  status.reports_leader rMap = true -> (0 < size rMap)%nat.
Proof.
  unfold status.reports_leader, mysql.GetString. intros H.
  destruct (rMap !! wesql.Role) as [cell|] eqn:E; [|discriminate H].
  assert (size rMap <> 0%nat); [|lia].
  intros Hz. apply map_size_empty_iff in Hz. subst rMap.
  rewrite lookup_empty in E. discriminate E.
Qed.

Lemma scan_rows_keeps_last_leader (rows : list (gmap string mysql.CellData))
    (acc : gmap string mysql.CellData) :
  mysql.scan_rows rows
    (fun rMap leaderRecord =>
       if String.eqb (mysql.GetString rMap wesql.Role) wesql.Leader
       then (None, rMap) else (None, leaderRecord)) acc
  = (None, default acc (last (status.leader_rows rows))).
Proof.
  revert acc. induction rows as [|rMap rest IH]; intros acc; [reflexivity|].
  cbn [mysql.scan_rows]. unfold status.leader_rows.
  destruct (String.eqb (mysql.GetString rMap wesql.Role) wesql.Leader) eqn:E.
  - rewrite IH, filter_cons_True by exact E. rewrite last_cons.
    unfold status.leader_rows. destruct (last _); reflexivity.
  - rewrite IH, filter_cons_False; [reflexivity|].
    unfold status.reports_leader. rewrite E. discriminate.
Qed.

Lemma last_leader_row_size (rows : list (gmap string mysql.CellData)) :
  (0 <? size (default (∅ : gmap string mysql.CellData) (last (status.leader_rows rows))))%nat
  = (0 <? length (status.leader_rows rows))%nat.
Proof.
  destruct (last (status.leader_rows rows)) as [rMap|] eqn:E; simpl.
  - assert (Hin : rMap ∈ status.leader_rows rows).
    { apply last_Some in E as [l' ->]. set_solver. }
    pose proof Hin as Hlen.
    apply list_elem_of_filter in Hin as [Hrep _].
    apply reports_leader_size in Hrep.
    destruct (status.leader_rows rows); [inversion Hlen|].
    simpl. apply Nat.ltb_lt in Hrep. rewrite Hrep. reflexivity.
  - apply last_None in E. rewrite E. reflexivity.
Qed.

(** C2, as the code has it: [IsClusterHealthy] returns true exactly when
    the leader connection resolves, the global-status query succeeds and
    AT LEAST one of its rows reports the leader role; when resolving the
    connection or running the query fails it returns false.  Its result
    is a boolean: no error is propagated. *)
Theorem IsClusterHealthy_iff_some_leader_row :
  forall (St : Type) (mgr : wesql.Manager St) (cluster : dcs.ClusterRef) (s : St),
    (wesql.result (wesql.IsClusterHealthy mgr cluster s) = true
     <-> exists (db : wesql.DB) (rows : list (gmap string mysql.CellData)),
           wesql.GetLeaderConn mgr cluster s = inr db
           /\ wesql.query_cluster_global mgr db s = inr rows
           /\ (1 <= length (status.leader_rows rows))%nat)
    /\ (forall err : GoRuntime.error,
          wesql.GetLeaderConn mgr cluster s = inl err ->
          wesql.result (wesql.IsClusterHealthy mgr cluster s) = false)
    /\ (forall (db : wesql.DB) (err : GoRuntime.error),
          wesql.GetLeaderConn mgr cluster s = inr db ->
          wesql.query_cluster_global mgr db s = inl err ->
          wesql.result (wesql.IsClusterHealthy mgr cluster s) = false).
Proof.
  intros St mgr cluster s.
  unfold wesql.IsClusterHealthy, wesql.bind, wesql.ask, wesql.ret, wesql.result.
  destruct (wesql.GetLeaderConn mgr cluster s) as [err|db]; simpl.
  - split; [|split; [reflexivity | intros ? ? [=]]].
    split; [discriminate | intros (? & ? & [=] & _)].
  - destruct (wesql.query_cluster_global mgr db s) as [err|rows] eqn:Hq; simpl.
    + split; [|split; [intros ? [=] | reflexivity]].
      split; [discriminate | intros (db' & rows & [= <-] & Hq' & _); congruence].
    + rewrite scan_rows_keeps_last_leader.
      pose proof (last_leader_row_size rows) as Hsize.
      destruct (0 <? size _)%nat; simpl;
        (split; [|split; [intros ? [=] | intros db' ? [= <-]; congruence]]).
      * split; [|reflexivity]. intros _. exists db, rows.
        symmetry in Hsize. apply Nat.ltb_lt in Hsize. repeat split; [exact Hq | lia].
      * split; [discriminate|]. intros (db' & rows' & [= <-] & Hq' & Hlen).
        assert (rows' = rows) as -> by congruence.
        symmetry in Hsize. apply Nat.ltb_ge in Hsize. lia.
Qed.

(** C2 as stated fails: with two rows reporting the leader role (not
    exactly one) [IsClusterHealthy] returns true. *)
Lemma IsClusterHealthy_with_two_leader_rows :
  wesql.result
    (wesql.IsClusterHealthy (scenario.sim_manager "pod-0")
       (Some (scenario.led_by scenario.pod0 [scenario.pod0; scenario.pod1]))
       (scenario.engine scenario.two_members "Follower"
          [scenario.row "Leader"; scenario.row "Follower"; scenario.row "Leader"])) = true
  /\ length (status.leader_rows
               [scenario.row "Leader"; scenario.row "Follower"; scenario.row "Leader"])
     = 2%nat.
Proof. split; vm_compute; reflexivity. Qed.

(** ** The candidate pool and the loop variable *)

Lemma result_bind_ask {St A B} (e : wesql.Event) (q : St -> A) (k : A -> wesql.M St B)
    (s : St) :
  wesql.result (wesql.bind (wesql.ask e q) k s) = wesql.result (k (q s) s).
Proof.
  unfold wesql.bind, wesql.ask, wesql.result.
  destruct (k (q s) s) as [[b s'] t]. reflexivity.
Qed.

Lemma final_bind_ask {St A B} (e : wesql.Event) (q : St -> A) (k : A -> wesql.M St B)
    (s : St) :
  wesql.final (wesql.bind (wesql.ask e q) k s) = wesql.final (k (q s) s).
Proof.
  unfold wesql.bind, wesql.ask, wesql.final.
  destruct (k (q s) s) as [[b s'] t]. reflexivity.
Qed.

(** With a fresh variable per iteration every kept pointer has a cell of
    its own, holding the member it was taken from. *)
Lemma range_fresh_variables {St} (mgr : wesql.Manager St) (cluster : dcs.Cluster)
    (leader : string) (rest : list dcs.Member) :
  forall (var : option GoRuntime.Ptr) (h : GoRuntime.Heap dcs.Member)
         (members : list GoRuntime.Ptr) (s : St),
    let r := wesql.HasOtherHealthyMembers_range mgr GoRuntime.PerIteration cluster leader
               rest var h members s in
    wesql.final r = s
    /\ (wesql.result r).2 = (h ++ rest)%list
    /\ exists ps : list GoRuntime.Ptr,
         (wesql.result r).1 = (members ++ ps)%list
         /\ omap (GoRuntime.load (h ++ rest)%list) ps
            = filter (fun m => roster.qualifies mgr cluster leader s m = true) rest.
Proof.
  induction rest as [|x rest IH]; intros var h members s.
  - cbn. split; [reflexivity|]. split; [by rewrite app_nil_r|].
    exists []. by rewrite app_nil_r.
  - cbn [wesql.HasOtherHealthyMembers_range GoRuntime.enter_iteration GoRuntime.alloc].
    assert (Hx : GoRuntime.load (h ++ x :: rest)%list (length h) = Some x).
    { unfold GoRuntime.load. apply list_lookup_middle. reflexivity. }
    assert (Happ : ((h ++ [x]) ++ rest = h ++ x :: rest)%list).
    { rewrite <- app_assoc. reflexivity. }
    unfold roster.qualifies at 1.
    destruct (String.eqb (dcs.Name x) leader) eqn:E.
    + destruct (IH (Some (length h)) (h ++ [x])%list members s) as (Hs & Hh & ps & Hps & Hl).
      cbv zeta. rewrite Happ in *. split; [exact Hs|]. split; [exact Hh|].
      exists ps. split; [exact Hps|].
      rewrite filter_cons_False; [exact Hl|]. unfold roster.qualifies. rewrite E. done.
    + cbv zeta. rewrite !result_bind_ask, final_bind_ask. cbv beta.
      destruct (wesql.IsMemberHealthy mgr (Some cluster) x s) eqn:Hhealthy; cbn [negb].
      * destruct (IH (Some (length h)) (h ++ [x])%list (members ++ [length h])%list s)
          as (Hs & Hh & ps & Hps & Hl).
        rewrite Happ in *. split; [exact Hs|]. split; [exact Hh|].
        exists (length h :: ps). split.
        { etrans; [exact Hps|]. rewrite <- app_assoc. reflexivity. }
        cbn [omap list_omap]. rewrite Hx, Hl.
        rewrite filter_cons_True; [reflexivity|].
        unfold roster.qualifies. rewrite E, Hhealthy. reflexivity.
      * destruct (IH (Some (length h)) (h ++ [x])%list members s) as (Hs & Hh & ps & Hps & Hl).
        rewrite Happ in *. split; [exact Hs|]. split; [exact Hh|].
        exists ps. split; [exact Hps|].
        rewrite filter_cons_False; [exact Hl|].
        unfold roster.qualifies. rewrite E, Hhealthy. done.
Qed.

(** X1: Under Go 1.22 loop variables the returned pointers lead to exactly the
    qualifying members of the roster, in roster order. *)
Theorem HasOtherHealthyMembers_per_iteration :
  forall (St : Type) (mgr : wesql.Manager St) (cluster : dcs.Cluster) (leader : string)
         (s : St),
    wesql.pointees
      (wesql.result (wesql.HasOtherHealthyMembers mgr GoRuntime.PerIteration cluster leader s))
    = roster.candidates mgr cluster leader s.
Proof.
  intros St mgr cluster leader s. unfold wesql.HasOtherHealthyMembers, wesql.pointees.
  destruct (range_fresh_variables mgr cluster leader (dcs.Members cluster) None [] 
              (GoRuntime.make 0%nat 0 0) s) as (_ & Hh & ps & Hps & Hl).
  rewrite Hh, Hps. exact Hl.
Qed.

(** With one variable per loop every kept pointer is the address [p] of
    that variable, which ends up holding the last member of the roster. *)
Lemma range_shared_variable {St} (mgr : wesql.Manager St) (cluster : dcs.Cluster)
    (leader : string) (rest : list dcs.Member) :
  forall (p : GoRuntime.Ptr) (h : GoRuntime.Heap dcs.Member)
         (members : list GoRuntime.Ptr) (s : St),
    (p < length h)%nat ->
    let r := wesql.HasOtherHealthyMembers_range mgr GoRuntime.PerLoop cluster leader
               rest (Some p) h members s in
    wesql.final r = s
    /\ (wesql.result r).1
       = (members
          ++ replicate
               (length (filter (fun m => roster.qualifies mgr cluster leader s m = true) rest))
               p)%list
    /\ GoRuntime.load (wesql.result r).2 p
       = match last rest with
         | Some z => Some z
         | None => GoRuntime.load h p
         end.
Proof.
  induction rest as [|x rest IH]; intros p h members s Hp.
  - cbn. rewrite app_nil_r. done.
  - cbn [wesql.HasOtherHealthyMembers_range GoRuntime.enter_iteration].
    assert (Hp' : (p < length (<[p:=x]> h))%nat) by (rewrite length_insert; exact Hp).
    assert (Hx : GoRuntime.load (<[p:=x]> h) p = Some x).
    { unfold GoRuntime.load. apply list_lookup_insert_eq. exact Hp. }
    rewrite last_cons. unfold roster.qualifies at 1.
    destruct (String.eqb (dcs.Name x) leader) eqn:E.
    + destruct (IH p (<[p:=x]> h) members s Hp') as (Hs & Hps & Hl).
      cbv zeta. split; [exact Hs|]. split.
      * etrans; [exact Hps|]. rewrite filter_cons_False; [reflexivity|].
        unfold roster.qualifies. rewrite E. done.
      * etrans; [exact Hl|]. rewrite Hx. destruct (last rest); reflexivity.
    + cbv zeta. rewrite !result_bind_ask, final_bind_ask. cbv beta.
      destruct (wesql.IsMemberHealthy mgr (Some cluster) x s) eqn:Hhealthy; cbn [negb].
      * destruct (IH p (<[p:=x]> h) (members ++ [p])%list s Hp') as (Hs & Hps & Hl).
        split; [exact Hs|]. split.
        { etrans; [exact Hps|]. rewrite filter_cons_True.
          - rewrite <- app_assoc. reflexivity.
          - unfold roster.qualifies. rewrite E, Hhealthy. reflexivity. }
        etrans; [exact Hl|]. rewrite Hx. destruct (last rest); reflexivity.
      * destruct (IH p (<[p:=x]> h) members s Hp') as (Hs & Hps & Hl).
        split; [exact Hs|]. split.
        { etrans; [exact Hps|]. rewrite filter_cons_False; [reflexivity|].
          unfold roster.qualifies. rewrite E, Hhealthy. done. }
        etrans; [exact Hl|]. rewrite Hx. destruct (last rest); reflexivity.
Qed.

Lemma omap_load_replicate {T} (h : GoRuntime.Heap T) (p : GoRuntime.Ptr) (z : T) (k : nat) :
  GoRuntime.load h p = Some z ->
  omap (GoRuntime.load h) (replicate k p) = replicate k z.
Proof.
  intros Hz. induction k as [|k IH]; [reflexivity|].
  cbn [replicate omap list_omap]. rewrite Hz, IH. reflexivity.
Qed.

(** X2: Under the loop variables of Go 1.21 and before, the call returns as
    many pointers as there are qualifying members, and every one of them
    leads to the LAST member of the roster. *)
Theorem HasOtherHealthyMembers_per_loop :
  forall (St : Type) (mgr : wesql.Manager St) (cluster : dcs.Cluster) (leader : string)
         (s : St),
    wesql.pointees
      (wesql.result (wesql.HasOtherHealthyMembers mgr GoRuntime.PerLoop cluster leader s))
    = match last (dcs.Members cluster) with
      | Some z => replicate (length (roster.candidates mgr cluster leader s)) z
      | None => []
      end.
Proof.
  intros St mgr cluster leader s.
  unfold wesql.HasOtherHealthyMembers, wesql.pointees, roster.candidates.
  destruct (dcs.Members cluster) as [|x rest]; [reflexivity|].
  cbn [wesql.HasOtherHealthyMembers_range GoRuntime.enter_iteration GoRuntime.alloc
       GoRuntime.make replicate app length].
  assert (H0 : (0 < length [x])%nat) by (simpl; lia).
  assert (Hlast : match last rest with Some z => Some z | None => GoRuntime.load [x] 0%nat end
                  = last (x :: rest)).
  { rewrite last_cons. destruct (last rest); reflexivity. }
  unfold roster.qualifies at 1.
  destruct (String.eqb (dcs.Name x) leader) eqn:E.
  - destruct (range_shared_variable mgr cluster leader rest 0%nat [x] [] s H0)
      as (_ & Hps & Hl).
    cbv zeta in Hps, Hl. rewrite Hlast in Hl.
    etrans; [apply (f_equal (omap _) Hps)|].
    rewrite filter_cons_False by (unfold roster.qualifies; rewrite E; done).
    last_of_cons x rest. apply omap_load_replicate. exact Hl.
  - rewrite !result_bind_ask. cbv beta.
    destruct (wesql.IsMemberHealthy mgr (Some cluster) x s) eqn:Hhealthy; cbn [negb].
    + destruct (range_shared_variable mgr cluster leader rest 0%nat [x] [0%nat] s H0)
        as (_ & Hps & Hl).
      cbv zeta in Hps, Hl. rewrite Hlast in Hl.
      etrans; [apply (f_equal (omap _) Hps)|].
      rewrite filter_cons_True by (unfold roster.qualifies; rewrite E, Hhealthy; done).
      last_of_cons x rest. apply (omap_load_replicate _ 0%nat _ (S _)). exact Hl.
    + destruct (range_shared_variable mgr cluster leader rest 0%nat [x] [] s H0)
        as (_ & Hps & Hl).
      cbv zeta in Hps, Hl. rewrite Hlast in Hl.
      etrans; [apply (f_equal (omap _) Hps)|].
      rewrite filter_cons_False by (unfold roster.qualifies; rewrite E, Hhealthy; done).
      last_of_cons x rest. apply omap_load_replicate. exact Hl.
Qed.

(** C8 at a failing input, under the loop variables of Go 1.21 and before
    (one variable per loop, so every [&member] is the same pointer).  Roster
    [pod-0, pod-1], both healthy, leader name [pod-1]: the call returns one
    pointer and it leads to the member named [pod-1], the excluded leader.
    Same roster, [pod-1] failing the health probe, leader name [pod-2]: the
    one pointer returned leads to [pod-1], the member that failed the
    probe. *)
Theorem HasOtherHealthyMembers_returns_excluded_member :
  wesql.pointees
    (wesql.result
       (wesql.HasOtherHealthyMembers (scenario.sim_manager "pod-0") GoRuntime.PerLoop
          (scenario.led_by scenario.pod1 [scenario.pod0; scenario.pod1]) "pod-1"
          (scenario.engine scenario.two_members "Follower" [])))
  = [scenario.pod1]
  /\ dcs.Name scenario.pod1 = "pod-1"
  /\ wesql.pointees
       (wesql.result
          (wesql.HasOtherHealthyMembers (scenario.sim_manager "pod-0") GoRuntime.PerLoop
             (scenario.led_by scenario.pod0 [scenario.pod0; scenario.pod1]) "pod-2"
             (scenario.ailing ["pod-1"] (scenario.engine scenario.two_members "Follower" []))))
     = [scenario.pod1]
  /\ wesql.IsMemberHealthy (scenario.sim_manager "pod-0")
       (Some (scenario.led_by scenario.pod0 [scenario.pod0; scenario.pod1])) scenario.pod1
       (scenario.ailing ["pod-1"] (scenario.engine scenario.two_members "Follower" []))
     = false.
Proof. repeat split; vm_compute; reflexivity. Qed.

(** ** Claims about the configuration store *)

Lemma members_range_first_write {Pod : Type}
    (getMemberFromPod : option Pod -> option configuration_store.Member)
    (pod : option Pod) (pods : list (option Pod)) (cap : nat) :
  configuration_store.members_range getMemberFromPod (pod :: pods) 0
    (GoRuntime.make None 0 cap)
  = GoRuntime.Panicked "index out of range".
Proof. reflexivity. Qed.

Lemma pods_range_first_write {Pod : Type} (sem : GoRuntime.LoopVar)
    (pod : Pod) (items : list Pod) (cap : nat) :
  configuration_store.pods_range sem (pod :: items) 0 None [] (GoRuntime.make None 0 cap)
  = GoRuntime.Panicked "index out of range".
Proof. destruct sem; reflexivity. Qed.

(** C4 fails on the code: [members] (and [pods] in the refresh) is made
    with length 0, so the first indexed write is out of range.  For every
    non-empty list of process records [loadClusterFromKubernetes] panics
    with an index-out-of-range error instead of returning a snapshot, and
    so does [GetClusterFromKubernetes] whenever the three reads of the
    refresh succeed and at least one process record is listed. *)
Theorem loadClusterFromKubernetes_panics_on_members :
  forall (SysID TTL LeaderName AcquireTime RenewTime ScheduledAt Candidate : string)
         (ConfigSuffix FailoverSuffix : string) (Pod ClusterConfig : Type)
         (getMemberFromPod : option Pod -> option configuration_store.Member)
         (getClusterConfigFromConfigMap : configuration_store.ConfigMap -> ClusterConfig)
         (cs : configuration_store.ConfigurationStore ClusterConfig)
         (config failoverConfig : option configuration_store.ConfigMap)
         (clusterObj : option configuration_store.ClusterObj)
         (extra : gmap string string) (now : Z),
    (forall (pod : option Pod) (pods : list (option Pod)),
       configuration_store.loadClusterFromKubernetes SysID TTL LeaderName AcquireTime
         RenewTime ScheduledAt Candidate getMemberFromPod getClusterConfigFromConfigMap
         cs config failoverConfig (pod :: pods) clusterObj extra now
       = GoRuntime.Panicked "index out of range")
    /\ (forall (sem : GoRuntime.LoopVar) (pod : Pod) (items : list Pod)
               (configMaps : list configuration_store.ConfigMap)
               (obj : configuration_store.ClusterObj),
          configuration_store.GetClusterFromKubernetes SysID TTL LeaderName AcquireTime
            RenewTime ScheduledAt Candidate ConfigSuffix FailoverSuffix getMemberFromPod
            getClusterConfigFromConfigMap sem
            {| configuration_store.Pods_List := (Some (pod :: items), None);
               configuration_store.ConfigMaps_List := (Some configMaps, None);
               configuration_store.GetK8SClientObject := inr obj |}
            cs now
          = GoRuntime.Panicked "index out of range")
    /\ (exists c cs',
          configuration_store.loadClusterFromKubernetes SysID TTL LeaderName AcquireTime
            RenewTime ScheduledAt Candidate getMemberFromPod getClusterConfigFromConfigMap
            cs config failoverConfig [] clusterObj extra now
          = GoRuntime.Returned (c, cs')
          /\ configuration_store.c_Members c = []).
Proof.
  intros. split; [|split].
  - intros pod pods. unfold configuration_store.loadClusterFromKubernetes.
    destruct config, clusterObj; cbv zeta beta iota;
      rewrite members_range_first_write; reflexivity.
  - intros sem pod items configMaps obj.
    unfold configuration_store.GetClusterFromKubernetes.
    cbn [configuration_store.Pods_List configuration_store.ConfigMaps_List
         configuration_store.GetK8SClientObject].
    rewrite pods_range_first_write. reflexivity.
  - unfold configuration_store.loadClusterFromKubernetes.
    destruct config, clusterObj; cbn; eauto.
Qed.

(** C3 fails on the code: the decoding of the failover record is guarded
    by [failover != nil], and [failover] is nil at that point, so the
    record is never read.  Whatever the failover record holds, a snapshot
    that is returned carries no Failover (and the call returns whenever
    the list of process records is empty). *)
Theorem loadClusterFromKubernetes_never_decodes_failover :
  forall (SysID TTL LeaderName AcquireTime RenewTime ScheduledAt Candidate : string)
         (Pod ClusterConfig : Type)
         (getMemberFromPod : option Pod -> option configuration_store.Member)
         (getClusterConfigFromConfigMap : configuration_store.ConfigMap -> ClusterConfig)
         (cs : configuration_store.ConfigurationStore ClusterConfig)
         (config failoverConfig : option configuration_store.ConfigMap)
         (pods : list (option Pod))
         (clusterObj : option configuration_store.ClusterObj)
         (extra : gmap string string) (now : Z),
    match configuration_store.loadClusterFromKubernetes SysID TTL LeaderName AcquireTime
            RenewTime ScheduledAt Candidate getMemberFromPod getClusterConfigFromConfigMap
            cs config failoverConfig pods clusterObj extra now with
    | GoRuntime.Returned (c, _) => configuration_store.c_FailOver c = None
    | GoRuntime.Panicked _ => pods <> []
    end.
Proof.
  intros. unfold configuration_store.loadClusterFromKubernetes.
  destruct pods as [|pod pods].
  - destruct config, clusterObj; reflexivity.
  - destruct config, clusterObj; cbv zeta beta iota;
      rewrite members_range_first_write; done.
Qed.

(** C3 at a failing input: a failover record with version 42, leader
    [pod-0], candidate [pod-1] and a [scheduledAt] annotation that parses
    (1700000000), no process records.  The snapshot is returned without a
    Failover, by [loadClusterFromKubernetes] and by the whole refresh. *)
Lemma failover_record_is_dropped :
  strconv.Atoi (configuration_store.index_map
                  (configuration_store.cm_Annotations scenario.failover_cm) "scheduledAt")
  = Some 1700000000%Z
  /\ match scenario.load_sample scenario.store0 None (Some scenario.failover_cm) []
             (Some scenario.cluster_obj) ∅ 120%Z with
     | GoRuntime.Returned (c, _) => configuration_store.c_FailOver c = None
     | GoRuntime.Panicked _ => False
     end
  /\ match scenario.refresh_sample GoRuntime.PerLoop (scenario.api_with [])
             scenario.store0 120%Z with
     | GoRuntime.Returned (None, cs) =>
         match configuration_store.cluster cs with
         | Some c => configuration_store.c_FailOver c = None
         | None => False
         end
     | _ => False
     end.
Proof. repeat split; vm_compute; reflexivity. Qed.

(** C1: a lease is expired exactly when [now > renewTime + ttl]; at
    [now = renewTime + ttl] it is not expired; an expired lease confers
    leadership on nobody. *)
Theorem isExpired_strictly_after_ttl :
  forall (r : configuration_store.LeaderRecord) (now : Z),
    (configuration_store.isExpired r now = true
     <-> (now > configuration_store.renewTime r + configuration_store.ttl r)%Z)
    /\ configuration_store.isExpired r
         (configuration_store.renewTime r + configuration_store.ttl r) = false
    /\ (configuration_store.isExpired r now = true ->
        forall who : string, configuration_store.confersLeadership r now who = false).
Proof.
  intros r now. unfold configuration_store.confersLeadership, configuration_store.isExpired.
  split; [|split].
  - rewrite Z.gtb_gt. reflexivity.
  - rewrite Z.gtb_ltb. apply Z.ltb_irrefl.
  - intros -> who. reflexivity.
Qed.

(** The lease decoded from the sample cluster object (renewTime 100, ttl
    30) is live at 130 and expired at 131. *)
Example decoded_lease_boundary :
  let r := configuration_store.newLeaderRecord "ttl" "leaderName" "acquireTime" "renewTime"
             (configuration_store.obj_Annotations scenario.cluster_obj) in
  configuration_store.isExpired r 130 = false
  /\ configuration_store.isExpired r 131 = true
  /\ configuration_store.confersLeadership r 130 "pod-0" = true
  /\ configuration_store.confersLeadership r 131 "pod-0" = false.
Proof. repeat split; vm_compute; reflexivity. Qed.

(** ** Sample runs of the library models *)

Example Split_example :
  strings.Split "a;;b" ";" = ["a"; ""; "b"] /\ strings.Split "" ";" = [""]
  /\ strings.Split "ab--cd-e" "--" = ["ab"; "cd-e"].
Proof. repeat split; reflexivity. Qed.

Example Atoi_example :
  strconv.Atoi "-12" = Some (-12)%Z /\ strconv.Atoi "+7" = Some 7%Z
  /\ strconv.Atoi "1_0" = None /\ strconv.Atoi "" = None /\ strconv.Atoi "-" = None
  /\ strconv.Atoi "9223372036854775807" = Some 9223372036854775807%Z
  /\ strconv.Atoi "9223372036854775808" = None
  /\ strconv.Atoi "-9223372036854775808" = Some (-9223372036854775808)%Z.
Proof. repeat split; vm_compute; reflexivity. Qed.

(** * Further properties of the engine manager *)

(** ** Bytes, prefixes and substrings *)

Lemma string_app_cons (x : ascii) (a b : string) : String x a ++ b = String x (a ++ b).
Proof. reflexivity. Qed.

Lemma string_app_assoc (a b c : string) : (a ++ b) ++ c = a ++ (b ++ c).
Proof.
  induction a as [|x a IH]; [reflexivity|].
  rewrite !string_app_cons, IH. reflexivity.
Qed.

Lemma string_app_nil_r (a : string) : a ++ EmptyString = a.
Proof.
  induction a as [|x a IH]; [reflexivity|].
  rewrite string_app_cons, IH. reflexivity.
Qed.

Lemma prefix_app (p t : string) : String.prefix p (p ++ t) = true.
Proof.
  induction p as [|a p IH]; [apply prefix_empty|].
  rewrite string_app_cons. simpl. destruct (ascii_dec a a); [exact IH | congruence].
Qed.

Lemma prefix_split (p s : string) :
  String.prefix p s = true -> exists t : string, s = p ++ t.
Proof.
  revert s. induction p as [|a p IH]; intros s H.
  - exists s. reflexivity.
  - destruct s as [|b s]; simpl in H; [discriminate|].
    destruct (ascii_dec a b) as [->|]; [|discriminate].
    destruct (IH s H) as [t ->]. exists t. reflexivity.
Qed.

Lemma Contains_unfold (s substr : string) :
  strings.Contains s substr
  = if String.prefix substr s then true
    else match s with
         | EmptyString => false
         | String _ t => strings.Contains t substr
         end.
Proof. destruct s; reflexivity. Qed.

Lemma Contains_middle (pre substr post : string) :
  strings.Contains (pre ++ substr ++ post) substr = true.
Proof.
  induction pre as [|a pre IH]; rewrite Contains_unfold.
  - change (EmptyString ++ substr ++ post) with (substr ++ post).
    rewrite prefix_app. reflexivity.
  - rewrite string_app_cons. destruct (String.prefix substr _); [reflexivity | exact IH].
Qed.

Lemma Contains_split (s substr : string) :
  strings.Contains s substr = true ->
  exists pre post : string, s = pre ++ substr ++ post.
Proof.
  induction s as [|a s IH]; rewrite Contains_unfold.
  - destruct (String.prefix substr EmptyString) eqn:E; [|discriminate].
    intros _. apply prefix_split in E as [t ->]. exists EmptyString, t. reflexivity.
  - destruct (String.prefix substr (String a s)) eqn:E.
    + intros _. apply prefix_split in E as [t ->]. exists EmptyString, t. reflexivity.
    + intros H. destruct (IH H) as (pre & post & ->).
      exists (String a pre), post. reflexivity.
Qed.

Lemma before_is_prefix (c : ascii) (s : string) :
  exists t : string, s = membership.before c s ++ t.
Proof.
  induction s as [|a s [t IH]]; simpl.
  - exists EmptyString. reflexivity.
  - destruct (Ascii.eqb a c).
    + exists (String a s). reflexivity.
    + exists t. rewrite string_app_cons, <- IH. reflexivity.
Qed.

Lemma has_byte_app (c : ascii) (a b : string) :
  membership.has_byte c (a ++ b) = membership.has_byte c a || membership.has_byte c b.
Proof.
  induction a as [|x a IH]; [reflexivity|].
  rewrite string_app_cons. simpl. rewrite IH, orb_assoc. reflexivity.
Qed.

Lemma before_lacks_byte (c : ascii) (s : string) :
  membership.has_byte c (membership.before c s) = false.
Proof.
  induction s as [|a s IH]; simpl; [reflexivity|].
  destruct (Ascii.eqb a c) eqn:E; simpl; [reflexivity|].
  rewrite E, IH. reflexivity.
Qed.

Lemma pieces_head (c : ascii) (s : string) :
  exists rest, membership.pieces c s = membership.before c s :: rest.
Proof.
  pose proof (elem0_pieces c s) as H.
  destruct (membership.pieces c s) as [|p rest] eqn:E.
  - destruct s as [|a s]; simpl in E; [discriminate|].
    destruct (Ascii.eqb a c); [discriminate|].
    destruct (membership.pieces c s); discriminate.
  - simpl in H. subst p. exists rest. reflexivity.
Qed.

(** Every piece lies in the string it was cut from, and has no separator. *)
Lemma pieces_elem (c : ascii) (s tok : string) :
  tok ∈ membership.pieces c s ->
  membership.has_byte c tok = false
  /\ exists pre post : string, s = pre ++ tok ++ post.
Proof.
  revert tok. induction s as [|a s IH]; intros tok Hin; simpl in Hin.
  - apply list_elem_of_singleton in Hin as ->. split; [reflexivity|].
    exists EmptyString, EmptyString. reflexivity.
  - destruct (Ascii.eqb a c) eqn:E.
    + apply elem_of_cons in Hin as [-> | Hin].
      * split; [reflexivity|]. exists EmptyString, (String a s). reflexivity.
      * destruct (IH tok Hin) as (Hc & pre & post & Hs). split; [exact Hc|].
        exists (String a pre), post. rewrite string_app_cons, <- Hs. reflexivity.
    + destruct (pieces_head c s) as [rest Hp]. rewrite Hp in Hin, IH.
      apply elem_of_cons in Hin as [-> | Hin].
      * split.
        { simpl. rewrite E, before_lacks_byte. reflexivity. }
        destruct (before_is_prefix c s) as [t Ht].
        exists EmptyString, t.
        change (String a s = String a (membership.before c s) ++ t).
        rewrite string_app_cons, <- Ht. reflexivity.
      * destruct (IH tok) as (Hc & pre & post & Hs).
        { apply elem_of_cons. right. exact Hin. }
        split; [exact Hc|]. exists (String a pre), post.
        rewrite string_app_cons, <- Hs. reflexivity.
Qed.

(** What [GetMemberAddrs] makes of a membership string, address by
    address. *)
Lemma member_addrs_elem (info addr : string) :
  addr ∈ membership.member_addrs info ->
  exists tok : string,
    tok ∈ membership.pieces ";" (membership.before "@" info)
    /\ membership.has_byte ":" tok = true
    /\ addr = membership.before "#" tok.
Proof.
  unfold membership.member_addrs. intros Hin.
  apply list_elem_of_fmap in Hin as (tok & -> & Hin).
  apply list_elem_of_filter in Hin as [Hcolon Hin].
  exists tok. done.
Qed.

(** ** Addresses *)

Lemma member_addrs_cut (info addr : string) :
  addr ∈ membership.member_addrs info ->
  membership.has_byte "#" addr = false
  /\ membership.has_byte ";" addr = false
  /\ membership.has_byte "@" addr = false
  /\ exists pre post : string, info = pre ++ addr ++ post.
Proof.
  intros Hin.
  apply member_addrs_elem in Hin as (tok & Htok & _ & ->).
  apply pieces_elem in Htok as (Hsemi & pre & post & Hbefore).
  destruct (before_is_prefix "#" tok) as [cut Hcut].
  destruct (before_is_prefix "@" info) as [epoch Hinfo].
  pose proof (before_lacks_byte "@" info) as Hat.
  rewrite Hbefore, !has_byte_app in Hat.
  rewrite Hcut, has_byte_app in Hsemi, Hat.
  apply orb_false_iff in Hsemi as [Hsemi _].
  apply orb_false_iff in Hat as [_ Hat].
  apply orb_false_iff in Hat as [Hat _].
  apply orb_false_iff in Hat as [Hat _].
  repeat split; [apply before_lacks_byte | exact Hsemi | exact Hat |].
  exists pre, (cut ++ post ++ epoch).
  rewrite Hinfo at 1. rewrite Hbefore. rewrite Hcut at 1.
  rewrite !string_app_assoc. reflexivity.
Qed.

(** X4: Every address [GetMemberAddrs] returns is cut out of the membership
    string [GetClusterInfo] returns on the same engine state and holds
    none of the separators [#], [;] and [@]; when that string is empty no
    address is returned. *)
Theorem GetMemberAddrs_addresses :
  forall (St : Type) (mgr : wesql.Manager St) (cluster : dcs.ClusterRef) (s : St),
    Forall (fun addr =>
              membership.has_byte "#" addr = false
              /\ membership.has_byte ";" addr = false
              /\ membership.has_byte "@" addr = false
              /\ exists pre post : string,
                   wesql.result (wesql.GetClusterInfo mgr cluster s) = pre ++ addr ++ post)
           (wesql.result (wesql.GetMemberAddrs mgr cluster s))
    /\ (wesql.result (wesql.GetClusterInfo mgr cluster s) = EmptyString ->
        wesql.result (wesql.GetMemberAddrs mgr cluster s) = []).
Proof.
  intros St mgr cluster s. rewrite GetMemberAddrs_of_info.
  change (wesql.result (?a, _, _)) with a.
  split; [|intros ->; reflexivity].
  apply Forall_forall. intros addr Hin. apply member_addrs_cut. exact Hin.
Qed.

Lemma GetAddrWithMemberName_range_first (addrs : list string) (memberName : string) :
  (wesql.GetAddrWithMemberName_range addrs memberName = EmptyString
   /\ Forall (fun a => strings.HasPrefix a memberName = false) addrs)
  \/ exists l1 l2 : list string,
       addrs = (l1 ++ wesql.GetAddrWithMemberName_range addrs memberName :: l2)%list
       /\ strings.HasPrefix (wesql.GetAddrWithMemberName_range addrs memberName) memberName
          = true
       /\ Forall (fun a => strings.HasPrefix a memberName = false) l1.
Proof.
  induction addrs as [|a rest IH]; simpl.
  - left. split; [reflexivity | constructor].
  - destruct (strings.HasPrefix a memberName) eqn:E.
    + right. exists [], rest. repeat split; [exact E | constructor].
    + destruct IH as [[Hr Hall] | (l1 & l2 & Hrest & Hp & Hall)].
      * left. split; [exact Hr | constructor; assumption].
      * right. exists (a :: l1), l2. repeat split.
        { simpl. rewrite <- Hrest. reflexivity. }
        { exact Hp. }
        constructor; assumption.
Qed.

Lemma GetAddrWithMemberName_value {St} (mgr : wesql.Manager St) (cluster : dcs.ClusterRef)
    (memberName : string) (s : St) :
  wesql.result (wesql.GetAddrWithMemberName mgr cluster memberName s)
  = wesql.GetAddrWithMemberName_range
      (membership.member_addrs (wesql.result (wesql.GetClusterInfo mgr cluster s)))
      memberName.
Proof.
  unfold wesql.GetAddrWithMemberName, wesql.bind, wesql.ret.
  rewrite GetMemberAddrs_of_info. reflexivity.
Qed.

(** X5: [GetAddrWithMemberName] returns the FIRST address of [GetMemberAddrs]
    that starts with the member name, and the empty string when there is
    none.  For a non-empty member name the result is empty exactly when no
    address starts with it. *)
Theorem GetAddrWithMemberName_first_match :
  forall (St : Type) (mgr : wesql.Manager St) (cluster : dcs.ClusterRef)
         (memberName : string) (s : St),
    ((wesql.result (wesql.GetAddrWithMemberName mgr cluster memberName s) = EmptyString
      /\ Forall (fun a => strings.HasPrefix a memberName = false)
                (wesql.result (wesql.GetMemberAddrs mgr cluster s)))
     \/ exists l1 l2 : list string,
          wesql.result (wesql.GetMemberAddrs mgr cluster s)
          = (l1 ++ wesql.result (wesql.GetAddrWithMemberName mgr cluster memberName s)
                :: l2)%list
          /\ strings.HasPrefix
               (wesql.result (wesql.GetAddrWithMemberName mgr cluster memberName s))
               memberName = true
          /\ Forall (fun a => strings.HasPrefix a memberName = false) l1)
    /\ (memberName <> EmptyString ->
        (wesql.result (wesql.GetAddrWithMemberName mgr cluster memberName s) = EmptyString
         <-> Forall (fun a => strings.HasPrefix a memberName = false)
                    (wesql.result (wesql.GetMemberAddrs mgr cluster s)))).
Proof.
  intros St mgr cluster memberName s.
  rewrite GetAddrWithMemberName_value, GetMemberAddrs_of_info.
  change (wesql.result (?a, _, _)) with a.
  set (addrs := membership.member_addrs (wesql.result (wesql.GetClusterInfo mgr cluster s))).
  split; [apply GetAddrWithMemberName_range_first|].
  intros Hname. split.
  - intros Hempty.
    destruct (GetAddrWithMemberName_range_first addrs memberName)
      as [[_ Hall] | (l1 & l2 & _ & Hp & _)]; [exact Hall|].
    rewrite Hempty in Hp. unfold strings.HasPrefix in Hp.
    destruct memberName; [congruence | discriminate Hp].
  - apply GetAddrWithMemberName_range_none.
Qed.

(** ** Membership of the current member *)

Lemma IsCurrentMemberInCluster_run {St} (mgr : wesql.Manager St) (cluster : dcs.ClusterRef)
    (s : St) :
  wesql.result (wesql.IsCurrentMemberInCluster mgr cluster s)
  = strings.Contains (wesql.result (wesql.GetClusterInfo mgr cluster s))
      (wesql.CurrentMemberName mgr).
Proof.
  unfold wesql.IsCurrentMemberInCluster, wesql.bind, wesql.ret, wesql.result.
  destruct (wesql.GetClusterInfo mgr cluster s) as [[info s'] t]. reflexivity.
Qed.

(** X6: [IsCurrentMemberInCluster] is true exactly when the member name occurs
    somewhere in the membership string [GetClusterInfo] returns on the
    same engine state.  When that string is empty it is true exactly for
    the empty member name. *)
Theorem IsCurrentMemberInCluster_substring :
  forall (St : Type) (mgr : wesql.Manager St) (cluster : dcs.ClusterRef) (s : St),
    (wesql.result (wesql.IsCurrentMemberInCluster mgr cluster s) = true
     <-> exists pre post : string,
           wesql.result (wesql.GetClusterInfo mgr cluster s)
           = pre ++ wesql.CurrentMemberName mgr ++ post)
    /\ (wesql.result (wesql.GetClusterInfo mgr cluster s) = EmptyString ->
        (wesql.result (wesql.IsCurrentMemberInCluster mgr cluster s) = true
         <-> wesql.CurrentMemberName mgr = EmptyString)).
Proof.
  intros St mgr cluster s. rewrite IsCurrentMemberInCluster_run.
  split.
  - split; [apply Contains_split|].
    intros (pre & post & ->). apply Contains_middle.
  - intros ->. rewrite Contains_unfold.
    destruct (wesql.CurrentMemberName mgr); simpl; split; congruence.
Qed.

(** X7: When the address of the current member resolves, the current member
    is in the cluster: a non-empty [GetAddrWithMemberName] for
    [CurrentMemberName] implies [IsCurrentMemberInCluster]. *)
Theorem resolved_address_implies_membership :
  forall (St : Type) (mgr : wesql.Manager St) (cluster : dcs.ClusterRef) (s : St),
    wesql.result (wesql.GetAddrWithMemberName mgr cluster (wesql.CurrentMemberName mgr) s)
    <> EmptyString ->
    wesql.result (wesql.IsCurrentMemberInCluster mgr cluster s) = true.
Proof.
  intros St mgr cluster s. rewrite GetAddrWithMemberName_value, IsCurrentMemberInCluster_run.
  set (info := wesql.result (wesql.GetClusterInfo mgr cluster s)).
  set (name := wesql.CurrentMemberName mgr). intros Haddr.
  destruct (GetAddrWithMemberName_range_first (membership.member_addrs info) name)
    as [[Hempty _] | (l1 & l2 & Haddrs & Hp & _)]; [congruence|].
  assert (Hin : wesql.GetAddrWithMemberName_range (membership.member_addrs info) name
                ∈ membership.member_addrs info).
  { rewrite Haddrs at 2. set_solver. }
  apply member_addrs_cut in Hin as (_ & _ & _ & pre & post & Hinfo).
  unfold strings.HasPrefix in Hp. apply prefix_split in Hp as [t Ht].
  rewrite Hinfo, Ht, !string_app_assoc. apply Contains_middle.
Qed.

Lemma resolved_address_implies_membership_witness :
  wesql.result
    (wesql.GetAddrWithMemberName (scenario.sim_manager "10.0.0.2")
       (Some (scenario.led_by scenario.pod0 [scenario.pod0; scenario.pod1])) "10.0.0.2"
       (scenario.engine scenario.two_members "Follower" [])) = "10.0.0.2:13306"
  /\ wesql.result
       (wesql.IsCurrentMemberInCluster (scenario.sim_manager "10.0.0.2")
          (Some (scenario.led_by scenario.pod0 [scenario.pod0; scenario.pod1]))
          (scenario.engine scenario.two_members "Follower" [])) = true.
Proof.
  split; [reflexivity|].
  apply (resolved_address_implies_membership scenario.Sim (scenario.sim_manager "10.0.0.2")).
  vm_compute. discriminate.
Defined.

(** ** The node's own role *)

Lemma EqualFold_lower_all (s t : string) :
  strings.EqualFold s t = true <-> folding.lower_all s = folding.lower_all t.
Proof.
  revert t. induction s as [|a s IH]; intros [|b t]; simpl; try (split; congruence).
  rewrite andb_true_iff, IH, Ascii.eqb_eq. split.
  - intros [-> ->]. reflexivity.
  - intros [= Ha Ht]. split; assumption.
Qed.

(** X8: [IsLeader] hands on the error of the role query together with [false];
    when the query answers, there is no error and the result is true
    exactly when the role, letter case aside, reads [leader].
    [IsPromoted] is [IsLeader] on the local node without the error: a
    failed role query reads as not promoted. *)
Theorem IsLeader_role_query :
  forall (St : Type) (mgr : wesql.Manager St) (cluster : dcs.ClusterRef) (s : St),
    (forall err : GoRuntime.error,
       wesql.GetReplicaRole mgr cluster s = inl err ->
       wesql.result (wesql.IsLeader mgr cluster s) = (false, Some err))
    /\ (forall role : string,
          wesql.GetReplicaRole mgr cluster s = inr role ->
          (wesql.result (wesql.IsLeader mgr cluster s)).2 = None
          /\ ((wesql.result (wesql.IsLeader mgr cluster s)).1 = true
              <-> folding.lower_all role = "leader"))
    /\ wesql.result (wesql.IsPromoted mgr s)
       = (wesql.result (wesql.IsLeader mgr None s)).1
    /\ (forall err : GoRuntime.error,
          wesql.GetReplicaRole mgr None s = inl err ->
          wesql.result (wesql.IsPromoted mgr s) = false).
Proof.
  intros St mgr cluster s.
  unfold wesql.IsPromoted, wesql.IsLeader, wesql.bind, wesql.ask, wesql.ret, wesql.result.
  split; [|split; [|split]].
  - intros err ->. reflexivity.
  - intros role ->. simpl.
    pose proof (EqualFold_lower_all role wesql.Leader) as Hfold.
    change (folding.lower_all wesql.Leader) with "leader" in Hfold.
    destruct (strings.EqualFold role wesql.Leader); simpl; split; try reflexivity.
    + rewrite <- Hfold. done.
    + rewrite <- Hfold. done.
  - destruct (wesql.GetReplicaRole mgr None s) as [err|role]; simpl; [reflexivity|].
    destruct (strings.EqualFold role wesql.Leader); reflexivity.
  - intros err ->. reflexivity.
Qed.

(** ** Operations that change the membership *)

Lemma filter_admin_exec (t : list wesql.Event) (db : wesql.DB) (sql : string) :
  filter (fun e => wesql.is_admin_command e = true) t = [] ->
  filter (fun e => wesql.is_admin_command e = true) (t ++ [wesql.EvExec db sql])%list
  = [wesql.EvExec db sql].
Proof. intros Ht. rewrite filter_app, Ht. reflexivity. Qed.

(** The whole of [Promote], step by step. *)
Lemma Promote_run {St} (mgr : wesql.Manager St) (cluster : dcs.ClusterRef) (s : St) :
  wesql.Promote mgr cluster s
  = if (wesql.result (wesql.IsLeader mgr None s)).1
    then (None, s, [wesql.EvGetReplicaRole])
    else
      match wesql.GetLeaderConn mgr cluster s with
      | inl err =>
          (Some (GoRuntime.Wrap err "Get leader conn failed"), s,
           [wesql.EvGetReplicaRole; wesql.EvGetLeaderConn])
      | inr db =>
          let a := wesql.GetAddrWithMemberName mgr cluster (wesql.CurrentMemberName mgr) s in
          if String.eqb (wesql.result a) EmptyString
          then (Some "get current member's addr failed", s,
                wesql.EvGetReplicaRole :: wesql.EvGetLeaderConn :: wesql.trace a)
          else
            let sql := "call dbms_consensus.change_leader('" ++ wesql.result a ++ "');" in
            (match (wesql.exec mgr db sql s).1 with
             | inl err => Some err
             | inr _ => None
             end,
             (wesql.exec mgr db sql s).2,
             wesql.EvGetReplicaRole :: wesql.EvGetLeaderConn
               :: (wesql.trace a ++ [wesql.EvExec db sql])%list)
      end.
Proof.
  pose proof (GetAddrWithMemberName_frame mgr cluster (wesql.CurrentMemberName mgr) s)
    as [Hs _].
  unfold wesql.Promote, wesql.IsLeader, wesql.bind, wesql.ask, wesql.ret, wesql.run_exec,
    wesql.result, wesql.final, wesql.trace in *.
  destruct (wesql.GetReplicaRole mgr None s) as [err|role]; simpl.
  - destruct (wesql.GetLeaderConn mgr cluster s) as [err'|db]; simpl; [reflexivity|].
    destruct (wesql.GetAddrWithMemberName mgr cluster _ s) as [[addr s'] t].
    simpl in *. subst s'.
    destruct (String.eqb addr EmptyString); simpl; [rewrite ?app_nil_r; reflexivity|].
    destruct (wesql.exec mgr db _ s) as [[e|n] s2]; simpl; rewrite ?app_nil_r; reflexivity.
  - destruct (strings.EqualFold role wesql.Leader); simpl; [reflexivity|].
    destruct (wesql.GetLeaderConn mgr cluster s) as [err'|db]; simpl; [reflexivity|].
    destruct (wesql.GetAddrWithMemberName mgr cluster _ s) as [[addr s'] t].
    simpl in *. subst s'.
    destruct (String.eqb addr EmptyString); simpl; [rewrite ?app_nil_r; reflexivity|].
    destruct (wesql.exec mgr db _ s) as [[e|n] s2]; simpl; rewrite ?app_nil_r; reflexivity.
Qed.

(** X10: [Promote] executes at most one statement.  When it executes one, the
    leader connection has resolved and the statement, sent on that
    connection, is [change_leader] for the first address of the
    membership list that starts with the current member's name.  It
    returns nil exactly when the node already is leader or that statement
    succeeded; when no statement is executed the engine is left as it
    was. *)
Theorem Promote_effects :
  forall (St : Type) (mgr : wesql.Manager St) (cluster : dcs.ClusterRef) (s : St),
    let run := wesql.Promote mgr cluster s in
    let commands := filter (fun e => wesql.is_admin_command e = true) (wesql.trace run) in
    let addr :=
      wesql.result (wesql.GetAddrWithMemberName mgr cluster (wesql.CurrentMemberName mgr) s) in
    let sql := "call dbms_consensus.change_leader('" ++ addr ++ "');" in
    (commands = []
     \/ exists db : wesql.DB,
          wesql.GetLeaderConn mgr cluster s = inr db
          /\ addr <> EmptyString
          /\ strings.HasPrefix addr (wesql.CurrentMemberName mgr) = true
          /\ commands = [wesql.EvExec db sql])
    /\ (wesql.result run = None
        <-> (wesql.result (wesql.IsLeader mgr None s)).1 = true
            \/ exists (db : wesql.DB) (n : nat),
                 (wesql.result (wesql.IsLeader mgr None s)).1 = false
                 /\ wesql.GetLeaderConn mgr cluster s = inr db
                 /\ addr <> EmptyString
                 /\ (wesql.exec mgr db sql s).1 = inr n)
    /\ (commands = [] -> wesql.final run = s).
Proof.
  intros St mgr cluster s. cbv zeta. rewrite Promote_run. cbv zeta.
  pose proof (GetAddrWithMemberName_frame mgr cluster (wesql.CurrentMemberName mgr) s)
    as [_ Hquiet].
  pose proof (GetAddrWithMemberName_value mgr cluster (wesql.CurrentMemberName mgr) s)
    as Hvalue.
  set (addr := wesql.result
                 (wesql.GetAddrWithMemberName mgr cluster (wesql.CurrentMemberName mgr) s))
    in *.
  assert (Hprefix : addr <> EmptyString ->
                    strings.HasPrefix addr (wesql.CurrentMemberName mgr) = true).
  { rewrite Hvalue.
    destruct (GetAddrWithMemberName_range_first
                (membership.member_addrs (wesql.result (wesql.GetClusterInfo mgr cluster s)))
                (wesql.CurrentMemberName mgr)) as [[Hnone _] | (_ & _ & _ & Hp & _)];
      [congruence | intros _; exact Hp]. }
  destruct ((wesql.result (wesql.IsLeader mgr None s)).1); cbn.
  { split; [left; reflexivity|]. split; [|reflexivity].
    split; [left; reflexivity | reflexivity]. }
  destruct (wesql.GetLeaderConn mgr cluster s) as [err|db]; cbn.
  { split; [left; reflexivity|]. split; [|reflexivity].
    split; [discriminate | intros [[=] | (? & ? & _ & [=] & _)]]. }
  destruct (String.eqb_spec addr EmptyString) as [Hempty | Hne]; cbn.
  { split; [left; exact Hquiet|]. split; [|reflexivity].
    split; [discriminate | intros [[=] | (? & ? & _ & _ & Hne & _)]; congruence]. }
  rewrite (filter_admin_exec _ db _ Hquiet).
  split; [right; exists db; repeat split; [exact Hne | exact (Hprefix Hne)]|].
  split; [|discriminate].
  destruct (wesql.exec mgr db _ s) as [[e|n] s2] eqn:Hexec; cbn.
  - split; [discriminate|].
    intros [[=] | (db' & n & _ & [= <-] & _ & Hok)].
    rewrite Hexec in Hok. discriminate Hok.
  - split; [|reflexivity]. intros _. right. exists db, n.
    rewrite Hexec. done.
Qed.

(** The whole of [LeaveMemberFromCluster], step by step. *)
Lemma LeaveMemberFromCluster_run {St} (mgr : wesql.Manager St) (cluster : dcs.ClusterRef)
    (memberName : string) (s : St) :
  wesql.LeaveMemberFromCluster mgr cluster memberName s
  = match wesql.GetLeaderConn mgr cluster s with
    | inl err => (Some err, s, [wesql.EvGetLeaderConn])
    | inr db =>
        let a := wesql.GetAddrWithMemberName mgr cluster memberName s in
        if String.eqb (wesql.result a) EmptyString
        then (None, s, wesql.EvGetLeaderConn :: wesql.trace a)
        else
          let sql := "call dbms_consensus.downgrade_follower('" ++ wesql.result a ++ "');"
                     ++ "call dbms_consensus.drop_learner('" ++ wesql.result a ++ "');" in
          (match (wesql.exec mgr db sql s).1 with
           | inl err => Some (GoRuntime.Wrap err ("error executing " ++ sql))
           | inr _ => None
           end,
           (wesql.exec mgr db sql s).2,
           wesql.EvGetLeaderConn :: (wesql.trace a ++ [wesql.EvExec db sql])%list)
    end.
Proof.
  pose proof (GetAddrWithMemberName_frame mgr cluster memberName s) as [Hs _].
  unfold wesql.LeaveMemberFromCluster, wesql.bind, wesql.ask, wesql.ret, wesql.run_exec,
    wesql.result, wesql.final, wesql.trace in *.
  destruct (wesql.GetLeaderConn mgr cluster s) as [err'|db]; simpl; [reflexivity|].
  destruct (wesql.GetAddrWithMemberName mgr cluster _ s) as [[addr s'] t].
  simpl in *. subst s'.
  destruct (String.eqb addr EmptyString); simpl; [rewrite ?app_nil_r; reflexivity|].
  destruct (wesql.exec mgr db _ s) as [[e|n] s2]; simpl; rewrite ?app_nil_r; reflexivity.
Qed.

(** X11: [LeaveMemberFromCluster] executes at most one statement: the pair
    [downgrade_follower], [drop_learner] for the first address of the
    membership list that starts with the member name, sent on the leader
    connection.  When that statement fails, the error returned reads
    [error executing <the statement>: <the cause>].  It returns nil
    exactly when the leader connection resolved and either no address
    matched or the statement succeeded. *)
Theorem LeaveMemberFromCluster_effects :
  forall (St : Type) (mgr : wesql.Manager St) (cluster : dcs.ClusterRef)
         (memberName : string) (s : St),
    let run := wesql.LeaveMemberFromCluster mgr cluster memberName s in
    let commands := filter (fun e => wesql.is_admin_command e = true) (wesql.trace run) in
    let addr := wesql.result (wesql.GetAddrWithMemberName mgr cluster memberName s) in
    let sql := "call dbms_consensus.downgrade_follower('" ++ addr ++ "');"
               ++ "call dbms_consensus.drop_learner('" ++ addr ++ "');" in
    (commands = []
     \/ exists db : wesql.DB,
          wesql.GetLeaderConn mgr cluster s = inr db
          /\ addr <> EmptyString
          /\ strings.HasPrefix addr memberName = true
          /\ commands = [wesql.EvExec db sql])
    /\ (forall (db : wesql.DB) (cause : GoRuntime.error),
          wesql.GetLeaderConn mgr cluster s = inr db ->
          addr <> EmptyString ->
          (wesql.exec mgr db sql s).1 = inl cause ->
          wesql.result run = Some ("error executing " ++ sql ++ ": " ++ cause))
    /\ (wesql.result run = None
        <-> exists db : wesql.DB,
              wesql.GetLeaderConn mgr cluster s = inr db
              /\ (addr = EmptyString \/ exists n : nat, (wesql.exec mgr db sql s).1 = inr n)).
Proof.
  intros St mgr cluster memberName s. cbv zeta. rewrite LeaveMemberFromCluster_run.
  cbv zeta.
  pose proof (GetAddrWithMemberName_frame mgr cluster memberName s) as [_ Hquiet].
  pose proof (GetAddrWithMemberName_value mgr cluster memberName s) as Hvalue.
  assert (Hprefix : wesql.result (wesql.GetAddrWithMemberName mgr cluster memberName s)
                    <> EmptyString ->
                    strings.HasPrefix
                      (wesql.result (wesql.GetAddrWithMemberName mgr cluster memberName s))
                      memberName = true).
  { rewrite Hvalue.
    destruct (GetAddrWithMemberName_range_first
                (membership.member_addrs (wesql.result (wesql.GetClusterInfo mgr cluster s)))
                memberName) as [[Hnone _] | (_ & _ & _ & Hp & _)]; [congruence | intros _; exact Hp]. }
  destruct (wesql.GetLeaderConn mgr cluster s) as [err|db]; cbn.
  - split; [left; reflexivity|]. split; [intros ? ? [=]|].
    split; [discriminate | intros (? & [=] & _)].
  - destruct (String.eqb_spec
                (wesql.result (wesql.GetAddrWithMemberName mgr cluster memberName s))
                EmptyString) as [Hempty | Hne]; cbn.
    + split; [left; exact Hquiet|]. split; [intros ? ? _ Hne; congruence|].
      split; [|reflexivity]. intros _. exists db. split; [reflexivity | left; exact Hempty].
    + rewrite (filter_admin_exec _ db _ Hquiet).
      split; [right; exists db; repeat split; [exact Hne | exact (Hprefix Hne)]|].
      destruct (wesql.exec mgr db _ s) as [[e|n] s2] eqn:Hexec; cbn.
      * split; [intros db' cause [= <-] _; rewrite Hexec; intros [= <-]; reflexivity|].
        split; [discriminate|].
        intros (db' & [= <-] & [Hempty | [n Hok]]); [congruence|].
        rewrite Hexec in Hok. discriminate Hok.
      * split; [intros db' cause [= <-] _; rewrite Hexec; discriminate|].
        split; [|reflexivity]. intros _. exists db. split; [reflexivity|].
        right. exists n. rewrite Hexec. reflexivity.
Qed.

(** ** Decimal numerals *)

Ltac eval_digit :=
  match goal with
  | |- context [strconv.digit ?c] =>
      let v := eval vm_compute in (strconv.digit c) in
      change (strconv.digit c) with v
  end.

Lemma digits_of_uint_acc (u : Decimal.uint) (p : positive) :
  strconv.digits (Z.pos p) (NilEmpty.string_of_uint u)
  = Some (Z.pos (Pos.of_uint_acc u p)).
Proof.
  revert p. induction u; intros p; cbn [NilEmpty.string_of_uint Pos.of_uint_acc];
    [reflexivity | ..];
    cbn [strconv.digits]; eval_digit; cbv iota beta;
    rewrite <- IHu; f_equal; lia.
Qed.

Lemma digits_of_uint (u : Decimal.uint) :
  strconv.digits 0 (NilEmpty.string_of_uint u) = Some (Z.of_N (Pos.of_uint u)).
Proof.
  induction u; cbn [NilEmpty.string_of_uint Pos.of_uint]; [reflexivity | ..];
    cbn [strconv.digits]; eval_digit; cbv iota beta;
    [exact IHu | ..]; apply digits_of_uint_acc.
Qed.

Lemma to_uint_first_digit (p : positive) :
  exists (c : ascii) (t : string),
    NilEmpty.string_of_uint (Pos.to_uint p) = String c t
    /\ Ascii.eqb c "-" = false /\ Ascii.eqb c "+" = false.
Proof.
  pose proof (DecimalPos.Unsigned.of_to p) as Hp.
  destruct (Pos.to_uint p); cbn [NilEmpty.string_of_uint];
    [discriminate Hp | ..]; eexists _, _; repeat split.
Qed.

(** [Atoi] reads back what [FormatInt] prints, for every 64-bit integer. *)
Lemma Atoi_FormatInt (i : Z) :
  (- 2 ^ 63 <= i <= 2 ^ 63 - 1)%Z -> strconv.Atoi (strconv.FormatInt i) = Some i.
Proof.
  intros Hrange.
  assert (Hin : strconv.in_int i = true).
  { unfold strconv.in_int. apply andb_true_iff. split; apply Z.leb_le; lia. }
  unfold strconv.FormatInt. destruct i as [|p|p]; [reflexivity | |].
  - cbn [Z.to_int NilEmpty.string_of_int].
    pose proof (digits_of_uint (Pos.to_uint p)) as Hd.
    rewrite DecimalPos.Unsigned.of_to in Hd.
    destruct (to_uint_first_digit p) as (c & t & Hs & Hminus & Hplus).
    rewrite Hs in *. unfold strconv.Atoi. rewrite Hminus, Hplus, Hd.
    cbn. rewrite Hin. reflexivity.
  - cbn [Z.to_int NilEmpty.string_of_int].
    pose proof (digits_of_uint (Pos.to_uint p)) as Hd.
    rewrite DecimalPos.Unsigned.of_to in Hd.
    destruct (to_uint_first_digit p) as (c & t & Hs & _ & _).
    rewrite Hs in *. unfold strconv.Atoi. cbn [Ascii.eqb Bool.eqb].
    rewrite Hd. cbv beta iota. change (- Z.of_N (N.pos p))%Z with (Z.neg p).
    rewrite Hin. reflexivity.
Qed.

(** * Further properties of the configuration store *)

Lemma index_map_insert (m : gmap string string) (key key' value : string) :
  configuration_store.index_map (<[key := value]> m) key'
  = if decide (key = key') then value else configuration_store.index_map m key'.
Proof.
  unfold configuration_store.index_map. rewrite lookup_insert.
  destruct (decide (key = key')); reflexivity.
Qed.

Lemma index_map_empty (key : string) :
  configuration_store.index_map ∅ key = EmptyString.
Proof. unfold configuration_store.index_map. rewrite lookup_empty. reflexivity. Qed.

Lemma first_label (s : string) :
  strings.elem0 (strings.Split s ".") = membership.before "." s.
Proof. rewrite Split_one_byte. apply elem0_pieces. Qed.

Lemma update_is_first (u : configuration_store.Write)
    (creates : list configuration_store.Write) (ns : string)
    (obj : configuration_store.ClusterObj) :
  Forall (fun w => exists n c, w = configuration_store.WrCreateConfigMap n c) creates ->
  configuration_store.WrUpdateCluster ns obj ∈ u :: creates ->
  u = configuration_store.WrUpdateCluster ns obj.
Proof.
  intros Hcreates Hin. apply elem_of_cons in Hin as [-> | Hin]; [reflexivity|].
  rewrite Forall_forall in Hcreates.
  destruct (Hcreates _ Hin) as (n & c & Hw). discriminate Hw.
Qed.

Ltac distinct_keys H :=
  repeat match type of H with
         | NoDup (_ :: _) =>
             let Hnin := fresh "Hnin" in
             apply NoDup_cons in H as [Hnin H];
             repeat (apply not_elem_of_cons in Hnin as [? Hnin])
         end.

Ltac pick_key :=
  repeat match goal with
         | |- context [decide (?a = ?b)] =>
             destruct (decide (a = b)); [congruence|]
         end.

(** X13: The lease [Init] writes decodes to what [Init] meant.  Whenever [Init]
    sends the update of the cluster object, that object carries the
    resource version that was read, its annotations are exactly the four
    lease keys (whatever annotations the object had are replaced), and
    [newLeaderRecord] decodes them to: acquired and renewed at [now], led
    by the first dot-separated label of the primary pod name, with the
    TTL of the environment (0 when that is not a number). *)
Theorem Init_lease_round_trip :
  forall (SysID TTL LeaderName AcquireTime RenewTime MaxLagOnFailover : string)
         (ConfigSuffix ExtraSuffix KbPrimaryPodName KbTtl : string)
         (K ClusterConfig : Type) (api : configuration_store.ApiWriter K)
         (cs : configuration_store.ConfigurationStore ClusterConfig)
         (env : gmap string string) (now : Z) (sysID : string)
         (extra : option (gmap string string)) (k : K)
         (ns : string) (obj : configuration_store.ClusterObj),
    NoDup [LeaderName; AcquireTime; RenewTime; TTL] ->
    (- 2 ^ 63 <= now <= 2 ^ 63 - 1)%Z ->
    configuration_store.WrUpdateCluster ns obj
      ∈ (configuration_store.Init SysID TTL LeaderName AcquireTime RenewTime
           MaxLagOnFailover ConfigSuffix ExtraSuffix KbPrimaryPodName KbTtl api
           cs env now sysID extra k).2 ->
    (exists read : configuration_store.ClusterObj,
       configuration_store.Cluster_Get api (configuration_store.namespace cs)
         (configuration_store.clusterName cs) k = inr read
       /\ configuration_store.obj_ResourceVersion obj
          = configuration_store.obj_ResourceVersion read)
    /\ dom (configuration_store.obj_Annotations obj)
       = ({[LeaderName; AcquireTime; RenewTime; TTL]} : gset string)
    /\ configuration_store.newLeaderRecord TTL LeaderName AcquireTime RenewTime
         (configuration_store.obj_Annotations obj)
       = {| configuration_store.acquireTime := now;
            configuration_store.leader :=
              membership.before "." (configuration_store.index_map env KbPrimaryPodName);
            configuration_store.renewTime := now;
            configuration_store.ttl :=
              default 0%Z (strconv.Atoi (configuration_store.index_map env KbTtl)) |}.
Proof.
  intros SysID TTL LeaderName AcquireTime RenewTime MaxLagOnFailover ConfigSuffix
    ExtraSuffix KbPrimaryPodName KbTtl K ClusterConfig api cs env now sysID extra k ns obj
    Hkeys Hnow Hsent.
  unfold configuration_store.Init in Hsent.
  destruct (configuration_store.Cluster_Get api _ _ k) as [err|read] eqn:Hget;
    [cbn in Hsent; inversion Hsent|].
  assert (Hobj : obj = {| configuration_store.obj_ResourceVersion :=
                            configuration_store.obj_ResourceVersion read;
                          configuration_store.obj_Annotations :=
                            <[TTL:=configuration_store.index_map env KbTtl]>
                              (<[RenewTime:=strconv.FormatInt now]>
                                 (<[AcquireTime:=strconv.FormatInt now]>
                                    (<[LeaderName:=strings.elem0
                                         (strings.Split
                                            (configuration_store.index_map env KbPrimaryPodName)
                                            ".")]> ∅))) |}).
  { cbv zeta in Hsent.
    destruct (configuration_store.Cluster_Update api _ _ k) as [[e|] k1];
      [|destruct (configuration_store.ConfigMaps_Create api _ _ k1) as [[e|] k2];
        [|destruct extra as [extra|];
          [destruct (configuration_store.ConfigMaps_Create api _ _ k2) as [[e|] k3]|]]];
      cbn in Hsent; apply update_is_first in Hsent;
      try (repeat constructor; eauto); injection Hsent as _ <-; reflexivity. }
  subst obj. cbn [configuration_store.obj_ResourceVersion configuration_store.obj_Annotations].
  split; [exists read; split; reflexivity|].
  split.
  { rewrite !dom_insert_L, dom_empty_L. apply set_eq. intros key.
    rewrite !elem_of_union, !elem_of_singleton, elem_of_empty. tauto. }
  distinct_keys Hkeys.
  unfold configuration_store.newLeaderRecord.
  rewrite !index_map_insert, index_map_empty. pick_key.
  repeat (destruct (decide _); [|congruence]).
  rewrite (Atoi_FormatInt now Hnow), first_label.
  destruct (strconv.Atoi (configuration_store.index_map env KbTtl)); reflexivity.
Qed.

Lemma Init_lease_round_trip_witness :
  configuration_store.newLeaderRecord "ttl" "leaderName" "acquireTime" "renewTime"
    (configuration_store.obj_Annotations scenario.written_lease)
  = {| configuration_store.acquireTime := 1700000000;
       configuration_store.leader := "pod-0";
       configuration_store.renewTime := 1700000000;
       configuration_store.ttl := 30 |}.
Proof.
  apply (Init_lease_round_trip "sysID" "ttl" "leaderName" "acquireTime" "renewTime"
           "maxLagOnFailover" "-config" "-extra" "KB_PRIMARY_POD_NAME" "KB_TTL"
           scenario.Server unit scenario.server_api scenario.store0 scenario.sample_env
           1700000000%Z "sys-1" None scenario.server0 "default" scenario.written_lease).
  - refine (bool_decide_unpack (NoDup ["leaderName"; "acquireTime"; "renewTime"; "ttl"]) _).
    vm_compute. exact I.
  - lia.
  - vm_compute. constructor.
Defined.

(** X14: Bootstrap, then read back.  When [Init] succeeds it has sent, first,
    the update of the cluster object and, second, the creation of the
    config record named [clusterCompName + ConfigSuffix].  Materializing a
    snapshot from these two objects (no process records) gives the
    [sysID] passed to [Init], a leader named by the first label of the
    primary pod name, and an observed lease acquired and renewed at the
    time of [Init]. *)
Theorem Init_then_load :
  forall (SysID TTL LeaderName AcquireTime RenewTime MaxLagOnFailover : string)
         (ConfigSuffix ExtraSuffix KbPrimaryPodName KbTtl ScheduledAt Candidate : string)
         (K ClusterConfig Pod : Type) (api : configuration_store.ApiWriter K)
         (getMemberFromPod : option Pod -> option configuration_store.Member)
         (getClusterConfigFromConfigMap : configuration_store.ConfigMap -> ClusterConfig)
         (cs reader : configuration_store.ConfigurationStore ClusterConfig)
         (env : gmap string string) (now later : Z) (sysID : string)
         (extra : option (gmap string string)) (k : K),
    NoDup [LeaderName; AcquireTime; RenewTime; TTL] ->
    NoDup [SysID; TTL; MaxLagOnFailover] ->
    (- 2 ^ 63 <= now <= 2 ^ 63 - 1)%Z ->
    (configuration_store.Init SysID TTL LeaderName AcquireTime RenewTime
       MaxLagOnFailover ConfigSuffix ExtraSuffix KbPrimaryPodName KbTtl api
       cs env now sysID extra k).1.1 = None ->
    exists (obj : configuration_store.ClusterObj)
           (config : configuration_store.ConfigMap)
           (rest : list configuration_store.Write)
           (c : configuration_store.Cluster ClusterConfig)
           (reader' : configuration_store.ConfigurationStore ClusterConfig),
      (configuration_store.Init SysID TTL LeaderName AcquireTime RenewTime
         MaxLagOnFailover ConfigSuffix ExtraSuffix KbPrimaryPodName KbTtl api
         cs env now sysID extra k).2
      = configuration_store.WrUpdateCluster (configuration_store.namespace cs) obj
        :: configuration_store.WrCreateConfigMap (configuration_store.namespace cs) config
        :: rest
      /\ configuration_store.cm_Name config
         = configuration_store.clusterCompName cs ++ ConfigSuffix
      /\ configuration_store.loadClusterFromKubernetes SysID TTL LeaderName AcquireTime
           RenewTime ScheduledAt Candidate getMemberFromPod getClusterConfigFromConfigMap
           reader (Some config) None [] (Some obj) ∅ later
         = GoRuntime.Returned (c, reader')
      /\ configuration_store.c_SysID c = sysID
      /\ configuration_store.c_Leader c
         = Some (configuration_store.newLeader (configuration_store.obj_ResourceVersion obj)
                   (configuration_store.newMember "-1"
                      (membership.before "."
                         (configuration_store.index_map env KbPrimaryPodName)) ∅))
      /\ configuration_store.leaderObservedRecord reader'
         = Some {| configuration_store.acquireTime := now;
                   configuration_store.leader :=
                     membership.before "."
                       (configuration_store.index_map env KbPrimaryPodName);
                   configuration_store.renewTime := now;
                   configuration_store.ttl :=
                     default 0%Z
                       (strconv.Atoi (configuration_store.index_map env KbTtl)) |}
      /\ configuration_store.LeaderObservedTime reader' = later.
Proof.
  intros SysID TTL LeaderName AcquireTime RenewTime MaxLagOnFailover ConfigSuffix
    ExtraSuffix KbPrimaryPodName KbTtl ScheduledAt Candidate K ClusterConfig Pod api
    getMemberFromPod getClusterConfigFromConfigMap cs reader env now later sysID extra k
    Hlease Hconfig Hnow Hok.
  distinct_keys Hlease. distinct_keys Hconfig.
  assert (Hdecode :
      configuration_store.newLeaderRecord TTL LeaderName AcquireTime RenewTime
        (<[TTL:=configuration_store.index_map env KbTtl]>
           (<[RenewTime:=strconv.FormatInt now]>
              (<[AcquireTime:=strconv.FormatInt now]>
                 (<[LeaderName:=strings.elem0
                      (strings.Split (configuration_store.index_map env KbPrimaryPodName)
                         ".")]> ∅))))
      = {| configuration_store.acquireTime := now;
           configuration_store.leader :=
             membership.before "." (configuration_store.index_map env KbPrimaryPodName);
           configuration_store.renewTime := now;
           configuration_store.ttl :=
             default 0%Z (strconv.Atoi (configuration_store.index_map env KbTtl)) |}).
  { unfold configuration_store.newLeaderRecord.
    rewrite !index_map_insert, index_map_empty. pick_key.
    repeat (destruct (decide _); [|congruence]).
    rewrite (Atoi_FormatInt now Hnow), first_label.
    destruct (strconv.Atoi (configuration_store.index_map env KbTtl)); reflexivity. }
  unfold configuration_store.Init in *.
  destruct (configuration_store.Cluster_Get api _ _ k) as [err|read];
    [discriminate Hok|]. cbv zeta in *.
  destruct (configuration_store.Cluster_Update api _ _ k) as [[e|] k1];
    [discriminate Hok|].
  destruct (configuration_store.ConfigMaps_Create api _ _ k1) as [[e|] k2];
    [discriminate Hok|].
  assert (Hload :
    exists c reader',
      configuration_store.loadClusterFromKubernetes SysID TTL LeaderName AcquireTime
        RenewTime ScheduledAt Candidate getMemberFromPod getClusterConfigFromConfigMap
        reader
        (Some {| configuration_store.cm_Name :=
                   configuration_store.clusterCompName cs ++ ConfigSuffix;
                 configuration_store.cm_ResourceVersion := EmptyString;
                 configuration_store.cm_Annotations :=
                   <[MaxLagOnFailover:=configuration_store.index_map env MaxLagOnFailover]>
                     (<[TTL:=configuration_store.index_map env KbTtl]>
                        (<[SysID:=sysID]> ∅)) |})
        None []
        (Some {| configuration_store.obj_ResourceVersion :=
                   configuration_store.obj_ResourceVersion read;
                 configuration_store.obj_Annotations :=
                   <[TTL:=configuration_store.index_map env KbTtl]>
                     (<[RenewTime:=strconv.FormatInt now]>
                        (<[AcquireTime:=strconv.FormatInt now]>
                           (<[LeaderName:=strings.elem0
                                (strings.Split
                                   (configuration_store.index_map env KbPrimaryPodName)
                                   ".")]> ∅))) |})
        ∅ later
      = GoRuntime.Returned (c, reader')
      /\ configuration_store.c_SysID c = sysID
      /\ configuration_store.c_Leader c
         = Some (configuration_store.newLeader (configuration_store.obj_ResourceVersion read)
                   (configuration_store.newMember "-1"
                      (membership.before "."
                         (configuration_store.index_map env KbPrimaryPodName)) ∅))
      /\ configuration_store.leaderObservedRecord reader'
         = Some {| configuration_store.acquireTime := now;
                   configuration_store.leader :=
                     membership.before "."
                       (configuration_store.index_map env KbPrimaryPodName);
                   configuration_store.renewTime := now;
                   configuration_store.ttl :=
                     default 0%Z
                       (strconv.Atoi (configuration_store.index_map env KbTtl)) |}
      /\ configuration_store.LeaderObservedTime reader' = later).
  { unfold configuration_store.loadClusterFromKubernetes.
    cbn [configuration_store.cm_Annotations configuration_store.obj_Annotations
         configuration_store.obj_ResourceVersion length GoRuntime.make replicate
         configuration_store.members_range GoRuntime.obind].
    eexists _, _. split; [reflexivity|].
    cbn [configuration_store.c_SysID configuration_store.c_Leader
         configuration_store.leaderObservedRecord configuration_store.LeaderObservedTime].
    rewrite Hdecode.
    rewrite !index_map_insert, index_map_empty. pick_key.
    repeat (destruct (decide _); [|congruence]).
    rewrite first_label. repeat split. }
  destruct extra as [extra|].
  - destruct (configuration_store.ConfigMaps_Create api _ _ k2) as [[e|] k3];
      [discriminate Hok|].
    destruct Hload as (c & reader' & Hc).
    eexists _, _, _, c, reader'. split; [reflexivity|]. split; [reflexivity|]. exact Hc.
  - destruct Hload as (c & reader' & Hc).
    eexists _, _, _, c, reader'. split; [reflexivity|]. split; [reflexivity|]. exact Hc.
Qed.

Lemma Init_then_load_witness :
  (scenario.init_sample scenario.store0 scenario.sample_env 1700000000%Z "sys-1" None
     scenario.server0).1.1 = None
  /\ exists (obj : configuration_store.ClusterObj)
            (config : configuration_store.ConfigMap)
            (rest : list configuration_store.Write)
            (c : configuration_store.Cluster unit)
            (reader' : configuration_store.ConfigurationStore unit),
       (scenario.init_sample scenario.store0 scenario.sample_env 1700000000%Z "sys-1" None
          scenario.server0).2
       = configuration_store.WrUpdateCluster
           (configuration_store.namespace scenario.store0) obj
         :: configuration_store.WrCreateConfigMap
              (configuration_store.namespace scenario.store0) config
         :: rest
       /\ configuration_store.cm_Name config
          = configuration_store.clusterCompName scenario.store0 ++ "-config"
       /\ scenario.load_sample scenario.store0 (Some config) None [] (Some obj) ∅
            1700000005%Z
          = GoRuntime.Returned (c, reader')
       /\ configuration_store.c_SysID c = "sys-1"
       /\ configuration_store.c_Leader c
          = Some (configuration_store.newLeader (configuration_store.obj_ResourceVersion obj)
                    (configuration_store.newMember "-1"
                       (membership.before "."
                          (configuration_store.index_map scenario.sample_env
                             "KB_PRIMARY_POD_NAME")) ∅))
       /\ configuration_store.leaderObservedRecord reader'
          = Some {| configuration_store.acquireTime := 1700000000;
                    configuration_store.leader :=
                      membership.before "."
                        (configuration_store.index_map scenario.sample_env
                           "KB_PRIMARY_POD_NAME");
                    configuration_store.renewTime := 1700000000;
                    configuration_store.ttl :=
                      default 0%Z
                        (strconv.Atoi
                           (configuration_store.index_map scenario.sample_env "KB_TTL")) |}
       /\ configuration_store.LeaderObservedTime reader' = 1700000005%Z.
Proof.
  split; [vm_compute; reflexivity|].
  apply (Init_then_load "sysID" "ttl" "leaderName" "acquireTime" "renewTime"
           "maxLagOnFailover" "-config" "-extra" "KB_PRIMARY_POD_NAME" "KB_TTL"
           "scheduledAt" "candidate" scenario.Server unit string scenario.server_api
           scenario.member_of_pod (fun _ => tt) scenario.store0 scenario.store0
           scenario.sample_env 1700000000%Z 1700000005%Z "sys-1" None scenario.server0).
  - refine (bool_decide_unpack (NoDup ["leaderName"; "acquireTime"; "renewTime"; "ttl"]) _).
    vm_compute. exact I.
  - refine (bool_decide_unpack (NoDup ["sysID"; "ttl"; "maxLagOnFailover"]) _).
    vm_compute. exact I.
  - lia.
  - vm_compute. reflexivity.
Defined.

(** ** Refresh *)

(** X15: Every way [GetClusterFromKubernetes] can end.  It panics only when
    process records were listed.  An error it returns is the error of one
    of its three reads, and the store is left as it was.  A nil error
    comes either with the store untouched, when a listing returned a nil
    list without an error, or with a fresh snapshot, which has no
    members, no failover, an empty extra map, the leader and the lease
    read from the cluster object, and the observation time [now];
    [GetCluster] then returns that snapshot. *)
Theorem GetClusterFromKubernetes_outcomes :
  forall (SysID TTL LeaderName AcquireTime RenewTime ScheduledAt Candidate : string)
         (ConfigSuffix FailoverSuffix : string) (Pod ClusterConfig : Type)
         (getMemberFromPod : option Pod -> option configuration_store.Member)
         (getClusterConfigFromConfigMap : configuration_store.ConfigMap -> ClusterConfig)
         (sem : GoRuntime.LoopVar) (api : configuration_store.ApiServer Pod)
         (cs : configuration_store.ConfigurationStore ClusterConfig) (now : Z),
    match configuration_store.GetClusterFromKubernetes SysID TTL LeaderName AcquireTime
            RenewTime ScheduledAt Candidate ConfigSuffix FailoverSuffix getMemberFromPod
            getClusterConfigFromConfigMap sem api cs now with
    | GoRuntime.Panicked _ =>
        exists (pod : Pod) (items : list Pod),
          configuration_store.Pods_List api = (Some (pod :: items), None)
    | GoRuntime.Returned (Some err, cs') =>
        cs' = cs
        /\ ((configuration_store.Pods_List api).2 = Some err
            \/ (configuration_store.ConfigMaps_List api).2 = Some err
            \/ configuration_store.GetK8SClientObject api = inl err)
    | GoRuntime.Returned (None, cs') =>
        (cs' = cs
         /\ ((configuration_store.Pods_List api).1 = None
             \/ (configuration_store.ConfigMaps_List api).1 = None))
        \/ exists (c : configuration_store.Cluster ClusterConfig)
                  (obj : configuration_store.ClusterObj),
             configuration_store.GetK8SClientObject api = inr obj
             /\ configuration_store.GetCluster cs' = Some c
             /\ configuration_store.c_Members c = []
             /\ configuration_store.c_FailOver c = None
             /\ configuration_store.c_Extra c = ∅
             /\ configuration_store.c_Leader c
                = Some (configuration_store.newLeader
                          (configuration_store.obj_ResourceVersion obj)
                          (configuration_store.newMember "-1"
                             (configuration_store.index_map
                                (configuration_store.obj_Annotations obj) LeaderName) ∅))
             /\ configuration_store.leaderObservedRecord cs'
                = Some (configuration_store.newLeaderRecord TTL LeaderName AcquireTime
                          RenewTime (configuration_store.obj_Annotations obj))
             /\ configuration_store.LeaderObservedTime cs' = now
             /\ configuration_store.GetClusterName cs' = configuration_store.GetClusterName cs
    end.
Proof.
  intros. unfold configuration_store.GetClusterFromKubernetes.
  destruct (configuration_store.Pods_List api) as [[pods|] [err|]] eqn:Hpods; cbn;
    try (split; [reflexivity | left; reflexivity]);
    try (left; split; [reflexivity | left; reflexivity]).
  destruct (configuration_store.ConfigMaps_List api) as [[cms|] [err|]] eqn:Hcms; cbn;
    try (split; [reflexivity | right; left; reflexivity]);
    try (left; split; [reflexivity | right; reflexivity]).
  destruct (configuration_store.GetK8SClientObject api) as [err|obj] eqn:Hobj; cbn;
    [split; [reflexivity | right; right; reflexivity]|].
  destruct pods as [|pod items].
  - cbn [length GoRuntime.make replicate configuration_store.pods_range GoRuntime.obind].
    destruct (configuration_store.configs_range ConfigSuffix FailoverSuffix sem cs cms
                None [] None None) as [[config failoverConfig] hc].
    unfold configuration_store.loadClusterFromKubernetes.
    destruct (configuration_store.deref hc config); cbn;
      right; eexists _, obj; repeat split.
  - destruct sem; cbn; exists pod, items; reflexivity.
Qed.

(** ** Which ConfigMap a refresh reads *)

Lemma last_cons_fallback {T} (x : T) (l : list T) (fallback : option T) :
  match last (x :: l) with Some z => Some z | None => fallback end
  = match last l with Some z => Some z | None => Some x end.
Proof. rewrite last_cons. destruct (last l); reflexivity. Qed.

Lemma either_way {T U} (l : list T) (a : U) :
  match l with [] => a | _ :: _ => a end = a.
Proof. destruct l; reflexivity. Qed.

Lemma deref_app {T} (h extra : GoRuntime.Heap T) (p : option GoRuntime.Ptr) :
  (forall q, p = Some q -> (q < length h)%nat) ->
  configuration_store.deref (h ++ extra)%list p = configuration_store.deref h p.
Proof.
  intros Hp. destruct p as [q|]; [|reflexivity].
  unfold configuration_store.deref, GoRuntime.load. apply lookup_app_l. auto.
Qed.

(** With a fresh variable per iteration, [&cf] is a cell of its own. *)
Lemma configs_range_fresh {ClusterConfig} (ConfigSuffix FailoverSuffix : string)
    (cs : configuration_store.ConfigurationStore ClusterConfig)
    (items : list configuration_store.ConfigMap) :
  forall (var : option GoRuntime.Ptr) (h : GoRuntime.Heap configuration_store.ConfigMap)
         (config failoverConfig : option GoRuntime.Ptr),
    (forall q, config = Some q -> (q < length h)%nat) ->
    (forall q, failoverConfig = Some q -> (q < length h)%nat) ->
    let r := configuration_store.configs_range ConfigSuffix FailoverSuffix
               GoRuntime.PerIteration cs items var h config failoverConfig in
    r.2 = (h ++ items)%list
    /\ configuration_store.deref r.2 r.1.1
       = match last (filter (fun cf => selection.names_config cs ConfigSuffix cf = true) items)
         with
         | Some z => Some z
         | None => configuration_store.deref h config
         end
    /\ configuration_store.deref r.2 r.1.2
       = match last (filter (fun cf => selection.names_failover cs ConfigSuffix
                                         FailoverSuffix cf = true) items)
         with
         | Some z => Some z
         | None => configuration_store.deref h failoverConfig
         end.
Proof.
  induction items as [|cf rest IH]; intros var h config failoverConfig Hc Hf.
  - cbn. rewrite app_nil_r. done.
  - cbn [configuration_store.configs_range GoRuntime.enter_iteration GoRuntime.alloc].
    assert (Happ : ((h ++ [cf]) ++ rest = h ++ cf :: rest)%list)
      by (rewrite <- app_assoc; reflexivity).
    assert (Hnew : configuration_store.deref (h ++ [cf])%list (Some (length h)) = Some cf).
    { unfold configuration_store.deref, GoRuntime.load. apply list_lookup_middle. reflexivity. }
    assert (Hgrow : forall p : option GoRuntime.Ptr,
               (forall q, p = Some q -> (q < length h)%nat) ->
               forall q, p = Some q -> (q < length (h ++ [cf]))%nat).
    { intros p Hp q Hq. rewrite length_app. specialize (Hp q Hq). simpl. lia. }
    assert (Hhere : forall q, Some (length h) = Some q -> (q < length (h ++ [cf]))%nat).
    { intros q [= <-]. rewrite length_app. simpl. lia. }
    unfold selection.names_failover at 1. unfold selection.names_config at 1 3.
    destruct (String.eqb (configuration_store.cm_Name cf)
                (configuration_store.clusterCompName cs ++ ConfigSuffix)) eqn:Ecfg.
    + destruct (IH (Some (length h)) (h ++ [cf])%list (Some (length h)) failoverConfig
                  Hhere (Hgrow _ Hf)) as (Hh & Hcfg & Hfo); clear IH.
      cbv beta iota zeta. rewrite Happ in *. split; [exact Hh|]. split.
      * etrans; [exact Hcfg|]. rewrite Hnew, filter_cons_True by exact Ecfg.
        symmetry. apply last_cons_fallback.
      * etrans; [exact Hfo|]. rewrite filter_cons_False.
        { rewrite (deref_app h [cf] failoverConfig Hf). reflexivity. }
        unfold selection.names_failover, selection.names_config. rewrite Ecfg. done.
    + destruct (String.eqb (configuration_store.cm_Name cf)
                  (configuration_store.clusterCompName cs ++ FailoverSuffix)) eqn:Efo.
      * destruct (IH (Some (length h)) (h ++ [cf])%list config (Some (length h))
                    (Hgrow _ Hc) Hhere) as (Hh & Hcfg & Hfo); clear IH.
        cbv beta iota zeta. rewrite Happ in *. split; [exact Hh|]. split.
        { etrans; [exact Hcfg|]. rewrite filter_cons_False.
          - rewrite (deref_app h [cf] config Hc). reflexivity.
          - unfold selection.names_config. rewrite Ecfg. done. }
        etrans; [exact Hfo|]. rewrite Hnew, filter_cons_True.
        { symmetry. apply last_cons_fallback. }
        unfold selection.names_failover, selection.names_config. rewrite Ecfg, Efo.
        reflexivity.
      * destruct (IH (Some (length h)) (h ++ [cf])%list config failoverConfig
                    (Hgrow _ Hc) (Hgrow _ Hf)) as (Hh & Hcfg & Hfo); clear IH.
        cbv beta iota zeta. rewrite Happ in *. split; [exact Hh|]. split.
        { etrans; [exact Hcfg|]. rewrite filter_cons_False.
          - rewrite (deref_app h [cf] config Hc). reflexivity.
          - unfold selection.names_config. rewrite Ecfg. done. }
        etrans; [exact Hfo|]. rewrite filter_cons_False.
        { rewrite (deref_app h [cf] failoverConfig Hf). reflexivity. }
        unfold selection.names_failover, selection.names_config. rewrite Ecfg, Efo. done.
Qed.

(** With one variable per loop, [&cf] is always the same cell [p], which
    ends up holding the last item. *)
Lemma configs_range_shared {ClusterConfig} (ConfigSuffix FailoverSuffix : string)
    (cs : configuration_store.ConfigurationStore ClusterConfig)
    (items : list configuration_store.ConfigMap) :
  forall (p : GoRuntime.Ptr) (h : GoRuntime.Heap configuration_store.ConfigMap)
         (config failoverConfig : option GoRuntime.Ptr),
    (p < length h)%nat ->
    let r := configuration_store.configs_range ConfigSuffix FailoverSuffix
               GoRuntime.PerLoop cs items (Some p) h config failoverConfig in
    GoRuntime.load r.2 p
    = match last items with Some z => Some z | None => GoRuntime.load h p end
    /\ r.1.1
       = match filter (fun cf => selection.names_config cs ConfigSuffix cf = true) items with
         | [] => config
         | _ :: _ => Some p
         end
    /\ r.1.2
       = match filter (fun cf => selection.names_failover cs ConfigSuffix
                                   FailoverSuffix cf = true) items with
         | [] => failoverConfig
         | _ :: _ => Some p
         end.
Proof.
  induction items as [|cf rest IH]; intros p h config failoverConfig Hp.
  - cbn. done.
  - cbn [configuration_store.configs_range GoRuntime.enter_iteration].
    assert (Hp' : (p < length (<[p:=cf]> h))%nat) by (rewrite length_insert; exact Hp).
    assert (Hnew : GoRuntime.load (<[p:=cf]> h) p = Some cf).
    { unfold GoRuntime.load. apply list_lookup_insert_eq. exact Hp. }
    rewrite last_cons.
    unfold selection.names_failover at 1. unfold selection.names_config at 1 3.
    destruct (String.eqb (configuration_store.cm_Name cf)
                (configuration_store.clusterCompName cs ++ ConfigSuffix)) eqn:Ecfg.
    + destruct (IH p (<[p:=cf]> h) (Some p) failoverConfig Hp') as (Hl & Hcfg & Hfo); clear IH.
      cbv beta iota zeta. split; [|split].
      * etrans; [exact Hl|]. rewrite Hnew. destruct (last rest); reflexivity.
      * etrans; [exact Hcfg|]. rewrite filter_cons_True by exact Ecfg. apply either_way.
      * etrans; [exact Hfo|]. rewrite filter_cons_False; [reflexivity|].
        unfold selection.names_failover, selection.names_config. rewrite Ecfg. done.
    + destruct (String.eqb (configuration_store.cm_Name cf)
                  (configuration_store.clusterCompName cs ++ FailoverSuffix)) eqn:Efo.
      * destruct (IH p (<[p:=cf]> h) config (Some p) Hp') as (Hl & Hcfg & Hfo); clear IH.
        cbv beta iota zeta. split; [|split].
        { etrans; [exact Hl|]. rewrite Hnew. destruct (last rest); reflexivity. }
        { etrans; [exact Hcfg|]. rewrite filter_cons_False; [reflexivity|].
          unfold selection.names_config. rewrite Ecfg. done. }
        etrans; [exact Hfo|]. rewrite filter_cons_True.
        { apply either_way. }
        unfold selection.names_failover, selection.names_config. rewrite Ecfg, Efo.
        reflexivity.
      * destruct (IH p (<[p:=cf]> h) config failoverConfig Hp') as (Hl & Hcfg & Hfo); clear IH.
        cbv beta iota zeta. split; [|split].
        { etrans; [exact Hl|]. rewrite Hnew. destruct (last rest); reflexivity. }
        { etrans; [exact Hcfg|]. rewrite filter_cons_False; [reflexivity|].
          unfold selection.names_config. rewrite Ecfg. done. }
        etrans; [exact Hfo|]. rewrite filter_cons_False; [reflexivity|].
        unfold selection.names_failover, selection.names_config. rewrite Ecfg, Efo. done.
Qed.

(** X16: A refresh whose three reads succeed and list no process record,
    under the loop variables of Go 1.22 and later: the primary config is
    read from the LAST listed ConfigMap named [clusterCompName +
    ConfigSuffix]; without such a ConfigMap the snapshot has an empty
    SysID and no config. *)
Theorem refresh_config_per_iteration :
  forall (SysID TTL LeaderName AcquireTime RenewTime ScheduledAt Candidate : string)
         (ConfigSuffix FailoverSuffix : string) (Pod ClusterConfig : Type)
         (getMemberFromPod : option Pod -> option configuration_store.Member)
         (getClusterConfigFromConfigMap : configuration_store.ConfigMap -> ClusterConfig)
         (cs : configuration_store.ConfigurationStore ClusterConfig)
         (configMaps : list configuration_store.ConfigMap)
         (obj : configuration_store.ClusterObj) (now : Z),
    let chosen := last (filter (fun cf => selection.names_config cs ConfigSuffix cf = true)
                               configMaps) in
    exists (c : configuration_store.Cluster ClusterConfig)
           (cs' : configuration_store.ConfigurationStore ClusterConfig),
      configuration_store.GetClusterFromKubernetes SysID TTL LeaderName AcquireTime
        RenewTime ScheduledAt Candidate ConfigSuffix FailoverSuffix getMemberFromPod
        getClusterConfigFromConfigMap GoRuntime.PerIteration
        {| configuration_store.Pods_List := (Some [], None);
           configuration_store.ConfigMaps_List := (Some configMaps, None);
           configuration_store.GetK8SClientObject := inr obj |}
        cs now
      = GoRuntime.Returned (None, cs')
      /\ configuration_store.cluster cs' = Some c
      /\ configuration_store.c_SysID c = selection.sysid_of SysID chosen
      /\ configuration_store.c_Config c = getClusterConfigFromConfigMap <$> chosen.
Proof.
  intros. subst chosen. unfold configuration_store.GetClusterFromKubernetes.
  cbn [configuration_store.Pods_List configuration_store.ConfigMaps_List
       configuration_store.GetK8SClientObject length GoRuntime.make replicate
       configuration_store.pods_range GoRuntime.obind map].
  pose proof (configs_range_fresh ConfigSuffix FailoverSuffix cs configMaps None [] None None)
    as Hrange.
  destruct (configuration_store.configs_range ConfigSuffix FailoverSuffix
              GoRuntime.PerIteration cs configMaps None [] None None)
    as [[config failoverConfig] hc].
  destruct Hrange as (_ & Hconfig & _); [discriminate | discriminate |].
  cbn [fst snd] in Hconfig. unfold configuration_store.loadClusterFromKubernetes.
  rewrite Hconfig.
  destruct (last (filter _ configMaps)) as [cf|]; cbn; eexists _, _; repeat split.
Qed.

(** X17: The same refresh under the loop variables of Go 1.21 and before:
    [config] is the address of the one loop variable, so the primary
    config is read from the LAST listed ConfigMap, whatever its name, as
    soon as some listed ConfigMap is named [clusterCompName +
    ConfigSuffix]. *)
Theorem refresh_config_per_loop :
  forall (SysID TTL LeaderName AcquireTime RenewTime ScheduledAt Candidate : string)
         (ConfigSuffix FailoverSuffix : string) (Pod ClusterConfig : Type)
         (getMemberFromPod : option Pod -> option configuration_store.Member)
         (getClusterConfigFromConfigMap : configuration_store.ConfigMap -> ClusterConfig)
         (cs : configuration_store.ConfigurationStore ClusterConfig)
         (configMaps : list configuration_store.ConfigMap)
         (obj : configuration_store.ClusterObj) (now : Z),
    let chosen :=
      match filter (fun cf => selection.names_config cs ConfigSuffix cf = true) configMaps
      with
      | [] => None
      | _ :: _ => last configMaps
      end in
    exists (c : configuration_store.Cluster ClusterConfig)
           (cs' : configuration_store.ConfigurationStore ClusterConfig),
      configuration_store.GetClusterFromKubernetes SysID TTL LeaderName AcquireTime
        RenewTime ScheduledAt Candidate ConfigSuffix FailoverSuffix getMemberFromPod
        getClusterConfigFromConfigMap GoRuntime.PerLoop
        {| configuration_store.Pods_List := (Some [], None);
           configuration_store.ConfigMaps_List := (Some configMaps, None);
           configuration_store.GetK8SClientObject := inr obj |}
        cs now
      = GoRuntime.Returned (None, cs')
      /\ configuration_store.cluster cs' = Some c
      /\ configuration_store.c_SysID c = selection.sysid_of SysID chosen
      /\ configuration_store.c_Config c = getClusterConfigFromConfigMap <$> chosen.
Proof.
  intros. subst chosen. unfold configuration_store.GetClusterFromKubernetes.
  cbn [configuration_store.Pods_List configuration_store.ConfigMaps_List
       configuration_store.GetK8SClientObject length GoRuntime.make replicate
       configuration_store.pods_range GoRuntime.obind map].
  assert (Hconfig :
    configuration_store.deref
      (configuration_store.configs_range ConfigSuffix FailoverSuffix GoRuntime.PerLoop cs
         configMaps None [] None None).2
      (configuration_store.configs_range ConfigSuffix FailoverSuffix GoRuntime.PerLoop cs
         configMaps None [] None None).1.1
    = match filter (fun cf => selection.names_config cs ConfigSuffix cf = true) configMaps
      with
      | [] => None
      | _ :: _ => last configMaps
      end).
  { destruct configMaps as [|cf rest]; [reflexivity|].
    cbn [configuration_store.configs_range GoRuntime.enter_iteration GoRuntime.alloc
         app length].
    assert (H0 : (0 < length [cf])%nat) by (simpl; lia).
    assert (Hlast : match last rest with
                    | Some z => Some z
                    | None => GoRuntime.load [cf] 0%nat
                    end = last (cf :: rest)).
    { rewrite last_cons. destruct (last rest); reflexivity. }
    destruct (String.eqb (configuration_store.cm_Name cf)
                (configuration_store.clusterCompName cs ++ ConfigSuffix)) eqn:Ecfg.
    - destruct (configs_range_shared ConfigSuffix FailoverSuffix cs rest 0%nat [cf]
                  (Some 0%nat) None H0) as (Hl & Hcfg & _).
      cbv zeta in Hl, Hcfg. rewrite Hlast in Hl.
      rewrite filter_cons_True by exact Ecfg.
      etrans; [apply (f_equal (configuration_store.deref _) Hcfg)|].
      rewrite either_way. exact Hl.
    - destruct (String.eqb (configuration_store.cm_Name cf)
                  (configuration_store.clusterCompName cs ++ FailoverSuffix)).
      + destruct (configs_range_shared ConfigSuffix FailoverSuffix cs rest 0%nat [cf]
                    None (Some 0%nat) H0) as (Hl & Hcfg & _).
        cbv zeta in Hl, Hcfg. rewrite Hlast in Hl.
        rewrite filter_cons_False by (unfold selection.names_config; rewrite Ecfg; done).
        etrans; [apply (f_equal (configuration_store.deref _) Hcfg)|].
        destruct (filter _ rest); [reflexivity | exact Hl].
      + destruct (configs_range_shared ConfigSuffix FailoverSuffix cs rest 0%nat [cf]
                    None None H0) as (Hl & Hcfg & _).
        cbv zeta in Hl, Hcfg. rewrite Hlast in Hl.
        rewrite filter_cons_False by (unfold selection.names_config; rewrite Ecfg; done).
        etrans; [apply (f_equal (configuration_store.deref _) Hcfg)|].
        destruct (filter _ rest); [reflexivity | exact Hl]. }
  destruct (configuration_store.configs_range ConfigSuffix FailoverSuffix
              GoRuntime.PerLoop cs configMaps None [] None None)
    as [[config failoverConfig] hc].
  cbn [fst snd] in Hconfig. unfold configuration_store.loadClusterFromKubernetes.
  rewrite Hconfig.
  destruct (match filter _ configMaps with [] => None | _ :: _ => last configMaps end)
    as [cf|]; cbn; eexists _, _; repeat split.
Qed.

(** ** Another leader seen from this node *)

(** X12: Provided the roster lookup returns only roster members with the name
    asked for, a member returned by [HasOtherHealthyLeader] is a roster
    member whose name is the text of the local [CURRENT_LEADER] value
    before its first dot.  None is returned when reading the local status
    failed, when the local role reads exactly [Leader], or when
    [CURRENT_LEADER] is empty. *)
Theorem HasOtherHealthyLeader_host_label :
  forall (GetMemberWithName : dcs.Cluster -> string -> option dcs.Member)
         (clusterLocalInfo : option (gmap string mysql.CellData))
         (err : option GoRuntime.error) (cluster : dcs.Cluster) (m : dcs.Member),
    (forall (name : string) (found : dcs.Member),
       GetMemberWithName cluster name = Some found ->
       found ∈ dcs.Members cluster /\ dcs.Name found = name) ->
    wesql.HasOtherHealthyLeader GetMemberWithName clusterLocalInfo err cluster = Some m ->
    err = None
    /\ exists local : gmap string mysql.CellData,
         clusterLocalInfo = Some local
         /\ mysql.GetString local wesql.Role <> wesql.Leader
         /\ mysql.GetString local wesql.CurrentLeader <> EmptyString
         /\ m ∈ dcs.Members cluster
         /\ dcs.Name m = membership.before "." (mysql.GetString local wesql.CurrentLeader).
Proof.
  intros GetMemberWithName clusterLocalInfo err cluster m Hlookup.
  unfold wesql.HasOtherHealthyLeader.
  destruct err as [e|]; [discriminate|].
  destruct clusterLocalInfo as [local|]; [|discriminate].
  destruct (String.eqb_spec (mysql.GetString local wesql.Role) wesql.Leader) as [|Hrole];
    [discriminate|].
  destruct (String.eqb_spec (mysql.GetString local wesql.CurrentLeader) EmptyString)
    as [|Haddr]; [discriminate|].
  cbv zeta. rewrite first_label.
  destruct (0 <? length _)%nat; [|discriminate].
  intros Hfound. destruct (Hlookup _ _ Hfound) as [Hin Hname].
  split; [reflexivity|]. exists local. done.
Qed.

Lemma HasOtherHealthyLeader_host_label_witness :
  wesql.HasOtherHealthyLeader scenario.member_with_name (Some scenario.follower_row) None
    (scenario.led_by scenario.pod1 [scenario.pod0; scenario.pod1]) = Some scenario.pod1
  /\ dcs.Name scenario.pod1
     = membership.before "."
         (mysql.GetString scenario.follower_row wesql.CurrentLeader).
Proof.
  split; [vm_compute; reflexivity|].
  assert (Hlookup : forall (name : string) (found : dcs.Member),
             scenario.member_with_name
               (scenario.led_by scenario.pod1 [scenario.pod0; scenario.pod1]) name
             = Some found ->
             found ∈ dcs.Members (scenario.led_by scenario.pod1 [scenario.pod0; scenario.pod1])
             /\ dcs.Name found = name).
  { intros name found Hfind. unfold scenario.member_with_name in Hfind.
    apply find_some in Hfind as [Hin Hname].
    split; [apply list_elem_of_In; exact Hin | apply String.eqb_eq; exact Hname]. }
  destruct (HasOtherHealthyLeader_host_label scenario.member_with_name
              (Some scenario.follower_row) None
              (scenario.led_by scenario.pod1 [scenario.pod0; scenario.pod1])
              scenario.pod1 Hlookup eq_refl)
    as (_ & local & Hlocal & _ & _ & _ & Hname).
  injection Hlocal as <-. exact Hname.
Defined.

(** * Properties of the backup controller helpers *)

Lemma string_compare_refl (s : string) : String.compare s s = Eq.
Proof.
  induction s as [|c s IH]; [reflexivity|]. cbn.
  unfold Ascii.compare. rewrite N.compare_refl. exact IH.
Qed.

Lemma string_compare_lt_trans (a b c : string) :
  String.compare a b = Lt -> String.compare b c = Lt -> String.compare a c = Lt.
Proof.
  revert b c. induction a as [|x a IH]; intros [|y b] [|z c]; cbn; try done.
  unfold Ascii.compare.
  destruct (N.compare_spec (N_of_ascii x) (N_of_ascii y)) as [Hxy|Hxy|Hxy]; [| |done].
  - rewrite Hxy.
    destruct (N.compare_spec (N_of_ascii y) (N_of_ascii z)); [|done|done].
    apply IH.
  - intros _.
    destruct (N.compare_spec (N_of_ascii y) (N_of_ascii z)) as [Hyz|Hyz|Hyz]; [| |done].
    + intros _. rewrite <- Hyz. apply N.compare_lt_iff in Hxy. rewrite Hxy. reflexivity.
    + intros _. assert (H : (N_of_ascii x < N_of_ascii z)%N) by lia.
      apply N.compare_lt_iff in H. rewrite H. reflexivity.
Qed.

Lemma string_ltb_irrefl (s : string) : String.ltb s s = false.
Proof. unfold String.ltb. rewrite string_compare_refl. reflexivity. Qed.

Lemma string_ltb_trans (a b c : string) :
  String.ltb a b = true -> String.ltb b c = true -> String.ltb a c = true.
Proof.
  unfold String.ltb. intros Hab Hbc.
  rewrite (string_compare_lt_trans a b c); [reflexivity| |].
  - destruct (String.compare a b); done.
  - destruct (String.compare b c); done.
Qed.

Lemma string_ltb_connected (a b : string) :
  String.ltb a b = false -> String.ltb b a = false -> a = b.
Proof.
  unfold String.ltb. rewrite (String.compare_antisym b a).
  destruct (String.compare a b) eqn:E; cbn; try done.
  intros _ _. apply String.compare_eq_iff. exact E.
Qed.

(** X19: [Less] on a slice of backups is a strict total order on the pairs
    (start time, name): it is irreflexive and transitive, and two backups
    neither of which is less than the other have the same start time
    (both none, or the same instant) and the same name.  Backups with a
    start time come before those without; equal start times (also two
    missing ones) are ordered by name, byte by byte. *)
Theorem Less_strict_total_order :
  forall (o : list dataprotection.Backup) (i j k : nat) (a b c : dataprotection.Backup),
    o !! i = Some a -> o !! j = Some b -> o !! k = Some c ->
    dataprotection.Less o i i = GoRuntime.Returned false
    /\ (dataprotection.Less o i j = GoRuntime.Returned true ->
        dataprotection.Less o j k = GoRuntime.Returned true ->
        dataprotection.Less o i k = GoRuntime.Returned true)
    /\ (dataprotection.Less o i j = GoRuntime.Returned false ->
        dataprotection.Less o j i = GoRuntime.Returned false ->
        dataprotection.StartTimestamp a = dataprotection.StartTimestamp b
        /\ dataprotection.Name a = dataprotection.Name b)
    /\ (dataprotection.StartTimestamp a <> None ->
        dataprotection.StartTimestamp b = None ->
        dataprotection.Less o i j = GoRuntime.Returned true).
Proof.
  intros o i j k [na ta] [nb tb] [nc tc] Hi Hj Hk.
  unfold dataprotection.Less. rewrite Hi, Hj, Hk.
  cbn [dataprotection.StartTimestamp dataprotection.Name].
  repeat apply conj.
  - destruct ta as [ta|]; cbn; [rewrite Z.eqb_refl|]; rewrite string_ltb_irrefl; reflexivity.
  - destruct ta as [ta|], tb as [tb|], tc as [tc|]; cbn; try done;
      repeat match goal with
             | |- context [(?x =? ?y)%Z] => destruct (Z.eqb_spec x y); subst
             end;
      intros [= Hab] [= Hbc]; f_equal;
      try (by apply (string_ltb_trans na nb nc));
      try (apply Z.ltb_lt in Hab); try (apply Z.ltb_lt in Hbc);
      try (apply Z.ltb_lt); try lia.
  - destruct ta as [ta|], tb as [tb|]; cbn; try done;
      repeat match goal with
             | |- context [(?x =? ?y)%Z] => destruct (Z.eqb_spec x y); subst
             end;
      intros [= Hab] [= Hba];
      try (split; [reflexivity | by apply string_ltb_connected]).
    apply Z.ltb_ge in Hab, Hba. lia.
  - intros Ha ->. destruct ta as [ta|]; [reflexivity | done].
Qed.

(** X20: [Swap] on two indices in range exchanges the two backups and leaves
    the others where they are: the slice keeps its length and its
    elements, comparing the swapped positions gives what comparing them
    the other way round gave before, and swapping again restores the
    slice. *)
Theorem Swap_exchanges :
  forall (o : list dataprotection.Backup) (i j : nat) (a b : dataprotection.Backup),
    o !! i = Some a -> o !! j = Some b ->
    exists o' : list dataprotection.Backup,
      dataprotection.Swap o i j = GoRuntime.Returned o'
      /\ dataprotection.Len o' = dataprotection.Len o
      /\ o' !! i = Some b /\ o' !! j = Some a
      /\ (forall k : nat, k <> i -> k <> j -> o' !! k = o !! k)
      /\ o' ≡ₚ o
      /\ dataprotection.Less o' i j = dataprotection.Less o j i
      /\ dataprotection.Swap o' i j = GoRuntime.Returned o.
Proof.
  intros o i j a b Hi Hj.
  assert (Hli := lookup_lt_Some _ _ _ Hi). assert (Hlj := lookup_lt_Some _ _ _ Hj).
  assert (Hi' : <[j:=a]> (<[i:=b]> o) !! i = Some b).
  { destruct (decide (i = j)) as [->|Hne].
    - rewrite list_lookup_insert_eq by (rewrite length_insert; exact Hlj).
      congruence.
    - rewrite list_lookup_insert_ne by done.
      apply list_lookup_insert_eq. exact Hli. }
  assert (Hj' : <[j:=a]> (<[i:=b]> o) !! j = Some a).
  { apply list_lookup_insert_eq. rewrite length_insert. exact Hlj. }
  exists (<[j:=a]> (<[i:=b]> o)).
  unfold dataprotection.Swap, dataprotection.Less, dataprotection.Len.
  rewrite Hi, Hj, Hi', Hj'. repeat apply conj; try reflexivity.
  - rewrite !length_insert. reflexivity.
  - intros k Hki Hkj. rewrite !list_lookup_insert_ne by done. reflexivity.
  - apply Permutation_insert_swap; assumption.
  - f_equal. apply list_eq. intros k.
    destruct (decide (k = j)) as [->|Hkj].
    + rewrite list_lookup_insert_eq by (rewrite !length_insert; exact Hlj). congruence.
    + rewrite list_lookup_insert_ne by done.
      destruct (decide (k = i)) as [->|Hki].
      * rewrite list_lookup_insert_eq by (rewrite !length_insert; exact Hli). congruence.
      * rewrite !list_lookup_insert_ne by done. reflexivity.
Qed.

Lemma Swap_exchanges_witness :
  exists o' : list dataprotection.Backup,
    dataprotection.Swap
      [ {| dataprotection.Name := "b"; dataprotection.StartTimestamp := None |};
        {| dataprotection.Name := "a"; dataprotection.StartTimestamp := Some 5%Z |} ] 0 1
    = GoRuntime.Returned o'
    /\ o' !! 0%nat
       = Some {| dataprotection.Name := "a"; dataprotection.StartTimestamp := Some 5%Z |}.
Proof.
  destruct (Swap_exchanges
              [ {| dataprotection.Name := "b"; dataprotection.StartTimestamp := None |};
                {| dataprotection.Name := "a"; dataprotection.StartTimestamp := Some 5%Z |} ]
              0 1 _ _ eq_refl eq_refl)
    as (o' & Hrun & _ & H0 & _).
  exists o'. split; [exact Hrun | exact H0].
Defined.

Lemma Less_strict_total_order_witness :
  dataprotection.Less
    [ {| dataprotection.Name := "b"; dataprotection.StartTimestamp := None |};
      {| dataprotection.Name := "a"; dataprotection.StartTimestamp := Some 5%Z |};
      {| dataprotection.Name := "c"; dataprotection.StartTimestamp := Some 5%Z |} ] 1 0
  = GoRuntime.Returned true.
Proof.
  refine (proj2 (proj2 (proj2
            (Less_strict_total_order
               [ {| dataprotection.Name := "b"; dataprotection.StartTimestamp := None |};
                 {| dataprotection.Name := "a"; dataprotection.StartTimestamp := Some 5%Z |};
                 {| dataprotection.Name := "c"; dataprotection.StartTimestamp := Some 5%Z |} ]
               1 0 2 _ _ _ eq_refl eq_refl eq_refl))) _ eq_refl).
  discriminate.
Defined.

(** ** Names of the objects a backup policy creates *)

Lemma string_length_app (a b : string) :
  String.length (a ++ b) = (String.length a + String.length b)%nat.
Proof. induction a as [|c a IH]; [reflexivity|]. rewrite string_app_cons. cbn. lia. Qed.

Lemma substring_app_long (n : nat) (a b : string) :
  (n <= String.length a)%nat -> String.substring 0 n (a ++ b) = String.substring 0 n a.
Proof.
  revert a. induction n as [|n IH]; intros a Hn.
  - destruct a, b; reflexivity.
  - destruct a as [|c a]; [cbn in Hn; lia|]. rewrite string_app_cons. cbn.
    rewrite IH by (cbn in Hn; lia). reflexivity.
Qed.

Lemma substring_length (n : nat) (s : string) :
  String.length (String.substring 0 n s) = Nat.min n (String.length s).
Proof.
  revert s. induction n as [|n IH]; intros [|c s]; try reflexivity.
  cbn. rewrite IH. reflexivity.
Qed.

Lemma substring_is_prefix (n : nat) (s : string) :
  exists t : string, s = String.substring 0 n s ++ t.
Proof.
  revert s. induction n as [|n IH]; intros s.
  - exists s. destruct s; reflexivity.
  - destruct s as [|c s]; [exists EmptyString; reflexivity|].
    destruct (IH s) as [t Ht]. exists t. cbn. rewrite string_app_cons, <- Ht. reflexivity.
Qed.

(** X21: The name [getCreatedCRNameByBackupPolicy] gives is a prefix of
    [policy-namespace] of at most 30 bytes, followed by a dash and the
    backup type.  When [policy-namespace] has at most 30 bytes it is kept
    whole.  When the policy name alone has 30 bytes or more, the
    namespace does not enter the name, which then is the first 30 bytes
    of the policy name, a dash and the backup type: two policies of two
    namespaces whose names agree on the first 30 bytes get the same
    name. *)
Theorem getCreatedCRNameByBackupPolicy_shape :
  forall backupPolicyName backupPolicyNamespace backupType : string,
    (exists head tail : string,
       dataprotection.getCreatedCRNameByBackupPolicy
         backupPolicyName backupPolicyNamespace backupType
       = head ++ "-" ++ backupType
       /\ backupPolicyName ++ "-" ++ backupPolicyNamespace = head ++ tail
       /\ String.length head
          = Nat.min 30 (String.length backupPolicyName + 1
                        + String.length backupPolicyNamespace)
       /\ (String.length backupPolicyName + 1 + String.length backupPolicyNamespace <= 30
           -> tail = EmptyString)%nat)
    /\ String.length
         (dataprotection.getCreatedCRNameByBackupPolicy
            backupPolicyName backupPolicyNamespace backupType)
       = (Nat.min 30 (String.length backupPolicyName + 1
                      + String.length backupPolicyNamespace)
          + 1 + String.length backupType)%nat
    /\ ((30 <= String.length backupPolicyName)%nat ->
        dataprotection.getCreatedCRNameByBackupPolicy
          backupPolicyName backupPolicyNamespace backupType
        = String.substring 0 30 backupPolicyName ++ "-" ++ backupType).
Proof.
  intros p ns ty.
  unfold dataprotection.getCreatedCRNameByBackupPolicy, dataprotection.Sprintf_s_s.
  assert (Hlen : String.length (p ++ "-" ++ ns)
                 = (String.length p + 1 + String.length ns)%nat).
  { rewrite !string_length_app. cbn. lia. }
  assert (Hhead :
    exists head tail : string,
      (if (30 <? String.length (p ++ "-" ++ ns))%nat
       then String.substring 0 30 (p ++ "-" ++ ns) else p ++ "-" ++ ns) = head
      /\ p ++ "-" ++ ns = head ++ tail
      /\ String.length head = Nat.min 30 (String.length p + 1 + String.length ns)
      /\ (String.length p + 1 + String.length ns <= 30 -> tail = EmptyString)%nat).
  { destruct (Nat.ltb_spec 30 (String.length (p ++ "-" ++ ns))) as [Hlong|Hshort].
    - destruct (substring_is_prefix 30 (p ++ "-" ++ ns)) as [t Ht].
      exists (String.substring 0 30 (p ++ "-" ++ ns)), t.
      split; [reflexivity|]. split; [exact Ht|].
      rewrite substring_length, Hlen. split; [reflexivity | lia].
    - exists (p ++ "-" ++ ns), EmptyString.
      split; [reflexivity|]. rewrite string_app_nil_r.
      split; [reflexivity|]. rewrite Hlen in *. split; [lia | reflexivity]. }
  destruct Hhead as (head & tail & Hname & Hsplit & Hsize & Hshort).
  rewrite Hname. repeat apply conj.
  - exists head, tail. done.
  - rewrite !string_length_app, Hsize. cbn. lia.
  - intros Hp. rewrite <- Hname.
    destruct (Nat.ltb_spec 30 (String.length (p ++ "-" ++ ns))) as [_|Hshort'];
      [|rewrite Hlen in Hshort'; lia].
    rewrite substring_app_long by exact Hp. reflexivity.
Qed.

(** * Properties of the migration steps *)

Ltac step_cases :=
  repeat match goal with
         | |- context [String.eqb ?a ?b] => destruct (String.eqb_spec a b) as [->|?]
         end.

(** X22: [CliString] knows four steps: it answers [unknown] exactly for every
    other string (among them the declared steps [initStructLater],
    [initialization] and [preDelete]), it gives different steps different
    names, and it never answers [global]. *)
Theorem CliString_known_steps :
  forall s t : string,
    (migrationapi.CliString s = "unknown"
     <-> s ∉ [migrationapi.StepPreCheck; migrationapi.StepStructPreFullLoad;
              migrationapi.StepFullLoad; migrationapi.StepCdc])
    /\ (migrationapi.CliString s = migrationapi.CliString t ->
        migrationapi.CliString s <> "unknown" -> s = t)
    /\ migrationapi.CliString s <> migrationapi.CliStepGlobal
    /\ migrationapi.CliString migrationapi.StepStructAfterFullLoad = "unknown"
    /\ migrationapi.CliString migrationapi.StepInitialization = "unknown"
    /\ migrationapi.CliString migrationapi.StepPreDelete = "unknown".
Proof.
  intros s t.
  unfold migrationapi.CliString, migrationapi.CliStepGlobal, migrationapi.CliStepPreCheck,
    migrationapi.CliStepInitStruct, migrationapi.CliStepInitData, migrationapi.CliStepCdc.
  split; [split|repeat apply conj; try reflexivity].
  - rewrite !not_elem_of_cons.
    step_cases; try (intros H; discriminate H).
    intros _. repeat apply conj; try assumption. apply not_elem_of_nil.
  - rewrite !not_elem_of_cons. intros (H1 & H2 & H3 & H4 & _).
    step_cases; done.
  - step_cases; done.
  - step_cases; done.
Qed.

(** * Properties of the configuration-line scanner *)

Section ScannerProperties.
Import unstructured scanning.
Context (eof singleQuotes : rune).
Context (isEOF isSplitCharacter isQuotes isSingleQuotes isEscape : rune -> bool).
Context (DecodeRuneInString : string -> rune * nat).

(** What the scanner needs from the parts declared elsewhere: the end
    marker is recognised as such, and decoding a non-empty string reads
    at least one byte. *)
Hypothesis isEOF_eof : isEOF eof = true.
Hypothesis width_positive :
  forall s : string, s <> EmptyString -> (1 <= (DecodeRuneInString s).2)%nat.

Local Abbreviation next := (unstructured.next eof DecodeRuneInString).
Local Abbreviation peek := (unstructured.peek eof DecodeRuneInString).

Lemma slice_from_empty (s : string) (n : nat) :
  slice_from s n = EmptyString <-> (String.length s <= n)%nat.
Proof.
  revert s. induction n as [|n IH]; intros [|c s]; cbn.
  - split; [lia|reflexivity].
  - split; [done|lia].
  - split; [lia|reflexivity].
  - rewrite IH. lia.
Qed.

Lemma next_spec (f : fsm) :
  exists (r : rune) (w : nat),
    next f = (r, advanced w f)
    /\ ((empty f = true /\ r = eof /\ w = 0%nat)
        \/ (empty f = false /\ (1 <= w)%nat
            /\ DecodeRuneInString (slice_from (input f) (currentPos f)) = (r, w))).
Proof.
  unfold unstructured.next. destruct (empty f) eqn:E.
  - exists eof, 0%nat. split; [|left; done].
    unfold advanced, set_currentPos, set_lastScanWith. cbn. rewrite Nat.add_0_r. reflexivity.
  - destruct (DecodeRuneInString _) as [r w] eqn:D. exists r, w. split; [reflexivity|].
    right. split; [reflexivity|]. split; [|reflexivity].
    assert (Hne : slice_from (input f) (currentPos f) <> EmptyString).
    { rewrite slice_from_empty. unfold empty in E. apply Nat.leb_gt in E. lia. }
    specialize (width_positive _ Hne). rewrite D in width_positive. exact width_positive.
Qed.

Lemma peek_spec (f : fsm) :
  exists (r : rune) (w : nat),
    next f = (r, advanced w f) /\ peek f = (r, set_lastScanWith w f)
    /\ (empty f = true -> r = eof).
Proof.
  destruct (next_spec f) as (r & w & Hnext & Hcases). exists r, w.
  split; [exact Hnext|]. split.
  - unfold unstructured.peek. rewrite Hnext.
    unfold advanced, set_currentPos, set_lastScanWith. cbn. rewrite Nat.add_sub. reflexivity.
  - intros E. destruct Hcases as [(_ & -> & _)|(E' & _)]; [reflexivity | congruence].
Qed.

Lemma next_set_lastScanWith (w : nat) (f : fsm) :
  next (set_lastScanWith w f) = next f.
Proof. reflexivity. Qed.

Lemma continues_refl (f : fsm) : continues f f.
Proof.
  repeat split; [lia | exists []; rewrite app_nil_r; reflexivity | left; reflexivity].
Qed.

Lemma continues_trans (f g h : fsm) : continues f g -> continues g h -> continues f h.
Proof.
  intros (Hi & Hp & [a Ha] & He) (Hi' & Hp' & [a' Ha'] & He').
  repeat split.
  - congruence.
  - lia.
  - exists (a ++ a')%list. rewrite Ha', Ha, app_assoc. reflexivity.
  - destruct He' as [He'|He']; [rewrite He'; exact He | right; exact He'].
Qed.

Ltac scanner_fields :=
  unfold continues, rounds, remaining, advanced, appendRune, stateFailed, stateTokenEnd,
    empty, set_param, set_input, set_currentPos, set_lastScanWith, set_err, set_token in *;
  cbn [param input currentPos lastScanWith err token fst snd rank] in *.

Ltac raised_message :=
  unfold raised; rewrite !elem_of_cons; tauto.

Ltac scanner_continues :=
  scanner_fields;
  repeat apply conj;
  [ reflexivity
  | lia
  | first [ exists []; rewrite app_nil_r; reflexivity | eexists; reflexivity ]
  | first [ left; reflexivity
          | right; eexists; split; [reflexivity | raised_message] ] ].

Ltac not_empty H :=
  unfold empty in H; apply Nat.leb_gt in H.

Lemma prepareScan_progress (f : fsm) :
  exists (handle : option stateHandleFn) (f' : fsm),
    prepareScan eof isEOF isSplitCharacter isQuotes isSingleQuotes DecodeRuneInString f
    = (handle, f')
    /\ continues f f' /\ (rounds handle f' < rounds (Some PrepareScan) f)%nat.
Proof.
  destruct (next_spec f) as (r & w & Hnext & Hcases).
  unfold prepareScan. rewrite Hnext.
  destruct Hcases as [(_ & -> & ->)|(E & Hw & _)].
  - rewrite isEOF_eof. eexists _, _. split; [reflexivity|].
    split; [scanner_continues | scanner_fields; lia].
  - not_empty E.
    destruct (isEOF r), (isSplitCharacter r), (isQuotes r), (isSingleQuotes r);
      (eexists _, _; split; [reflexivity|];
       split; [scanner_continues | scanner_fields; lia]).
Qed.

Lemma stateEscape_spec (f : fsm) :
  continues f (stateEscape eof isEOF DecodeRuneInString f)
  /\ (remaining (stateEscape eof isEOF DecodeRuneInString f) <= remaining f)%nat.
Proof.
  destruct (next_spec f) as (r & w & Hnext & _).
  unfold stateEscape. rewrite Hnext.
  destruct (isEOF r); [split; [scanner_continues | scanner_fields; lia]|].
  repeat (destruct (_ =? _)%Z; [split; [scanner_continues | scanner_fields; lia]|]).
  split; [scanner_continues | scanner_fields; lia].
Qed.

Lemma stateQuotesString_progress (f : fsm) :
  exists (handle : option stateHandleFn) (f' : fsm),
    stateQuotesString eof isEOF isSplitCharacter isQuotes isEscape DecodeRuneInString f
    = (handle, f')
    /\ continues f f' /\ (rounds handle f' < rounds (Some StateQuotesString) f)%nat.
Proof.
  destruct (next_spec f) as (r & w & Hnext & Hcases).
  unfold stateQuotesString. rewrite Hnext.
  destruct (peek_spec (advanced w f)) as (n & w' & _ & Hpeek & _). rewrite Hpeek.
  destruct Hcases as [(_ & -> & ->)|(E & Hw & _)].
  - rewrite isEOF_eof. eexists _, _. split; [reflexivity|].
    split; [scanner_continues | scanner_fields; lia].
  - not_empty E.
    destruct (isEOF r);
      [eexists _, _; split; [reflexivity|];
       split; [scanner_continues | scanner_fields; lia]|].
    destruct (isQuotes r).
    { destruct (negb (isEOF n) && negb (isSplitCharacter n));
        (eexists _, _; split; [reflexivity|];
         split; [scanner_continues | scanner_fields; lia]). }
    destruct (isEscape r).
    { destruct (isEOF n);
        [eexists _, _; split; [reflexivity|];
         split; [scanner_continues | scanner_fields; lia]|].
      destruct (stateEscape_spec (set_lastScanWith w' (advanced w f))) as [Hc Hr].
      eexists _, _. split; [reflexivity|]. split.
      - eapply continues_trans; [|exact Hc]. scanner_continues.
      - unfold rounds. cbn [rank].
        assert (remaining (set_lastScanWith w' (advanced w f)) + 1 <= remaining f)%nat
          by (scanner_fields; lia).
        lia. }
    eexists _, _. split; [reflexivity|].
    split; [scanner_continues | scanner_fields; lia].
Qed.

Lemma stateSQuotesString_progress (f : fsm) :
  exists (handle : option stateHandleFn) (f' : fsm),
    stateSQuotesString eof singleQuotes isEOF isSplitCharacter isSingleQuotes isEscape
      DecodeRuneInString f
    = (handle, f')
    /\ continues f f' /\ (rounds handle f' < rounds (Some StateSQuotesString) f)%nat.
Proof.
  destruct (next_spec f) as (r & w & Hnext & Hcases).
  unfold stateSQuotesString. rewrite Hnext.
  destruct (peek_spec (advanced w f)) as (n & w' & _ & Hpeek & _). rewrite Hpeek.
  destruct Hcases as [(_ & -> & ->)|(E & Hw & _)].
  - rewrite isEOF_eof. eexists _, _. split; [reflexivity|].
    split; [scanner_continues | scanner_fields; lia].
  - not_empty E.
    destruct (isEOF r);
      [eexists _, _; split; [reflexivity|];
       split; [scanner_continues | scanner_fields; lia]|].
    destruct (isSingleQuotes r).
    { destruct (negb (isEOF n) && negb (isSplitCharacter n));
        (eexists _, _; split; [reflexivity|];
         split; [scanner_continues | scanner_fields; lia]). }
    destruct (isEscape r).
    { destruct (isSingleQuotes n).
      - destruct (next_spec (appendRune singleQuotes (set_lastScanWith w' (advanced w f))))
          as (r2 & w2 & Hnext2 & _).
        rewrite Hnext2. eexists _, _. split; [reflexivity|].
        split; [scanner_continues | scanner_fields; lia].
      - eexists _, _. split; [reflexivity|].
        split; [scanner_continues | scanner_fields; lia]. }
    eexists _, _. split; [reflexivity|].
    split; [scanner_continues | scanner_fields; lia].
Qed.

Lemma trim_loop_total (n : nat) :
  forall (f : fsm) (r : rune),
    (remaining f <= n)%nat -> (empty f = true -> r = eof) ->
    exists f' : fsm,
      (forall fuel : nat, (n <= fuel)%nat ->
         trim_loop eof isEOF isSplitCharacter DecodeRuneInString fuel r f = Some f')
      /\ continues f f' /\ (remaining f' <= remaining f)%nat.
Proof.
  induction n as [|n IH]; intros f r Hrem Hempty.
  - exists f. split; [|split; [apply continues_refl | lia]].
    intros fuel _.
    assert (Hstop : negb (isEOF r) && isSplitCharacter r = false).
    { rewrite Hempty; [rewrite isEOF_eof; reflexivity|].
      unfold empty. apply Nat.leb_le. unfold remaining in Hrem. lia. }
    destruct fuel; cbn; rewrite Hstop; reflexivity.
  - destruct (negb (isEOF r) && isSplitCharacter r) eqn:Hcond.
    + assert (E : empty f = false).
      { destruct (empty f) eqn:E; [|reflexivity].
        rewrite (Hempty eq_refl), isEOF_eof in Hcond. discriminate. }
      destruct (next_spec f) as (r0 & w & Hnext & Hcases).
      destruct Hcases as [(E' & _)|(_ & Hw & _)]; [congruence|].
      destruct (peek_spec (advanced w f)) as (r' & w' & _ & Hpeek & Hend).
      not_empty E.
      destruct (IH (set_lastScanWith w' (advanced w f)) r') as (f' & Hrun & Hc & Hr).
      * scanner_fields. lia.
      * exact Hend.
      * exists f'. split; [|split].
        -- intros [|fuel] Hfuel; [lia|]. cbn. rewrite Hcond, Hnext, Hpeek.
           apply Hrun. lia.
        -- eapply continues_trans; [|exact Hc]. scanner_continues.
        -- etrans; [exact Hr|]. scanner_fields. lia.
    + exists f. split; [|split; [apply continues_refl | lia]].
      intros fuel _. destruct fuel; cbn; rewrite Hcond; reflexivity.
Qed.

Lemma call_progress (handle : stateHandleFn) (f : fsm) :
  exists (handle' : option stateHandleFn) (f' : fsm),
    (forall fuel : nat, (remaining f <= fuel)%nat ->
       call eof singleQuotes isEOF isSplitCharacter isQuotes isSingleQuotes isEscape
         DecodeRuneInString fuel handle f = Some (handle', f'))
    /\ continues f f' /\ (rounds handle' f' < rounds (Some handle) f)%nat.
Proof.
  destruct handle; cbn [call].
  - destruct (prepareScan_progress f) as (h & f' & -> & Hc & Hr). eauto.
  - unfold stateEOF. destruct (0 <? length (token f))%nat;
      (eexists _, _; split; [reflexivity|];
       split; [scanner_continues | scanner_fields; lia]).
  - eexists _, _. split; [reflexivity|].
    split; [scanner_continues | scanner_fields; lia].
  - unfold stateTrimSplitCharacters.
    destruct (peek_spec f) as (r & w & _ & Hpeek & Hend). rewrite Hpeek.
    destruct (trim_loop_total (remaining f) (set_lastScanWith w f) r)
      as (f' & Hrun & Hc & Hr); [scanner_fields; lia | exact Hend |].
    exists (Some PrepareScan), f'. split; [|split].
    + intros fuel Hfuel. rewrite (Hrun fuel Hfuel). reflexivity.
    + eapply continues_trans; [|exact Hc]. scanner_continues.
    + unfold rounds. cbn [rank].
      assert (remaining (set_lastScanWith w f) = remaining f) by reflexivity. lia.
  - destruct (stateQuotesString_progress f) as (h & f' & -> & Hc & Hr). eauto.
  - destruct (stateSQuotesString_progress f) as (h & f' & -> & Hc & Hr). eauto.
Qed.

Lemma scan_total (n : nat) :
  forall (handle : option stateHandleFn) (f : fsm),
    (rounds handle f <= n)%nat ->
    exists f' : fsm,
      (forall fuel : nat, (n <= fuel)%nat ->
         scan eof singleQuotes isEOF isSplitCharacter isQuotes isSingleQuotes isEscape
           DecodeRuneInString fuel handle f = Some f')
      /\ continues f f'.
Proof.
  induction n as [|n IH]; intros [handle|] f Hn.
  - unfold rounds in Hn. lia.
  - exists f. split; [intros [|fuel] _; reflexivity | apply continues_refl].
  - destruct (call_progress handle f) as (handle' & f1 & Hcall & Hc & Hr).
    destruct (IH handle' f1) as (f' & Hscan & Hc'); [lia|].
    exists f'. split; [|eapply continues_trans; eassumption].
    intros [|fuel] Hfuel; [lia|]. cbn [scan].
    rewrite Hcall by (unfold rounds in Hn; lia). apply Hscan. lia.
  - exists f. split; [intros [|fuel] _; reflexivity | apply continues_refl].
Qed.

Local Abbreviation scan :=
  (unstructured.scan eof singleQuotes isEOF isSplitCharacter isQuotes isSingleQuotes
     isEscape DecodeRuneInString).
Local Abbreviation Parse :=
  (unstructured.Parse eof singleQuotes isEOF isSplitCharacter isQuotes isSingleQuotes
     isEscape DecodeRuneInString).
Local Abbreviation runes := (unstructured.runes DecodeRuneInString).

Lemma Parse_scan (fuel : nat) (f : fsm) (line : string) :
  Parse fuel f line
  = match scan (S fuel) (Some PrepareScan) (set_input line f) with
    | Some f' => Some (err f', f')
    | None => None
    end.
Proof.
  unfold unstructured.Parse. cbn [unstructured.scan call].
  destruct (prepareScan _ _ _ _ _ _ _) as [handle f']. reflexivity.
Qed.

Lemma scan_nil (fuel : nat) (f : fsm) : scan fuel None f = Some f.
Proof. destruct fuel; reflexivity. Qed.

Lemma slice_from_length (s : string) (n : nat) :
  String.length (slice_from s n) = (String.length s - n)%nat.
Proof.
  revert s. induction n as [|n IH]; intros [|c s]; cbn; try reflexivity. apply IH.
Qed.

Lemma slice_from_add (s : string) (n m : nat) :
  slice_from s (n + m) = slice_from (slice_from s n) m.
Proof.
  revert s. induction n as [|n IH]; intros s; [reflexivity|].
  destruct s as [|c s]; cbn; [destruct m; reflexivity | apply IH].
Qed.

Lemma next_at_end (f : fsm) :
  slice_from (input f) (currentPos f) = EmptyString -> next f = (eof, advanced 0 f).
Proof.
  intros Hs. destruct (next_spec f) as (r & w & Hnext & [(_ & -> & ->)|(E & _)]);
    [exact Hnext|].
  apply slice_from_empty in Hs. not_empty E. lia.
Qed.

Lemma next_decodes (f : fsm) (r : rune) (w : nat) :
  slice_from (input f) (currentPos f) <> EmptyString ->
  DecodeRuneInString (slice_from (input f) (currentPos f)) = (r, w) ->
  next f = (r, advanced w f) /\ (1 <= w)%nat.
Proof.
  intros Hs Hd. destruct (next_spec f) as (r' & w' & Hnext & [(E & _)|(_ & Hw & Hd')]).
  - exfalso. apply Hs. apply slice_from_empty. unfold empty in E.
    apply Nat.leb_le in E. exact E.
  - rewrite Hd in Hd'. injection Hd' as <- <-. done.
Qed.

(** X23: [Parse] returns, whatever the line and whatever state the scanner
    was left in: a number of rounds linear in the length of the line is
    enough.  The scanner it leaves holds the line, the tokens it held
    before followed by the new ones, and as error the one it held before
    or one of the three the scanner raises; that error is the result. *)
Theorem Parse_returns :
  forall (f : fsm) (line : string),
    exists f' : fsm,
      (forall fuel : nat, (3 * String.length line + 1 <= fuel)%nat ->
         Parse fuel f line = Some (err f', f'))
      /\ input f' = line
      /\ (exists added : list (list rune), param f' = (param f ++ added)%list)
      /\ (err f' = err f \/ exists msg : string, err f' = Some msg /\ msg ∈ raised).
Proof.
  intros f line.
  destruct (scan_total (3 * String.length line + 2) (Some PrepareScan) (set_input line f))
    as (f' & Hscan & Hi & _ & Hp & He).
  { scanner_fields. lia. }
  exists f'. split; [|done].
  intros fuel Hfuel. rewrite Parse_scan, Hscan by lia. reflexivity.
Qed.

Lemma scan_bare_word (n : nat) :
  forall f : fsm,
    (String.length (slice_from (input f) (currentPos f)) <= n)%nat ->
    Forall (fun r => plain isEOF isSplitCharacter isQuotes isSingleQuotes r = true)
      (runes n (slice_from (input f) (currentPos f))) ->
    exists f' : fsm,
      (forall fuel : nat, (n + 2 <= fuel)%nat -> scan fuel (Some PrepareScan) f = Some f')
      /\ err f' = err f
      /\ param f'
         = (param f
            ++ match (token f ++ runes n (slice_from (input f) (currentPos f)))%list with
               | [] => []
               | t => [t]
               end)%list.
Proof.
  assert (Hend : forall (m : nat) (f : fsm),
             slice_from (input f) (currentPos f) = EmptyString ->
             exists f' : fsm,
               (forall fuel : nat, (m + 2 <= fuel)%nat ->
                  scan fuel (Some PrepareScan) f = Some f')
               /\ err f' = err f
               /\ param f'
                  = (param f ++ match (token f ++ [])%list with [] => [] | t => [t] end)%list).
  { intros m f Hs. rewrite app_nil_r.
    exists (if (0 <? length (token f))%nat
            then (stateTokenEnd (advanced 0 f)).2 else advanced 0 f).
    split; [|split].
    - intros [|[|fuel]] Hfuel; [lia|lia|].
      cbn [unstructured.scan call]. unfold prepareScan.
      rewrite (next_at_end f Hs), isEOF_eof.
      cbn [unstructured.scan call]. unfold stateEOF.
      change (token (advanced 0 f)) with (token f).
      destruct (0 <? length (token f))%nat; apply scan_nil.
    - destruct (0 <? length (token f))%nat; reflexivity.
    - destruct (token f) as [|t ts] eqn:Ht; cbn [length Nat.ltb Nat.leb];
        scanner_fields; rewrite ?Ht, ?app_nil_r; reflexivity. }
  induction n as [|n IH]; intros f Hlen Hplain.
  - assert (Hs : slice_from (input f) (currentPos f) = EmptyString).
    { destruct (slice_from _ _); [reflexivity | cbn in Hlen; lia]. }
    destruct (Hend 0%nat f Hs) as (f' & Hrun & He & Hp). exists f'. done.
  - destruct (slice_from (input f) (currentPos f)) as [|c s] eqn:Hs.
    { destruct (Hend (S n) f Hs) as (f' & Hrun & He & Hp). exists f'. done. }
    cbn [unstructured.runes] in Hplain |- *.
    destruct (DecodeRuneInString (String c s)) as [r w] eqn:Hd.
    apply Forall_cons in Hplain as [Hr Hrest].
    destruct (next_decodes f r w) as [Hnext Hw]; [rewrite Hs; done | rewrite Hs; exact Hd|].
    unfold plain in Hr. apply andb_true_iff in Hr as [Hr Hsq].
    apply andb_true_iff in Hr as [Hr Hq]. apply andb_true_iff in Hr as [He Hsp].
    apply negb_true_iff in He, Hsp, Hq, Hsq.
    assert (Hs' : slice_from (input (appendRune r (advanced w f)))
                    (currentPos (appendRune r (advanced w f)))
                  = slice_from (String c s) w).
    { scanner_fields. rewrite slice_from_add, Hs. reflexivity. }
    destruct (IH (appendRune r (advanced w f))) as (f' & Hrun & Herr & Hp).
    + rewrite Hs', slice_from_length. cbn in Hlen |- *. lia.
    + rewrite Hs'. exact Hrest.
    + exists f'. split; [|split].
      * intros [|fuel] Hfuel; [lia|].
        cbn [unstructured.scan call]. unfold prepareScan.
        rewrite Hnext, He, Hsp, Hq, Hsq. apply Hrun. lia.
      * exact Herr.
      * rewrite Hp, Hs'. scanner_fields. rewrite <- app_assoc. reflexivity.
Qed.

(** X24: A line made of plain runes only (none is the end marker, a split
    character, a quote or a single quote) is one token: a fresh scanner
    parses it without error into the single token made of the runes of
    the line.  The empty line gives no token. *)
Theorem Parse_bare_word :
  forall line : string,
    Forall (fun r => plain isEOF isSplitCharacter isQuotes isSingleQuotes r = true)
      (runes (String.length line) line) ->
    exists f' : fsm,
      (forall fuel : nat, (String.length line + 1 <= fuel)%nat ->
         Parse fuel fresh line = Some (None, f'))
      /\ param f'
         = match runes (String.length line) line with
           | [] => []
           | t => [t]
           end.
Proof.
  intros line Hplain.
  destruct (scan_bare_word (String.length line) (set_input line fresh))
    as (f' & Hrun & He & Hp); [cbn; lia | exact Hplain |].
  exists f'. split.
  - intros fuel Hfuel. rewrite Parse_scan, Hrun by lia.
    cbn in He. rewrite He. reflexivity.
  - exact Hp.
Qed.

(** X25: A line that begins with a split character gives an empty first
    token: [prepareScan] ends the (still empty) token at the first split
    character it meets. *)
Theorem Parse_leading_split_character :
  forall (line : string) (r : rune) (w : nat),
    line <> EmptyString ->
    DecodeRuneInString line = (r, w) ->
    isEOF r = false -> isSplitCharacter r = true ->
    exists f' : fsm,
      (forall fuel : nat, (3 * String.length line + 1 <= fuel)%nat ->
         Parse fuel fresh line = Some (err f', f'))
      /\ exists rest : list (list rune), param f' = [] :: rest.
Proof.
  intros line r w Hline Hd He Hsp.
  destruct (next_decodes (set_input line fresh) r w) as [Hnext Hw]; [done | exact Hd|].
  destruct (scan_total (3 * String.length line) (Some StateTrimSplitCharacters)
              (stateTokenEnd (advanced w (set_input line fresh))).2)
    as (f' & Hscan & _ & _ & [added Hp] & _).
  { assert (1 <= String.length line)%nat by (destruct line; [done | cbn; lia]).
    scanner_fields. lia. }
  unfold stateTokenEnd in Hscan, Hp. cbn [snd] in Hscan, Hp.
  exists f'. split; [|exists added; exact Hp].
  intros [|fuel] Hfuel; [lia|].
  rewrite Parse_scan. cbn [unstructured.scan call]. unfold prepareScan.
  rewrite Hnext, He, Hsp. cbn [unstructured.scan call]. unfold stateTokenEnd.
  rewrite Hscan by lia. reflexivity.
Qed.

Lemma scan_open_quotes (n : nat) :
  forall f : fsm,
    (String.length (slice_from (input f) (currentPos f)) <= n)%nat ->
    Forall (fun r => isEOF r = false /\ isQuotes r = false /\ isEscape r = false)
      (runes n (slice_from (input f) (currentPos f))) ->
    exists f' : fsm,
      (forall fuel : nat, (n + 1 <= fuel)%nat ->
         scan fuel (Some StateQuotesString) f = Some f')
      /\ err f' = Some "unterminated quotes." /\ param f' = param f.
Proof.
  assert (Hend : forall (m : nat) (f : fsm),
             slice_from (input f) (currentPos f) = EmptyString ->
             exists f' : fsm,
               (forall fuel : nat, (m + 1 <= fuel)%nat ->
                  scan fuel (Some StateQuotesString) f = Some f')
               /\ err f' = Some "unterminated quotes." /\ param f' = param f).
  { intros m f Hs. eexists. split; [|split].
    - intros [|fuel] Hfuel; [lia|].
      cbn [unstructured.scan call]. unfold stateQuotesString.
      rewrite (next_at_end f Hs), isEOF_eof. unfold stateFailed. apply scan_nil.
    - reflexivity.
    - reflexivity. }
  induction n as [|n IH]; intros f Hlen Hinert.
  - apply (Hend 0%nat).
    destruct (slice_from _ _); [reflexivity | cbn in Hlen; lia].
  - destruct (slice_from (input f) (currentPos f)) as [|c s] eqn:Hs.
    { apply (Hend (S n)). exact Hs. }
    cbn [unstructured.runes] in Hinert.
    destruct (DecodeRuneInString (String c s)) as [r w] eqn:Hd.
    apply Forall_cons in Hinert as [(He & Hq & Hesc) Hrest].
    destruct (next_decodes f r w) as [Hnext Hw]; [rewrite Hs; done | rewrite Hs; exact Hd|].
    assert (Hs' : slice_from (input (appendRune r (advanced w f)))
                    (currentPos (appendRune r (advanced w f)))
                  = slice_from (String c s) w).
    { scanner_fields. rewrite slice_from_add, Hs. reflexivity. }
    destruct (IH (appendRune r (advanced w f))) as (f' & Hrun & Herr & Hp).
    + rewrite Hs', slice_from_length. cbn in Hlen |- *. lia.
    + rewrite Hs'. exact Hrest.
    + exists f'. split; [|split; [exact Herr | exact Hp]].
      intros [|fuel] Hfuel; [lia|].
      cbn [unstructured.scan call]. unfold stateQuotesString.
      rewrite Hnext, He, Hq, Hesc. apply Hrun. lia.
Qed.

(** X26: A line that opens a quote and never closes it (after the quote comes
    no quote, no escape and no end marker) is refused with the error
    [unterminated quotes.], and no token is added: what was read inside
    the quotes is dropped. *)
Theorem Parse_unterminated_quotes :
  forall (line : string) (q : rune) (w : nat),
    line <> EmptyString ->
    DecodeRuneInString line = (q, w) ->
    isEOF q = false -> isSplitCharacter q = false -> isQuotes q = true ->
    Forall (fun r => isEOF r = false /\ isQuotes r = false /\ isEscape r = false)
      (runes (String.length line) (slice_from line w)) ->
    exists f' : fsm,
      (forall fuel : nat, (String.length line + 1 <= fuel)%nat ->
         Parse fuel fresh line = Some (Some "unterminated quotes.", f'))
      /\ param f' = [].
Proof.
  intros line q w Hline Hd He Hsp Hq Hinert.
  destruct (next_decodes (set_input line fresh) q w) as [Hnext Hw]; [done | exact Hd|].
  destruct (scan_open_quotes (String.length line) (advanced w (set_input line fresh)))
    as (f' & Hscan & Herr & Hp).
  { scanner_fields. rewrite slice_from_length. lia. }
  { exact Hinert. }
  exists f'. split; [|exact Hp].
  intros fuel Hfuel.
  unfold unstructured.Parse, prepareScan. rewrite Hnext, He, Hsp, Hq.
  rewrite Hscan by lia. rewrite Herr. reflexivity.
Qed.

End ScannerProperties.

Lemma decode_ascii_width (s : string) :
  s <> EmptyString -> (1 <= (scanning.decode_ascii s).2)%nat.
Proof. destruct s; [done | cbn; lia]. Qed.

Lemma Parse_returns_witness :
  exists f' : unstructured.fsm,
    scanning.sample_Parse 40 unstructured.fresh "set 'a b' c"
    = Some (unstructured.err f', f')
    /\ unstructured.input f' = "set 'a b' c".
Proof.
  destruct (Parse_returns scanning.sample_eof scanning.sample_singleQuotes
              scanning.sample_isEOF scanning.sample_isSplitCharacter
              scanning.sample_isQuotes scanning.sample_isSingleQuotes
              scanning.sample_isEscape scanning.decode_ascii
              eq_refl decode_ascii_width unstructured.fresh "set 'a b' c")
    as (f' & Hrun & Hinput & _).
  exists f'. split; [apply Hrun; vm_compute; lia | exact Hinput].
Defined.

Lemma Parse_bare_word_witness :
  exists f' : unstructured.fsm,
    scanning.sample_Parse 12 unstructured.fresh "appendonly"
    = Some (None, f')
    /\ unstructured.param f'
       = [[97; 112; 112; 101; 110; 100; 111; 110; 108; 121]%Z].
Proof.
  destruct (Parse_bare_word scanning.sample_eof scanning.sample_singleQuotes
              scanning.sample_isEOF scanning.sample_isSplitCharacter
              scanning.sample_isQuotes scanning.sample_isSingleQuotes
              scanning.sample_isEscape scanning.decode_ascii
              eq_refl decode_ascii_width "appendonly")
    as (f' & Hrun & Hparam).
  - repeat constructor.
  - exists f'. split; [apply Hrun; vm_compute; lia | exact Hparam].
Defined.

Lemma Parse_leading_split_character_witness :
  exists f' : unstructured.fsm,
    scanning.sample_Parse 10 unstructured.fresh " on"
    = Some (unstructured.err f', f')
    /\ exists rest : list (list unstructured.rune), unstructured.param f' = [] :: rest.
Proof.
  destruct (Parse_leading_split_character scanning.sample_eof scanning.sample_singleQuotes
              scanning.sample_isEOF scanning.sample_isSplitCharacter
              scanning.sample_isQuotes scanning.sample_isSingleQuotes
              scanning.sample_isEscape scanning.decode_ascii
              eq_refl decode_ascii_width " on" 32%Z 1%nat)
    as (f' & Hrun & Hparam); try reflexivity; [discriminate|].
  exists f'. split; [apply Hrun; vm_compute; lia | exact Hparam].
Defined.

Lemma Parse_unterminated_quotes_witness :
  exists f' : unstructured.fsm,
    scanning.sample_Parse 10 unstructured.fresh scanning.open_quote_line
    = Some (Some "unterminated quotes.", f')
    /\ unstructured.param f' = [].
Proof.
  destruct (Parse_unterminated_quotes scanning.sample_eof scanning.sample_singleQuotes
              scanning.sample_isEOF scanning.sample_isSplitCharacter
              scanning.sample_isQuotes scanning.sample_isSingleQuotes
              scanning.sample_isEscape scanning.decode_ascii
              eq_refl decode_ascii_width scanning.open_quote_line 34%Z 1%nat)
    as (f' & Hrun & Hparam); try reflexivity; [discriminate | repeat constructor |].
  exists f'. split; [apply Hrun; vm_compute; lia | exact Hparam].
Defined.
